(** * Telos EVM JSON-RPC gateway: a shallow embedding and its properties

    The development follows the two source files of the plugin:
    the utilities ([numToHex], [makeLogObject], [logFilterMatch],
    [removeZeroHexFromFilter], [hasTopics], ...) and the route file
    ([parseRevertReason], [parsePanicReason], [toOpname], [jsonRPC2Error],
    [reconstructBlockFromReceipts], [makeTraces], the [eth_getLogs] and
    [trace_block] handlers, [doRpcMethod], [doRpcPayload]).

    Conventions of the embedding.
    - A JavaScript string whose code units are below 256 is a Rocq [string];
      where the code builds characters from numbers
      ([String.fromCharCode]) the result is kept as the list of its UTF-16
      code units ([list N]).
    - A JavaScript number that holds an integer is a [Z]; [NaN] is [None].
      The arithmetic of the sources is exact on the integers up to 2^53 in
      absolute value; a statement that depends on a sum or a difference
      carries that bound.
    - A field that may be [undefined] is an [option]; JavaScript truthiness
      is written out ([truthy]).
    - External collaborators (search backend, ledger, keccak, clock parsing)
      are fields of an environment record. *)

From stdpp Require Import base strings list sorting gmap.
From Stdlib Require Import ZArith NArith Ascii String HexString Lia Sorted.

Local Open Scope Z_scope.

(** ** JavaScript primitives used by the sources *)
Module Js.

(** Truthiness of a value that is a string or [undefined]/[null]:
    what [if (v)] tests, the negation of [!v]. *)
Definition truthy (v : option string) : bool :=
  match v with
  | None => false
  | Some EmptyString => false
  | Some _ => true
  end.

(** [s.substr(n)] / [s.slice(n)] for [0 <= n]. *)
Fixpoint drop (n : nat) (s : string) : string :=
  match n, s with
  | O, _ => s
  | S _, EmptyString => EmptyString
  | S n', String _ s' => drop n' s'
  end.

(** [s.substr(0, n)]. *)
Fixpoint take (n : nat) (s : string) : string :=
  match n, s with
  | O, _ => EmptyString
  | S _, EmptyString => EmptyString
  | S n', String c s' => String c (take n' s')
  end.

(** [s.slice(-n)]: the last [n] characters, the whole of a shorter [s]. *)
Definition slice_last (n : nat) (s : string) : string :=
  drop (String.length s - n) s.

(** [s.startsWith(p)]. *)
Fixpoint startsWith (p s : string) : bool :=
  match p, s with
  | EmptyString, _ => true
  | String _ _, EmptyString => false
  | String a p', String b s' => if Ascii.eqb a b then startsWith p' s' else false
  end.

(** [s.includes(p)]: [p] occurs in [s] as a contiguous substring. *)
Fixpoint includes (s p : string) : bool :=
  startsWith p s ||
  match s with
  | EmptyString => false
  | String _ s' => includes s' p
  end.

(** [s.replace(/^0x/, '')]. *)
Definition strip0x (s : string) : string :=
  match s with
  | String "0" (String "x" r) => r
  | _ => s
  end.

(** One character of [toLowerCase], on the code units below 256: the
    letters A-Z, and the capital letters of Latin-1 (192 to 222, the
    multiplication sign 215 apart), move up by 32. *)
Definition lowerChar (c : ascii) : ascii :=
  let n := nat_of_ascii c in
  if ((Nat.leb 65 n && Nat.leb n 90)
      || (Nat.leb 192 n && Nat.leb n 214)
      || (Nat.leb 216 n && Nat.leb n 222))%bool
  then ascii_of_nat (n + 32) else c.

Fixpoint toLowerCase (s : string) : string :=
  match s with
  | EmptyString => EmptyString
  | String c r => String (lowerChar c) (toLowerCase r)
  end.

(** Value of a character as a digit of radix 16, as [parseInt] reads it. *)
Definition hexDigit (c : ascii) : option Z :=
  let n := Z.of_nat (nat_of_ascii c) in
  if (48 <=? n) && (n <=? 57) then Some (n - 48)
  else if (97 <=? n) && (n <=? 102) then Some (n - 87)
  else if (65 <=? n) && (n <=? 70) then Some (n - 55)
  else None.

(** White space that [parseInt] skips (the code points below 256). *)
Definition isWhiteSpace (c : ascii) : bool :=
  let n := nat_of_ascii c in
  (Nat.eqb n 32 || (Nat.leb 9 n && Nat.leb n 13) || Nat.eqb n 160)%bool.

Fixpoint skipWhiteSpace (s : string) : string :=
  match s with
  | String c r => if isWhiteSpace c then skipWhiteSpace r else s
  | EmptyString => s
  end.

(** The longest prefix of radix-16 digits, accumulated left to right;
    [None] when there is no digit at all. *)
Fixpoint hexDigits (acc : option Z) (s : string) : option Z :=
  match s with
  | EmptyString => acc
  | String c r =>
      match hexDigit c with
      | Some d => hexDigits (Some (16 * (default 0 acc) + d)) r
      | None => acc
      end
  end.

Definition strip0xX (s : string) : string :=
  match s with
  | String "0" (String "x" r) => r
  | String "0" (String "X" r) => r
  | _ => s
  end.

(** [parseInt(s, 16)]: leading white space, an optional sign, an optional
    [0x]/[0X], then the longest run of digits; [None] is [NaN]. *)
Definition parseInt16 (s : string) : option Z :=
  let s1 := skipWhiteSpace s in
  let '(sign, s2) :=
    match s1 with
    | String "-" r => (-1, r)
    | String "+" r => (1, r)
    | _ => (1, s1)
    end in
  match hexDigits None (strip0xX s2) with
  | Some v => Some (sign * v)
  | None => None
  end.

(** The radix-16 digits of a natural number, lower case, no prefix. *)
Definition hexOfN (n : N) : string :=
  match n with
  | N0 => "0"
  | Npos p => HexString.Raw.of_pos p EmptyString
  end.

(** [n.toString(16)] for an integer [n]. *)
Definition toString16 (n : Z) : string :=
  if n <? 0 then "-" +:+ hexOfN (Z.to_N (- n))
  else hexOfN (Z.to_N n).

(** [n.toString(16)] where [n] may be [NaN]. *)
Definition numToString16 (n : option Z) : string :=
  match n with
  | Some z => toString16 z
  | None => "NaN"
  end.

(** [String.fromCharCode(n)]: the code unit [ToUint16(n)]; [NaN] gives 0. *)
Definition fromCharCode (n : option Z) : N :=
  match n with
  | Some z => Z.to_N (z mod 65536)
  | None => 0%N
  end.

(** The code units of a string. *)
Fixpoint codeUnits (s : string) : list N :=
  match s with
  | EmptyString => []
  | String c r => N_of_ascii c :: codeUnits r
  end.

Fixpoint zeros (n : nat) : string :=
  match n with
  | O => EmptyString
  | S n' => String "0" (zeros n')
  end.

(** [s.padStart(w, "0")]: nothing is added to a string of [w] or more
    characters. *)
Definition padStart0 (w : nat) (s : string) : string :=
  zeros (w - String.length s) +:+ s.

(** [s.replace('0x', '')] with a string pattern: the first occurrence,
    wherever it is. *)
Fixpoint removeFirst0x (s : string) : string :=
  match s with
  | EmptyString => EmptyString
  | String c r =>
      match c, r with
      | "0"%char, String "x" r' => r'
      | _, _ => String c (removeFirst0x r)
      end
  end.

(** [s.replace(/^(00)+/, '')]. *)
Fixpoint strip00 (s : string) : string :=
  match s with
  | String "0" (String "0" r) => strip00 r
  | _ => s
  end.

(** One character of [toUpperCase], on the code units below 256.  The
    result is a string: the letters a-z and the small letters of
    Latin-1 (224 to 254, the division sign 247 apart) move down by 32,
    and the sharp s (223) becomes the two letters SS.  The upper-case
    forms of the micro sign (181) and of the y with diaeresis (255) are
    code units above 255, which the strings of this development do not
    hold: the two are left as they are, and the statements about
    upper-casing are about strings without them. *)
Definition upperChar (c : ascii) : string :=
  let n := nat_of_ascii c in
  if ((Nat.leb 97 n && Nat.leb n 122)
      || (Nat.leb 224 n && Nat.leb n 246)
      || (Nat.leb 248 n && Nat.leb n 254))%bool
  then String (ascii_of_nat (n - 32)) EmptyString
  else if Nat.eqb n 223 then "SS"
  else String c EmptyString.

(** A value that is a number, a string or [undefined] ([typeof] tells
    them apart). *)
Inductive NumOrStr : Type :=
| JNum (n : Z)
| JStr (s : string)
| JUndefined.

(** Truthiness of such a value: the number 0, the empty string and
    [undefined] are falsy. *)
Definition truthyNumOrStr (v : NumOrStr) : bool :=
  match v with
  | JNum n => negb (n =? 0)
  | JStr s => truthy (Some s)
  | JUndefined => false
  end.

(** ["0x" + v] for a string that may be [undefined]. *)
Definition concatUndef (p : string) (v : option string) : string :=
  p +:+ default "undefined" v.

End Js.

(** ** The error decoder *)
Module ErrorDecoder.

Definition REVERT_FUNCTION_SELECTOR : string := "0x08c379a0".
Definition REVERT_PANIC_SELECTOR : string := "0x4e487b71".

(** The loop of [parseRevertReason]: [i] advances by two and
    [substr(i, 2)] is the next pair (a single character at an odd end). *)
Fixpoint revertChars (s : string) : list N :=
  match s with
  | EmptyString => []
  | String a EmptyString =>
      [Js.fromCharCode (Js.parseInt16 (String a EmptyString))]
  | String a (String b r) =>
      Js.fromCharCode (Js.parseInt16 (String a (String b EmptyString)))
        :: revertChars r
  end.

(** [parseRevertReason(revertOutput)]; the result is the list of the
    code units of the reason. *)
Definition parseRevertReason (revertOutput : option string) : list N :=
  match revertOutput with
  | None => []
  | Some out =>
      if (String.length out <? 138)%nat then []
      else revertChars (Js.drop 138 out)
  end.

Definition parsePanicReason (revertOutput : string) : string :=
  let trimmedOutput := Js.slice_last 2 revertOutput in
  if String.eqb trimmedOutput "01" then
    "If you call assert with an argument that evaluates to false."
  else if String.eqb trimmedOutput "11" then
    "If an arithmetic operation results in underflow or overflow outside of an unchecked { ... } block."
  else if String.eqb trimmedOutput "12" then
    "If you divide or modulo by zero (e.g. 5 / 0 or 23 % 0)."
  else if String.eqb trimmedOutput "21" then
    "If you convert a value that is too big or negative into an enum type."
  else if String.eqb trimmedOutput "31" then
    "If you call .pop() on an empty array."
  else if String.eqb trimmedOutput "32" then
    "If you access an array, bytesN or an array slice at an out-of-bounds or negative index (i.e. x[i] where i >= x.length or i < 0)."
  else if String.eqb trimmedOutput "41" then
    "If you allocate too much memory or create an array that is too large."
  else if String.eqb trimmedOutput "51" then
    "If you call a zero-initialized variable of internal function type."
  else "Default panic message".

End ErrorDecoder.


(** ** Data model: the indexed documents *)

(** An entry of a receipt's [logs]; [logIndex] is written by the
    [eth_getLogs] loop. *)
Record Log := mkLog {
  log_address : string;
  log_data : string;
  log_topics : list string;
  log_logIndex : option Z
}.

(** An entry of a receipt's [itxs]. *)
Record InternalCall := mkItx {
  itx_callType : string;
  itx_from : option string;
  itx_to : option string;
  itx_gas : string;
  itx_gasUsed : string;
  itx_input : string;
  itx_output : string;
  itx_value : string;
  itx_subtraces : Z;
  itx_traceAddress : list Z;
  itx_type : string
}.

(** The [@raw] object of an action document: one receipt. *)
Record Receipt := mkReceipt {
  r_hash : string;
  r_from : option string;
  r_to : option string;
  r_value : string;
  r_nonce : Z;
  r_gas_limit : Z;
  r_gasused : Z;
  r_gasusedblock : Z;
  r_charged_gas_price : Z;
  r_input_data : string;
  r_output : string;
  r_logsBloom : option string;
  r_logs : option (list Log);
  r_itxs : list InternalCall;
  r_errors : option (list string);
  r_block : Z;
  r_block_hash : string;
  r_trx_index : Z;
  r_v : option string;
  r_r : option string;
  r_s : option string
}.

(** The [_source] of a search hit on the action index. *)
Record ReceiptDoc := mkDoc {
  d_raw : Receipt;
  d_timestamp : string;
  d_signatures : option (list string);
  d_trx_id : string;
  d_global_sequence : Z
}.

(** ** Queries sent to the search backend *)
Inductive TermValue : Type :=
| TvNum (n : option Z)
| TvStr (s : string).

Inductive Clause : Type :=
| Exists (field : string)
| Term (field : string) (v : TermValue)
| Terms (field : string) (vs : list string)
| Range (field : string) (gte lte : option Z)
| Should (terms : list (string * string)).

Inductive SortOrder : Type := Asc | Desc.

Record Query := mkQuery {
  q_size : Z;
  q_must : list Clause;
  q_sort : option (string * SortOrder)
}.

(** ** JSON values, exceptions and results *)
#[local] Unset Elimination Schemes.
Inductive Json : Type :=
| JsNull
| JsBool (b : bool)
| JsNumber (n : Z)
| JsString (s : string)
| JsArray (l : list Json)
| JsObject (fields : list (string * Json)).
#[local] Set Elimination Schemes.

(** The [json.error] object of a ledger RPC error; an entry of
    [details] is the [message] of that detail, when it has one. *)
Record LedgerError := mkLedgerError {
  le_code : Z;
  le_details : option (list (option string))
}.

(** A thrown value, with the fields the dispatcher reads. *)
Record Exn := mkExn {
  ex_isTransactionError : bool;
  ex_code : option Z;
  ex_errorMessage : option string;
  ex_data : option Json;
  ex_message : option string;
  ex_json_error : option LedgerError
}.

(** [new Error(message)] *)
Definition newError (message : string) : Exn :=
  mkExn false None None None (Some message) None.

(** A [TypeError] raised by the runtime on a property access of
    [undefined]; [message] is its message. *)
Definition typeError (message : string) : Exn :=
  newError message.

(** Outcome of a call: a value, or a thrown exception (a rejected
    promise for an [async] function). *)
Inductive Result (A : Type) : Type :=
| Ok (a : A)
| Throw (e : Exn).
Arguments Ok {A} a.
Arguments Throw {A} e.

#[global] Instance Result_ret : MRet Result := fun _ a => Ok a.
#[global] Instance Result_bind : MBind Result := fun _ _ f m =>
  match m with
  | Ok a => f a
  | Throw e => Throw e
  end.

Definition isOk {A} (r : Result A) : bool :=
  match r with
  | Ok _ => true
  | Throw _ => false
  end.

(** ** External collaborators *)
Record Env := mkEnv {
  (** [createKeccakHash('keccak256').update(s).digest('hex')] *)
  keccak256Hex : string -> string;
  (** [new BN(v).toString(16)] for a string or [undefined] *)
  bnToString16 : option string -> string;
  (** [Number(s)] for a string [s]; [None] is [NaN] *)
  jsNumber : string -> option Z;
  (** [new Date(s + 'Z').getTime() / 1000 | 0] *)
  dateSeconds : string -> Z;
  (** [fastify.elastic.search] on the action index, read as the
      [_source] of its hits *)
  searchActions : Query -> Result (list ReceiptDoc);
  (** [getCurrentBlockNumber(true)] *)
  currentIndexedBlock : Result string;
  (** [getSignature(trx_id)] *)
  getSignature : string -> option string;
  (** [Signature.fromString(sig)] read as [(i.toString(16), r.toHex(),
      s.toHex())] *)
  signatureFromString : option string -> Result (string * string * string)
}.

(** ** Calls to the collaborators, in the order they are made

    The log holds the searches on the action index made through
    [getReceiptsByTerm] and by [eth_getLogs], and the reads of the
    current indexed block.  The other searches (the delta index of the
    empty blocks, the signatures of [getVRS], the action by hash) are
    functions of the environment and are not logged. *)
Inductive Call : Type :=
| CallCurrentBlock
| CallSearch (q : Query).

(** A computation that calls the collaborators: the calls it made and
    its outcome. *)
Record Eff (A : Type) : Type := mkEff {
  calls : list Call;
  outcome : Result A
}.
Arguments mkEff {A} calls outcome.
Arguments calls {A} e.
Arguments outcome {A} e.

#[global] Instance Eff_ret : MRet Eff := fun _ a => mkEff [] (Ok a).
#[global] Instance Eff_bind : MBind Eff := fun _ _ f m =>
  match outcome m with
  | Ok a => mkEff (calls m ++ calls (f a)) (outcome (f a))
  | Throw e => mkEff (calls m) (Throw e)
  end.

Definition throw {A} (e : Exn) : Eff A := mkEff [] (Throw e).

(** [try { m } catch (e) { h(e) }] *)
Definition tryCatch {A} (m : Eff A) (h : Exn -> Eff A) : Eff A :=
  match outcome m with
  | Ok a => m
  | Throw e => mkEff (calls m ++ calls (h e)) (outcome (h e))
  end.

(** ** The utilities *)
Module Utils.
Import Js.

Record EthLog := mkEthLog {
  address : option string;
  blockHash : string;
  blockNumber : string;
  data : string;
  logIndex : string;
  removed : option bool;
  topics : list string;
  transactionHash : string;
  transactionIndex : string
}.

Section WithEnv.
Variable env : Env.

Definition numToHex (input : NumOrStr) : string :=
  match input with
  | JNum n => "0x" +:+ toString16 n
  | JStr s => "0x" +:+ bnToString16 env (Some s)
  | JUndefined => "0x" +:+ bnToString16 env None
  end.

(** The loop of [toChecksumAddress]: [hash[i]] is [undefined] past the
    end of the digest, and [NaN >= 8] is false. *)
Fixpoint checksumChars (address hash : string) : string :=
  match address with
  | EmptyString => EmptyString
  | String c r =>
      let '(h, hr) :=
        match hash with
        | EmptyString => (None, EmptyString)
        | String h hr => (parseInt16 (String h EmptyString), hr)
        end in
      let c' :=
        match h with
        | Some v => if 8 <=? v then upperChar c else String c EmptyString
        | None => String c EmptyString
        end in
      c' +:+ checksumChars r hr
  end.

Definition toChecksumAddress (address : option string) : option string :=
  if negb (truthy address) then address
  else
    let a := removeFirst0x (toLowerCase (default "" address)) in
    let a := if Nat.eqb (String.length a) 40 then a else padStart0 40 a in
    let hash := keccak256Hex env a in
    Some ("0x" +:+ checksumChars a hash).

Definition blockHexToHash (blockHex : string) (zeroXPrefix : bool) : string :=
  (if zeroXPrefix then "0x" else "") +:+ keccak256Hex env (strip0x blockHex).

(** [blockNumberHex] is [undefined] when no receipt set it;
    [parseInt(undefined, 16)] is [NaN].  The difference
    [blockNumber - 1] is the one of the integers: it is the one of the
    source for block numbers up to 2^53, past which the source rounds. *)
Definition getParentBlockHash (blockNumberHex : option string) : string :=
  let blockNumber := parseInt16 (default "undefined" blockNumberHex) in
  let parentBlockHex := numToString16 (option_map (fun n => n - 1) blockNumber) in
  blockHexToHash parentBlockHex true.

Definition makeLogObject (rawActionDocument : ReceiptDoc) (log : Log)
    (forSubscription : bool) : EthLog :=
  let raw := d_raw rawActionDocument in
  {| address := toChecksumAddress (Some ("0x" +:+ log_address log));
     blockHash := "0x" +:+ r_block_hash raw;
     blockNumber := numToHex (JNum (r_block raw));
     data := "0x" +:+ log_data log;
     logIndex :=
       numToHex (match log_logIndex log with
                 | Some i => JNum i
                 | None => JUndefined
                 end);
     removed := if forSubscription then None else Some false;
     topics := map (fun t => "0x" +:+ padStart0 64 t) (log_topics log);
     transactionHash := r_hash raw;
     transactionIndex := numToHex (JNum (r_trx_index raw)) |}.

End WithEnv.

(** [removeZeroHexFromFilter] on one string (the callback of the array
    case and the tail of the function). *)
Definition normalizeHex (trimLeftZeros : bool) (f : string) : string :=
  let noPrefix := toLowerCase (strip0x f) in
  if trimLeftZeros then strip00 noPrefix else noPrefix.

(** [removeZeroHexFromFilter(filter, trim)] for a string or [null]. *)
Definition removeZeroHexFromFilter (filter : option string)
    (trimLeftZeros : bool) : option string :=
  if negb (truthy filter) then filter
  else Some (normalizeHex trimLeftZeros (default "" filter)).

(** [removeZeroHexFromFilter(filter, trim)] for an array. *)
Definition removeZeroHexFromFilterArray (filter : list (option string))
    (trimLeftZeros : bool) : list (option string) :=
  map (fun f => removeZeroHexFromFilter f trimLeftZeros) filter.

(** One position of a topics filter: [null], a string, or a list. *)
Inductive TopicFilter : Type :=
| TNull
| TStr (t : string)
| TList (ts : list (option string)).

Definition normalizeTopicFilter (t : TopicFilter) : TopicFilter :=
  match t with
  | TNull => TNull
  | TStr s => match removeZeroHexFromFilter (Some s) true with
              | Some s' => TStr s'
              | None => TNull
              end
  | TList l => TList (removeZeroHexFromFilterArray l true)
  end.

(** The body of the loop of [hasTopics] at one position: [topic] is the
    filter entry, [logTopic] is [topics[index]] ([undefined] past the
    end).  [String.prototype.includes] converts its argument to a
    string; [Array.prototype.includes] compares elements. *)
Definition topicMatches (topic : TopicFilter) (logTopic : option string) : bool :=
  match topic with
  | TNull => true
  | TStr t =>
      if includes t (default "undefined" logTopic) then true
      else if bool_decide (logTopic = Some t) then true
      else false
  | TList ts =>
      match logTopic with
      | Some lt => if bool_decide (Some lt ∈ ts) then true else false
      | None => false
      end
  end.

Fixpoint hasTopicsLoop (topics : list (option string))
    (topicsFilter : list TopicFilter) (index : nat) : list bool :=
  match topicsFilter with
  | [] => []
  | topic :: rest =>
      topicMatches topic (mjoin (topics !! index))
        :: hasTopicsLoop topics rest (S index)
  end.

Definition hasTopics (topics : list string) (topicsFilter : list TopicFilter) : bool :=
  let topics := removeZeroHexFromFilterArray (map Some topics) true in
  let topicsFilter := map normalizeTopicFilter topicsFilter in
  let topicsFiltered := hasTopicsLoop topics topicsFilter 0 in
  forallb (fun t => Bool.eqb t true) topicsFiltered.

(** The address filter: a string or a list of strings. *)
Inductive AddressFilter : Type :=
| AddrOne (a : string)
| AddrMany (l : list string).

Definition addressFilterTruthy (f : option AddressFilter) : bool :=
  match f with
  | None => false
  | Some (AddrOne a) => truthy (Some a)
  | Some (AddrMany _) => true
  end.

Definition logFilterMatch (log : Log) (addressFilter : option AddressFilter)
    (topicsFilter : option (list TopicFilter)) : bool :=
  let addressOk :=
    if addressFilterTruthy addressFilter then
      let thisAddr := removeZeroHexFromFilter (Some (toLowerCase (log_address log))) true in
      match addressFilter with
      | Some (AddrMany l) =>
          let l' := removeZeroHexFromFilterArray (map Some l) true in
          if negb (bool_decide (thisAddr ∈ l')) then false else true
      | Some (AddrOne a) =>
          let a' := removeZeroHexFromFilter (Some a) true in
          if negb (bool_decide (thisAddr = a')) then false else true
      | None => true
      end
    else true in
  if negb addressOk then false
  else
    match topicsFilter with
    | Some tf => if negb (hasTopics (log_topics log) tf) then false else true
    | None => true
    end.

End Utils.

(** ** The bloom filter *)
Module Bloom.

Definition BYTE_SIZE : nat := 256.

(** [Buffer.from(s, "hex")]: one byte per pair of digits, up to the
    first pair that is not hexadecimal. *)
Fixpoint bufferFromHex (s : string) : list N :=
  match s with
  | String a (String b r) =>
      match Js.hexDigit a, Js.hexDigit b with
      | Some x, Some y => Z.to_N (16 * x + y) :: bufferFromHex r
      | _, _ => []
      end
  | _ => []
  end.

Definition hexChar (d : N) : ascii :=
  if (d <? 10)%N then ascii_of_N (48 + d) else ascii_of_N (87 + d).

(** [buffer.toString("hex")] *)
Fixpoint bufferToHex (b : list N) : string :=
  match b with
  | [] => EmptyString
  | x :: r => String (hexChar (x / 16)) (String (hexChar (x mod 16)) (bufferToHex r))
  end.

(** Modelled from the spec: the class [Bloom] of the module [bloom],
    which the route file imports but which is not among the sources.
    A bloom is a vector of [BYTE_SIZE] bytes. *)
Record t := mk { bitvector : list N }.

(** Modelled from the spec: the constructor of [Bloom]; the vector is
    all zero when no buffer is given. *)
Definition new (bitvector : option (list N)) : t :=
  mk (default (replicate BYTE_SIZE 0%N) bitvector).

(** Modelled from the spec: the method [or] of [Bloom], the bitwise OR
    of the two vectors, byte by byte (a byte missing on the other side
    contributes nothing). *)
Definition or (this other : t) : t :=
  mk (imap (fun i b => N.lor b (default 0%N (bitvector other !! i))) (bitvector this)).

End Bloom.

(** ** Block reconstruction *)
Module Reconstruction.
Import Js Utils.

Record VRS := mkVRS { v : string; r : string; s : string }.

Record FullTx := mkFullTx {
  tx_blockHash : option string;
  tx_blockNumber : option string;
  tx_from : option string;
  tx_gas : string;
  tx_gasPrice : string;
  tx_hash : string;
  tx_input : string;
  tx_nonce : string;
  tx_to : option string;
  tx_transactionIndex : string;
  tx_value : string;
  tx_vrs : VRS
}.

Inductive Tx : Type :=
| TxHash (hash : string)
| TxFull (tx : FullTx).

(** The fields that [reconstructBlockFromReceipts] computes; the other
    fields of the result are the constants of [BLOCK_TEMPLATE]. *)
Record Block := mkBlock {
  gasUsed : string;
  parentHash : string;
  hash : option string;
  logsBloom : string;
  number : option string;
  timestamp : string;
  transactions : list Tx
}.

(** The variables of the loop of [reconstructBlockFromReceipts]. *)
Record Acc := mkAcc {
  a_blockHash : option string;
  a_blockHex : option string;
  a_gasLimit : Z;
  a_gasUsedBlock : Z;
  a_timestamp : option Z;
  a_bloom : Bloom.t;
  a_trxs : list Tx
}.

Definition initialAcc : Acc :=
  mkAcc None None 0 0 None (Bloom.new None) [].

Section WithEnv.
Variable env : Env.

Definition getVRS (receiptDoc : ReceiptDoc) : Result VRS :=
  let receipt := d_raw receiptDoc in
  let sigString :=
    match d_signatures receiptDoc with
    | Some (sg :: _) => Some sg
    | _ => getSignature env (d_trx_id receiptDoc)
    end in
  match r_v receipt with
  | None =>
      '(i, sr, ss) ← signatureFromString env sigString;
      mret (mkVRS ("0x" +:+ padStart0 64 i) ("0x" +:+ padStart0 64 sr) ("0x" +:+ ss))
  | Some rv =>
      mret (mkVRS ("0x" +:+ rv) (concatUndef "0x" (r_r receipt))
                  (concatUndef "0x" (r_s receipt)))
  end.

(** One iteration of the loop over the receipts. *)
Definition reconstructStep (full : bool) (acc : Acc) (receiptDoc : ReceiptDoc)
    : Result Acc :=
  vrs ← getVRS receiptDoc;
  let receipt := d_raw receiptDoc in
  let gasLimit := a_gasLimit acc + r_gas_limit receipt in
  let trxGasUsedBlock := r_gasusedblock receipt in
  let gasUsedBlock :=
    if trxGasUsedBlock >? a_gasUsedBlock acc then trxGasUsedBlock
    else a_gasUsedBlock acc in
  let blockHash :=
    if negb (truthy (a_blockHash acc)) then Some ("0x" +:+ r_block_hash receipt)
    else a_blockHash acc in
  let blockHex :=
    if negb (truthy (a_blockHex acc)) then Some ("0x" +:+ toString16 (r_block receipt))
    else a_blockHex acc in
  let timestamp :=
    match a_timestamp acc with
    | None | Some 0 => Some (dateSeconds env (d_timestamp receiptDoc))
    | Some t => Some t
    end in
  let bloom :=
    if truthy (r_logsBloom receipt) then
      Bloom.or (a_bloom acc)
        (Bloom.new (Some (Bloom.bufferFromHex (default "" (r_logsBloom receipt)))))
    else a_bloom acc in
  let trx :=
    if negb full then TxHash (r_hash receipt)
    else TxFull {|
      tx_blockHash := blockHash;
      tx_blockNumber := blockHex;
      tx_from := toChecksumAddress env (r_from receipt);
      tx_gas := "0x" +:+ toString16 (r_gasused receipt);
      tx_gasPrice := "0x" +:+ toString16 (r_charged_gas_price receipt);
      tx_hash := r_hash receipt;
      tx_input := r_input_data receipt;
      tx_nonce := "0x" +:+ toString16 (r_nonce receipt);
      tx_to := toChecksumAddress env (r_to receipt);
      tx_transactionIndex := "0x" +:+ toString16 (r_trx_index receipt);
      tx_value := "0x" +:+ numToString16 (jsNumber env (r_value receipt));
      tx_vrs := vrs |} in
  mret (mkAcc blockHash blockHex gasLimit gasUsedBlock timestamp bloom
              (a_trxs acc ++ [trx])).

Fixpoint reconstructLoop (full : bool) (acc : Acc) (receipts : list ReceiptDoc)
    : Result Acc :=
  match receipts with
  | [] => mret acc
  | receiptDoc :: rest =>
      acc' ← reconstructStep full acc receiptDoc;
      reconstructLoop full acc' rest
  end.

Definition reconstructBlockFromReceipts (receipts : list ReceiptDoc) (full : bool)
    : Result Block :=
  acc ← reconstructLoop full initialAcc receipts;
  let logsBloom := "0x" +:+ Bloom.bufferToHex (Bloom.bitvector (a_bloom acc)) in
  mret {|
    gasUsed := numToHex env (JNum (a_gasUsedBlock acc));
    parentHash := getParentBlockHash env (a_blockHex acc);
    hash := a_blockHash acc;
    logsBloom := logsBloom;
    number := a_blockHex acc;
    timestamp := "0x" +:+ match a_timestamp acc with
                          | Some t => toString16 t
                          | None => "undefined"
                          end;
    transactions := a_trxs acc |}.

End WithEnv.
End Reconstruction.

(** ** Auxiliary functions of the route file *)
Module Aux.
Section WithEnv.
Variable env : Env.

Definition getCurrentBlockNumberIndexed : Eff string :=
  mkEff [CallCurrentBlock] (currentIndexedBlock env).

Definition search (q : Query) : Eff (list ReceiptDoc) :=
  mkEff [CallSearch q] (searchActions env q).

(** [toBlockNumber(blockParam)]; the parameter may be [undefined]. *)
Definition toBlockNumber (blockParam : option string) : Eff (option string) :=
  if bool_decide (blockParam = Some "latest") || bool_decide (blockParam = Some "pending")
  then b ← getCurrentBlockNumberIndexed; mret (Some b)
  else if bool_decide (blockParam = Some "earliest") then mret (Some "0x0")
  else mret blockParam.

(** [toBlockNumber] on a parameter that may be a number: a number is
    equal to none of the tags and is returned as it is. *)
Definition toBlockNumberOf (blockParam : Js.NumOrStr) : Eff Js.NumOrStr :=
  match blockParam with
  | Js.JStr s =>
      b ← toBlockNumber (Some s);
      mret (match b with
            | Some s' => Js.JStr s'
            | None => Js.JUndefined
            end)
  | Js.JNum n => mret (Js.JNum n)
  | Js.JUndefined => mret Js.JUndefined
  end.

Definition getReceiptsByTerm (term : string) (value : TermValue)
    : Eff (list ReceiptDoc) :=
  search {| q_size := 2000; q_must := [Term term value]; q_sort := None |}.

End WithEnv.
End Aux.

(** ** The trace builder *)
Module Traces.
Import Js Utils.

Definition toOpname (opcode : string) : string :=
  if String.eqb opcode "f0" then "create"
  else if String.eqb opcode "f1" then "call"
  else if String.eqb opcode "f4" then "delegatecall"
  else if String.eqb opcode "f5" then "create2"
  else if String.eqb opcode "fa" then "staticcall"
  else if String.eqb opcode "ff" then "selfdestruct"
  else "unkown".

Record Action := mkAction {
  callType : string;
  from : option string;
  gas : string;
  input : string;
  to : option string;
  value : string
}.

Record TraceResult := mkTraceResult {
  gasUsed : string;
  output : string
}.

(** A trace; [error] and the four linkage fields are absent unless the
    builder sets them. *)
Record Trace := mkTrace {
  action : Action;
  result : TraceResult;
  subtraces : Z;
  traceAddress : list Z;
  type : string;
  error : option string;
  blockHash : option string;
  blockNumber : option Z;
  transactionHash : option string;
  transactionPosition : option Z
}.

(** The object returned in ad-hoc mode; [stateDiff] and [vmTrace] are
    [null] ([None]). *)
Record AdHocEnvelope := mkAdHoc {
  ah_output : string;
  ah_stateDiff : option Json;
  ah_trace : list Trace;
  ah_vmTrace : option Json
}.

Inductive TracesResult : Type :=
| TraceList (l : list Trace)
| TraceEnvelope (e : AdHocEnvelope).

Section WithEnv.
Variable env : Env.

(** The assignments made to a trace when [!adHoc]. *)
Definition withLinkage (receipt : Receipt) (adHoc : bool) (t : Trace) : Trace :=
  if negb adHoc then
    {| action := action t; result := result t; subtraces := subtraces t;
       traceAddress := traceAddress t; type := type t; error := error t;
       blockHash := Some ("0x" +:+ r_block_hash receipt);
       blockNumber := Some (r_block receipt);
       transactionHash := Some (r_hash receipt);
       transactionPosition := Some (r_trx_index receipt) |}
  else t.

Definition makeInitialTrace (receipt : Receipt) (adHoc : bool) : Trace :=
  let gas := "0x" +:+ toString16 (r_gasused receipt) in
  let trace :=
    {| action := {| callType := "call";
                    from := toChecksumAddress env (r_from receipt);
                    gas := gas;
                    input := r_input_data receipt;
                    to := toChecksumAddress env (r_to receipt);
                    value := "0x" +:+ r_value receipt |};
       result := {| gasUsed := gas; output := "0x" +:+ r_output receipt |};
       subtraces := Z.of_nat (List.length (r_itxs receipt));
       traceAddress := [];
       type := "call";
       error := None;
       blockHash := None; blockNumber := None;
       transactionHash := None; transactionPosition := None |} in
  let trace :=
    match r_errors receipt with
    | Some (e :: _) =>
        {| action := action trace; result := result trace;
           subtraces := subtraces trace; traceAddress := traceAddress trace;
           type := type trace; error := Some e;
           blockHash := None; blockNumber := None;
           transactionHash := None; transactionPosition := None |}
    | _ => trace
    end in
  withLinkage receipt adHoc trace.

Definition makeTrace (receipt : Receipt) (itx : InternalCall) (adHoc : bool) : Trace :=
  let trace :=
    {| action := {| callType := toOpname (itx_callType itx);
                    from := toChecksumAddress env (itx_from itx);
                    gas := "0x" +:+ itx_gas itx;
                    input := "0x" +:+ itx_input itx;
                    to := toChecksumAddress env (itx_to itx);
                    value := "0x" +:+ itx_value itx |};
       result := {| gasUsed := "0x" +:+ itx_gasUsed itx;
                    output := "0x" +:+ itx_output itx |};
       subtraces := itx_subtraces itx;
       traceAddress := itx_traceAddress itx;
       type := itx_type itx;
       error := None;
       blockHash := None; blockNumber := None;
       transactionHash := None; transactionPosition := None |} in
  withLinkage receipt adHoc trace.

(** The loop [for (const itx of receipt['itxs']) results.push(...)]. *)
Fixpoint pushTraces (receipt : Receipt) (adHoc : bool)
    (results : list Trace) (itxs : list InternalCall) : list Trace :=
  match itxs with
  | [] => results
  | itx :: rest =>
      pushTraces receipt adHoc (results ++ [makeTrace receipt itx adHoc]) rest
  end.

Definition makeTraces (receipt : Receipt) (adHoc : bool) : TracesResult :=
  let results := [makeInitialTrace receipt adHoc] in
  let results := pushTraces receipt adHoc results (r_itxs receipt) in
  if negb adHoc then TraceList results
  else TraceEnvelope {| ah_output := "0x" +:+ r_output receipt;
                        ah_stateDiff := None;
                        ah_trace := results;
                        ah_vmTrace := None |}.

(** [receipts.sort((a, b) => a.trx_index - b.trx_index)]: a stable
    sort; [insertByIndex] puts a receipt after those that do not
    come later. *)
Fixpoint insertByIndex (x : Receipt) (l : list Receipt) : list Receipt :=
  match l with
  | [] => [x]
  | y :: r =>
      if r_trx_index x <? r_trx_index y then x :: l
      else y :: insertByIndex x r
  end.

Definition sortByIndex (l : list Receipt) : list Receipt :=
  fold_left (fun acc x => insertByIndex x acc) l [].

(** [a.concat(x, y)]: a new array; [a] is left as it is. *)
Definition Array_concat {A} (a : list A) (args : list (list A)) : list A :=
  a ++ List.concat args.

(** The elements that [concat] takes from the value of [makeTraces]:
    the traces of a list, the one object otherwise. *)
Inductive TraceItem : Type :=
| ItemTrace (t : Trace)
| ItemEnvelope (e : AdHocEnvelope).

Definition spread (r : TracesResult) : list TraceItem :=
  match r with
  | TraceList l => map ItemTrace l
  | TraceEnvelope e => [ItemEnvelope e]
  end.

(** The loop of [trace_block]: the value of [traces.concat(...)] is
    not stored, and [traces] goes on to the next iteration. *)
Fixpoint traceBlockLoop (traces : list TraceItem) (sortedReceipts : list Receipt)
    : list TraceItem :=
  match sortedReceipts with
  | [] => traces
  | receipt :: rest =>
      let trxTraces := makeTraces receipt false in
      let _ := Array_concat traces [traces; spread trxTraces] in
      traceBlockLoop traces rest
  end.

Definition trace_block (block : option string) : Eff (list TraceItem) :=
  blockParam ← Aux.toBlockNumber env block;
  let blockNumber := parseInt16 (default "undefined" blockParam) in
  receiptHits ← Aux.getReceiptsByTerm env "@raw.block" (TvNum blockNumber);
  let receipts := map d_raw receiptHits in
  let sortedReceipts := sortByIndex receipts in
  mret (traceBlockLoop [] sortedReceipts).

End WithEnv.
End Traces.

(** ** The [eth_getLogs] handler *)
Module GetLogs.
Import Js Utils.

(** The [address] of the filter object as the handler receives it: a
    string, or a list whose entries are strings or [null]. *)
Inductive AddressParam : Type :=
| PAddrOne (a : string)
| PAddrMany (l : list (option string)).

Definition addressParamTruthy (a : option AddressParam) : bool :=
  match a with
  | None => false
  | Some (PAddrOne a) => truthy (Some a)
  | Some (PAddrMany _) => true
  end.

(** The filter object, with values of the types the handler declares
    for them, any of which may be missing: [address] a string or a
    list, [topics] a list, [blockHash] a string, a block bound a string
    or a number ([string | number]). *)
Record Params := mkParams {
  p_address : option AddressParam;
  p_topics : option (list TopicFilter);
  p_blockHash : option string;
  p_fromBlock : NumOrStr;
  p_toBlock : NumOrStr
}.

(** [x.startsWith('0x') ? x.slice(2) : x] *)
Definition slice0x (x : string) : string :=
  if startsWith "0x" x then drop 2 x else x.

(** Truthiness of a number; [None] is [NaN] or [undefined]. *)
Definition numTruthy (n : option Z) : bool :=
  match n with
  | Some z => negb (z =? 0)
  | None => false
  end.

(** [a > b] where [a] may be [NaN] or [undefined]. *)
Definition numGt (a : option Z) (b : Z) : bool :=
  match a with
  | Some z => z >? b
  | None => false
  end.

Definition numLt (a : option Z) (b : Z) : bool :=
  match a with
  | Some z => z <? b
  | None => false
  end.

(** The strings pushed to [flatTopics] for one entry of the filter. *)
Definition flatTopic (topic : TopicFilter) : list string :=
  match topic with
  | TNull => []
  | TStr t => if truthy (Some t) then [toLowerCase (slice0x t)] else []
  | TList l =>
      flat_map (fun orTopic =>
                  if truthy orTopic
                  then [toLowerCase (slice0x (default "" orTopic))]
                  else []) l
  end.

(** The variables the processing loop reads. *)
Record Filter := mkFilter {
  f_blockHash : option string;
  f_fromBlock : option Z;
  f_toBlock : option Z;
  f_addressFilter : option AddressFilter;
  f_topicsFilter : option (list TopicFilter)
}.

(** The tests that [continue] the inner loop before the filter match. *)
Definition skipByBlock (f : Filter) (doc : ReceiptDoc) : bool :=
  let block := r_block (d_raw doc) in
  if negb (truthy (f_blockHash f)) then
    numGt (f_fromBlock f) block || numLt (f_toBlock f) block
  else negb (bool_decide (f_blockHash f = Some (r_block_hash (d_raw doc)))).

Definition setLogIndex (log : Log) (i : Z) : Log :=
  {| log_address := log_address log; log_data := log_data log;
     log_topics := log_topics log; log_logIndex := Some i |}.

(** The processing loops; [emit doc log] is what is pushed to
    [results], the state is [(results, logCount)]. *)
Section Loop.
Context {A : Type}.
Variable emit : ReceiptDoc -> Log -> A.
Variable f : Filter.

Definition logStep (doc : ReceiptDoc) (st : list A * Z) (log : Log) : list A * Z :=
  if skipByBlock f doc then st
  else if negb (logFilterMatch log (f_addressFilter f) (f_topicsFilter f)) then st
  else (st.1 ++ [emit doc (setLogIndex log st.2)], st.2 + 1).

Definition docStep (st : list A * Z) (doc : ReceiptDoc) : list A * Z :=
  match r_logs (d_raw doc) with
  | Some logs => fold_left (logStep doc) logs st
  | None => st
  end.

Definition processHits (hits : list ReceiptDoc) : list A :=
  (fold_left docStep hits ([], 0)).1.
End Loop.

Section WithEnv.
Variable env : Env.

(** [typeof(x) == 'string' ? parseInt(x, 16) : x] *)
Definition parseIfString (x : NumOrStr) : option Z :=
  match x with
  | JStr s => parseInt16 s
  | JNum n => Some n
  | JUndefined => None
  end.

(** The part of the handler that reads [blockHash], [fromBlock] and
    [toBlock]: the loop variables and the clause added to the query. *)
Definition selectBlocks (params : Params)
    : Eff (option string * option Z * option Z * Clause) :=
  let blockHash := p_blockHash params in
  if truthy blockHash then
    let blockHash := slice0x (default "" blockHash) in
    if truthyNumOrStr (p_fromBlock params) || truthyNumOrStr (p_toBlock params) then
      throw (newError "fromBlock/toBlock are not allowed with blockHash query")
    else mret (Some blockHash, None, None, Term "@raw.block_hash" (TvStr blockHash))
  else
    fromBlockExplicit ← Aux.toBlockNumberOf env
      (if truthyNumOrStr (p_fromBlock params) then p_fromBlock params else JStr "latest");
    let fromBlock := parseIfString fromBlockExplicit in
    toBlockExplicit ← Aux.toBlockNumberOf env
      (if truthyNumOrStr (p_toBlock params) then p_toBlock params else JStr "latest");
    let toBlock := parseIfString toBlockExplicit in
    mret (blockHash, fromBlock, toBlock,
          Range "@raw.block"
            (if numTruthy fromBlock then fromBlock else None)
            (if numTruthy toBlock then toBlock else None)).

(** [addressFilter.map(addr => ...)]: the callback reads
    [addr.startsWith], which throws on an entry that is [null]. *)
Fixpoint lowerAddresses (l : list (option string)) : Result (list string) :=
  match l with
  | [] => mret []
  | None :: _ =>
      Throw (typeError "Cannot read properties of null (reading 'startsWith')")
  | Some addr :: rest =>
      rest' ← lowerAddresses rest;
      mret (toLowerCase (slice0x addr) :: rest')
  end.

(** The address filter as the loop sees it, and its clauses.  A falsy
    filter and an empty list are left as they are. *)
Definition prepareAddress (addressFilter : option AddressParam)
    : Result (option AddressFilter * list Clause) :=
  if addressParamTruthy addressFilter then
    match addressFilter with
    | Some (PAddrMany l) =>
        if (0 <? List.length l)%nat then
          l' ← lowerAddresses l;
          mret (Some (AddrMany l'),
                [Should (map (fun addr => ("@raw.logs.address", addr))
                             (filter (fun addr => truthy (Some addr) = true) l'))])
        else mret (Some (AddrMany []), [])
    | Some (PAddrOne a) =>
        let a' := slice0x (toLowerCase a) in
        mret (Some (AddrOne a'), [Term "@raw.logs.address" (TvStr a')])
    | None => mret (None, [])
    end
  else
    mret (match addressFilter with
          | Some (PAddrOne a) => Some (AddrOne a)
          | _ => None
          end, []).

Definition prepareTopics (topicsFilter : option (list TopicFilter)) : list Clause :=
  match topicsFilter with
  | Some tf =>
      if (0 <? List.length tf)%nat
      then [Terms "@raw.logs.topics" (flat_map flatTopic tf)]
      else []
  | None => []
  end.

(** The handler; [parameters] is the first element of the parameters
    of the request, [None] when there is none ([params.address] then
    throws). *)
Definition eth_getLogs (parameters : option Params) : Eff (list EthLog) :=
  match parameters with
  | None => throw (typeError "Cannot read properties of undefined (reading 'address')")
  | Some params =>
      '(blockHash, fromBlock, toBlock, blockClause) ← selectBlocks params;
      '(addressFilter, addressClauses) ← mkEff [] (prepareAddress (p_address params));
      let topicsFilter := p_topics params in
      let must := [Exists "@raw.logs"; blockClause] ++ addressClauses
                    ++ prepareTopics topicsFilter in
      tryCatch
        (hits ← Aux.search env
                  {| q_size := 2000; q_must := must;
                     q_sort := Some ("global_sequence", Asc) |};
         mret (processHits (fun doc log => makeLogObject env doc log false)
                 (mkFilter blockHash fromBlock toBlock addressFilter topicsFilter)
                 hits))
        (fun _ => mret [])
  end.

End WithEnv.
End GetLogs.

(** ** The method dispatcher *)
Module Dispatcher.
Import Js.

Definition EOSIO_ASSERTION_PREFIX : string := "assertion failure with message: ".

(** A request object, with the four fields that [doRpcMethod] reads;
    each may be missing (a body that is not an object, a number for
    instance, reads as a request with every field missing).  The
    version is any JSON value, the method a string. *)
Record Request := mkRequest {
  jsonrpc : option Json;
  id : option Json;
  method : option string;
  params : option Json
}.

(** Truthiness of a JSON value that may be missing. *)
Definition jsonTruthy (v : option Json) : bool :=
  match v with
  | None => false
  | Some JsNull => false
  | Some (JsBool b) => b
  | Some (JsNumber n) => negb (n =? 0)
  | Some (JsString s) => truthy (Some s)
  | Some (JsArray _) => true
  | Some (JsObject _) => true
  end.

(** [v === s] for a string [s]. *)
Definition jsonIsString (v : option Json) (s : string) : bool :=
  match v with
  | Some (JsString t) => String.eqb t s
  | _ => false
  end.

Record RpcError := mkRpcError {
  code : Z;
  message : option string;
  data : option Json
}.

(** A response: [{id, jsonrpc, result}] or [{id, jsonrpc, error}]. *)
Inductive Envelope : Type :=
| Success (id : option Json) (jsonrpc : string) (result : Json)
| Failure (id : option Json) (jsonrpc : string) (error : RpcError).

(** A registered method: what it returns or throws on its parameters. *)
Definition Handler : Type := option Json -> Result Json.

(** What [doRpcMethod] changes: the status code of the shared [reply]
    object ([None]: there is no reply object) and, for the record, the
    handlers that were called. *)
Record St := mkSt {
  reply : option Z;
  invoked : list (string * option Json)
}.

Definition setStatus (reply : option Z) (status : Z) : option Z :=
  match reply with
  | Some _ => Some status
  | None => None
  end.

Definition jsonRPC2Error (reply : option Z) (type : string)
    (requestId : option Json) (message : string) (code : option Z)
    : option Z * Envelope :=
  let '(reply, errorCode) :=
    if String.eqb type "InvalidRequest" then (setStatus reply 400, -32600)
    else if String.eqb type "MethodNotFound" then (setStatus reply 404, -32601)
    else if String.eqb type "ParseError" then (setStatus reply 400, -32700)
    else if String.eqb type "InvalidParams" then (setStatus reply 400, -32602)
    else if String.eqb type "InternalError" then (setStatus reply 500, -32603)
    else (setStatus reply 500, -32603) in
  (reply, Failure requestId "2.0" (mkRpcError errorCode (Some message) None)).

(** The [catch] block of [doRpcMethod].  Its log lines are left out:
    the text they print, with [JSON.stringify] of the parameters and of
    the exception, is taken to build. *)
Definition catchHandler (id : option Json) (jsonrpc : string) (e : Exn)
    : Result Envelope :=
  if ex_isTransactionError e then
    let code :=
      match ex_code e with
      | Some c => if c =? 0 then 3 else c
      | None => 3
      end in
    Ok (Failure id jsonrpc (mkRpcError code (ex_errorMessage e) (ex_data e)))
  else
    let isAssertion :=
      match ex_json_error e with
      | Some le => le_code le =? 3050003
      | None => false
      end in
    if isAssertion then
      match ex_json_error e ≫= le_details with
      | None => Throw (typeError "Cannot read properties of undefined (reading '0')")
      | Some details =>
          match mjoin (details !! 0%nat) with
          | None =>
              Throw (typeError "Cannot read properties of undefined (reading 'startsWith')")
          | Some message =>
              let message :=
                if startsWith EOSIO_ASSERTION_PREFIX message
                then drop (String.length EOSIO_ASSERTION_PREFIX) message
                else message in
              Ok (Failure id jsonrpc (mkRpcError 3 (Some message) None))
          end
      end
    else Ok (Failure id jsonrpc (mkRpcError 3 (ex_message e) None)).

Section WithMethods.
Variable methods : gmap string Handler.

(** [doRpcMethod(jsonRpcRequest, clientInfo, reply)].  The argument is
    [None] when it is [null]: the destructuring of its first line then
    throws, outside any [try].  Past the version check [jsonrpc] is the
    string "2.0". *)
Definition doRpcMethod (jsonRpcRequest : option Request) (st : St)
    : St * Result Envelope :=
  match jsonRpcRequest with
  | None =>
      (st, Throw (typeError
         "Cannot destructure property 'jsonrpc' of 'jsonRpcRequest' as it is null."))
  | Some request =>
      let id := id request in
      let method := method request in
      let params := params request in
      let jsonrpc :=
        if negb (jsonTruthy (jsonrpc request)) then Some (JsString "2.0")
        else jsonrpc request in
      if negb (jsonIsString jsonrpc "2.0") then
        let '(reply, response) :=
          jsonRPC2Error (reply st) "InvalidRequest" id "Invalid JSON RPC" None in
        (mkSt reply (invoked st), Ok response)
      else
        let jsonrpc := "2.0" in
        match method ≫= (methods !!.) with
        | Some func =>
            let st := mkSt (reply st) (invoked st ++ [(default "" method, params)]) in
            match func params with
            | Ok result => (st, Ok (Success id jsonrpc result))
            | Throw e => (st, catchHandler id jsonrpc e)
            end
        | None =>
            let '(reply, response) :=
              jsonRPC2Error (reply st) "MethodNotFound" id
                ("Invalid method: " +:+ default "undefined" method) None in
            (mkSt reply (invoked st), Ok response)
        end
  end.

(** The body of the POST request: one request or an array of them; a
    request, alone or in an array, may be [null]. *)
Inductive Payload : Type :=
| PSingle (request : option Request)
| PArray (requests : list (option Request)).

(** What [doRpcPayload] resolves to; [NoResponse] is [undefined]. *)
Inductive Response : Type :=
| NoResponse
| RSingle (response : Envelope)
| RBatch (responses : list Envelope).

(** The loop that starts one call of [doRpcMethod] per entry and
    collects the promises. *)
Fixpoint startAll (payload : list (option Request)) (st : St)
    : St * list (Result Envelope) :=
  match payload with
  | [] => (st, [])
  | request :: rest =>
      let '(st, promise) := doRpcMethod request st in
      let '(st, promises) := startAll rest st in
      (st, promise :: promises)
  end.

(** [Promise.all]: the values in the order of the promises, or the
    rejection of one that rejects (here the first in the list). *)
Fixpoint promiseAll {A} (promises : list (Result A)) : Result (list A) :=
  match promises with
  | [] => Ok []
  | p :: rest =>
      match p with
      | Ok a =>
          match promiseAll rest with
          | Ok l => Ok (a :: l)
          | Throw e => Throw e
          end
      | Throw e => Throw e
      end
  end.

Definition doRpcPayload (payload : Payload) (st : St) : St * Result Response :=
  match payload with
  | PArray requests =>
      if Nat.eqb (List.length requests) 0 then (st, Ok NoResponse)
      else
        let '(st, promises) := startAll requests st in
        match promiseAll promises with
        | Ok responses => (st, Ok (RBatch responses))
        | Throw e => (st, Throw e)
        end
  | PSingle request =>
      let '(st, promise) := doRpcMethod request st in
      match promise with
      | Ok response => (st, Ok (RSingle response))
      | Throw e => (st, Throw e)
      end
  end.

End WithMethods.
End Dispatcher.

(** ** Notions the statements below are phrased with *)
Module Notions.

(** [p] occurs in [s]: some text before it, some text after it. *)
Definition Contains (s p : string) : Prop :=
  exists pre post, s = pre +:+ p +:+ post.

(** [HexPairs s cs]: [s] is a sequence of pairs of hexadecimal digits
    (either case) and [cs] is the value of each pair. *)
Inductive HexPairs : string -> list N -> Prop :=
| HexPairs_nil : HexPairs EmptyString []
| HexPairs_cons (a b : ascii) (x y : Z) (r : string) (cs : list N) :
    Js.hexDigit a = Some x ->
    Js.hexDigit b = Some y ->
    HexPairs r cs ->
    HexPairs (String a (String b r)) (Z.to_N (16 * x + y) :: cs).

(** A 32-byte word of the ABI holding a number: 64 digits. *)
Definition abiWord (n : N) : string := Js.padStart0 64 (Js.hexOfN n).

(** Number of zero bytes that fill the data of a string of [len] bytes
    up to a multiple of 32. *)
Definition abiPadding (len : nat) : nat := (32 - len mod 32) mod 32.

(** The ABI encoding of [Error(msg)], as the gateway receives it: the
    selector, the offset word (32), the length word, the bytes of the
    string, zero bytes up to a multiple of 32. *)
Definition abiEncodeError (msg : string) : string :=
  ErrorDecoder.REVERT_FUNCTION_SELECTOR
    +:+ abiWord 32
    +:+ abiWord (N.of_nat (String.length msg))
    +:+ Bloom.bufferToHex (Js.codeUnits msg)
    +:+ Js.zeros (2 * abiPadding (String.length msg)).

(** The same head followed by the bytes of the string and nothing
    else. *)
Definition unpaddedEncodeError (msg : string) : string :=
  ErrorDecoder.REVERT_FUNCTION_SELECTOR
    +:+ abiWord 32
    +:+ abiWord (N.of_nat (String.length msg))
    +:+ Bloom.bufferToHex (Js.codeUnits msg).

(** The topic rule as the specification words it: after
    normalisation the filter topic occurs in the log topic, or the two
    are equal. *)
Definition specTopicMatch (filterTopic logTopic : string) : bool :=
  let f := Utils.normalizeHex true filterTopic in
  let l := Utils.normalizeHex true logTopic in
  Js.includes l f || String.eqb l f.

(** The text that [hasTopics] looks for at position [i]: the
    normalised topic of the log, or the text of [undefined] when the
    log has no topic there. *)
Definition logTopicText (topics : list string) (i : nat) : string :=
  match topics !! i with
  | Some lt => Utils.normalizeHex true lt
  | None => "undefined"
  end.

(** A receipt carries a bloom when its [logsBloom] is set. *)
Definition carriesBloom (d : ReceiptDoc) : bool :=
  Js.truthy (r_logsBloom (d_raw d)).

(** Byte [i] of the bloom of a receipt; 0 past the end of what the
    receipt holds. *)
Definition bloomByte (i : nat) (d : ReceiptDoc) : N :=
  default 0%N (Bloom.bufferFromHex (default "" (r_logsBloom (d_raw d))) !! i).

(** The bitwise OR of a list of bytes. *)
Definition orAll (l : list N) : N := fold_right N.lor 0%N l.

(** What one iteration of the reconstruction loop does to the gas
    counter and to the bloom. *)
Definition gasStep (g : Z) (d : ReceiptDoc) : Z :=
  Z.max g (r_gasusedblock (d_raw d)).

Definition bloomStep (b : Bloom.t) (d : ReceiptDoc) : Bloom.t :=
  if carriesBloom d
  then Bloom.or b (Bloom.new (Some (Bloom.bufferFromHex (default "" (r_logsBloom (d_raw d))))))
  else b.

(** Order of the hits, and of the logs taken from them, by the global
    sequence number of the document. *)
Definition bySequence (a b : ReceiptDoc) : Prop :=
  d_global_sequence a <= d_global_sequence b.

Definition sourceBySequence (a b : ReceiptDoc * Log) : Prop :=
  d_global_sequence a.1 <= d_global_sequence b.1.

(** The search backend honours an ascending sort on the global
    sequence number. *)
Definition HonoursSequenceSort (env : Env) : Prop :=
  forall (q : Query) (hits : list ReceiptDoc),
    q_sort q = Some ("global_sequence", Asc) ->
    searchActions env q = Ok hits ->
    StronglySorted bySequence hits.

(** The index of result [i] relative to its block: how many earlier
    results are of the same block. *)
Definition blockRelativeIndex (results : list Utils.EthLog) (i : nat) : Z :=
  match results !! i with
  | Some e =>
      Z.of_nat (List.length
        (List.filter (fun e' => String.eqb (Utils.blockHash e') (Utils.blockHash e))
                     (take i results)))
  | None => 0
  end.

(** The document and the log behind an element of [results]. *)
Definition pair (doc : ReceiptDoc) (log : Log) : ReceiptDoc * Log := (doc, log).

(** [log] is a log of [doc] that the processing loop pushes: it passes
    the block test and the filter match. *)
Definition Selected (f : GetLogs.Filter) (doc : ReceiptDoc) (log : Log) : Prop :=
  (exists logs, r_logs (d_raw doc) = Some logs /\ log ∈ logs) /\
  GetLogs.skipByBlock f doc = false /\
  Utils.logFilterMatch log (GetLogs.f_addressFilter f) (GetLogs.f_topicsFilter f) = true.

(** What is pushed to [results] for a document and a log. *)
Definition emitLog (env : Env) (s : ReceiptDoc * Log) : Utils.EthLog :=
  Utils.makeLogObject env s.1 s.2 false.

(** The promise that [doRpcMethod] returns for a request, or for
    [null]. *)
Definition envelopeOf (methods : gmap string Dispatcher.Handler)
    (request : option Dispatcher.Request) : Result Dispatcher.Envelope :=
  (Dispatcher.doRpcMethod methods request (Dispatcher.mkSt None [])).2.

(** The version field is taken as "2.0": it is absent or falsy, or it
    is "2.0". *)
Definition versionAccepted (request : Dispatcher.Request) : Prop :=
  Dispatcher.jsonTruthy (Dispatcher.jsonrpc request) = false
  \/ Dispatcher.jsonrpc request = Some (JsString "2.0").

(** The method of the request is not in the registry. *)
Definition methodUnknown (methods : gmap string Dispatcher.Handler)
    (request : Dispatcher.Request) : Prop :=
  forall m, Dispatcher.method request = Some m -> methods !! m = None.

(** The eight panic codes of the table. *)
Definition panicCodes : list string :=
  ["01"; "11"; "12"; "21"; "31"; "32"; "41"; "51"].

(** The six opcodes of the table. *)
Definition knownOpcodes : list string :=
  ["f0"; "f1"; "f4"; "f5"; "fa"; "ff"].

End Notions.

(** ** Sample documents and collaborators *)
Module Samples.

Definition transferTopic : string :=
  "ddf252ad1be2c89b69c2b068fc378daa952ba7f163c4a11628f55a4df523b3ef".

Definition log1 : Log :=
  mkLog "9f510b19f1ad66f0dcf6e45559fab0d6752c1db7" "01"
        [transferTopic] None.

Definition log2 : Log :=
  mkLog "b1f8e55c7f64d203c1400b9d8555d050f94adf39" "02"
        [transferTopic] None.

Definition callItx : InternalCall :=
  mkItx "f1" (Some "9f510b19f1ad66f0dcf6e45559fab0d6752c1db7")
        (Some "b1f8e55c7f64d203c1400b9d8555d050f94adf39")
        "5208" "5208" "" "" "0" 0 [0] "call".

(** An internal call whose opcode is not in the table of [toOpname]. *)
Definition oddItx : InternalCall :=
  mkItx "00" (Some "9f510b19f1ad66f0dcf6e45559fab0d6752c1db7")
        (Some "b1f8e55c7f64d203c1400b9d8555d050f94adf39")
        "5208" "5208" "" "" "0" 0 [0] "call".

Definition receipt (hash : string) (block index gasusedblock : Z)
    (bloom : option string) (logs : list Log) (itxs : list InternalCall) : Receipt :=
  {| r_hash := hash;
     r_from := Some "0x9f510b19f1ad66f0dcf6e45559fab0d6752c1db7";
     r_to := Some "0xb1f8e55c7f64d203c1400b9d8555d050f94adf39";
     r_value := "0"; r_nonce := 1; r_gas_limit := 100000;
     r_gasused := 21000; r_gasusedblock := gasusedblock;
     r_charged_gas_price := 500;
     r_input_data := "0x"; r_output := "";
     r_logsBloom := bloom; r_logs := Some logs; r_itxs := itxs;
     r_errors := None;
     r_block := block; r_block_hash := "aa" +:+ Js.toString16 block;
     r_trx_index := index;
     r_v := Some "1b"; r_r := Some "01"; r_s := Some "02" |}.

Definition doc (r : Receipt) (seq : Z) : ReceiptDoc :=
  mkDoc r "2021-11-02T10:00:00.000" None "trx" seq.

(** Two transactions of block 7; only the first carries a bloom. *)
Definition docA : ReceiptDoc :=
  doc (receipt "0xa1" 7 0 21000 (Some "0102") [log1] [callItx]) 100.
Definition docB : ReceiptDoc :=
  doc (receipt "0xb2" 7 1 50000 None [log2] [oddItx]) 101.

(** A transaction of block 8. *)
Definition docC : ReceiptDoc :=
  doc (receipt "0xc3" 8 0 30000 None [log1] []) 102.

Definition env (hits : list ReceiptDoc) : Env :=
  {| keccak256Hex := fun _ => Js.zeros 64;
     bnToString16 := fun _ => "0";
     jsNumber := fun _ => Some 0;
     dateSeconds := fun _ => 1635847200;
     searchActions := fun _ => Ok hits;
     currentIndexedBlock := Ok "0x10";
     getSignature := fun _ => None;
     signatureFromString := fun _ => Ok ("1b", "01", "02") |}.

(** A ledger assertion failure (code 3050003) whose [details] list is
    empty, as a node that does not report details sends it. *)
Definition assertionWithoutDetails : Exn :=
  mkExn false None None None (Some "Internal Service Error")
        (Some (mkLedgerError 3050003 (Some []))).

(** A registry with a method that answers and one whose ledger call
    fails with [assertionWithoutDetails]. *)
Definition methods : gmap string Dispatcher.Handler :=
  <["eth_chainId" := fun _ => Ok (JsString "0x28")]>
    (<["eth_getTransactionCount" := fun _ => Throw assertionWithoutDetails]> ∅).

Definition request (id : Z) (method : string) : Dispatcher.Request :=
  Dispatcher.mkRequest (Some (JsString "2.0")) (Some (JsNumber id)) (Some method) None.

Definition st0 : Dispatcher.St := Dispatcher.mkSt (Some 200) [].

End Samples.

(** ** The remaining utilities *)
Module Padding.
Import Js.

(** [s.replace(/^(0)*/, '')] and [s.replace(/^0+/, '')]: all leading
    zeros go. *)
Fixpoint stripZeros (s : string) : string :=
  match s with
  | String "0" r => stripZeros r
  | _ => s
  end.

Definition leftPadZerosEvenBytes (value : string) : string :=
  let removed := strip0x value in
  if Nat.eqb (String.length removed mod 2) 0 then "0x" +:+ removed
  else "0x0" +:+ removed.

Definition leftPadZerosToWidth (value : string) (width : nat) : string :=
  let removed := strip0x value in
  "0x" +:+ padStart0 width removed.

Definition removeLeftZeros (value : string) (zeroXPrefix : bool) : string :=
  let removed := stripZeros (strip0x value) in
  let removed := if String.eqb removed "" then "0" else removed in
  if zeroXPrefix then "0x" +:+ removed else removed.

End Padding.

(** ** The logs of a transaction receipt *)
Module ReceiptLogs.
Import Js Utils.

Section WithEnv.
Variable env : Env.

(** The loop of [buildLogsObject]: [_logs.push({...}); counter++]. *)
Fixpoint buildLogsLoop (_logs : list EthLog) (counter : Z) (logs : list Log)
    (blHash blNumber txHash txIndex : string) : list EthLog :=
  match logs with
  | [] => _logs
  | log :: rest =>
      buildLogsLoop
        (_logs ++ [{| address := toChecksumAddress env (Some (log_address log));
                      blockHash := blHash;
                      blockNumber := blNumber;
                      data := "0x" +:+ log_data log;
                      logIndex := numToHex env (JNum counter);
                      removed := Some false;
                      topics := map (fun t => "0x" +:+ padStart0 64 t) (log_topics log);
                      transactionHash := txHash;
                      transactionIndex := txIndex |}])
        (counter + 1) rest blHash blNumber txHash txIndex
  end.

(** [buildLogsObject(logs, blHash, blNumber, txHash, txIndex)]; [logs]
    may be missing. *)
Definition buildLogsObject (logs : option (list Log))
    (blHash blNumber txHash txIndex : string) : list EthLog :=
  match logs with
  | Some logs => buildLogsLoop [] 0 logs blHash blNumber txHash txIndex
  | None => []
  end.

End WithEnv.
End ReceiptLogs.

(** ** Block handlers and the empty-block fallback *)
Module Blocks.
Import Js Utils Reconstruction.

(** The [_source] of a hit on the delta index, with the fields the
    route file reads. *)
Record BlockDelta := mkDelta {
  bd_timestamp : string;
  bd_evmBlockHash : string;
  bd_block_num : Z
}.

(** The searches that are not part of [Env]: each is
    [fastify.elastic.search] with the one term the caller builds, read
    as [hits[0]?._source]. *)
Record Backend := mkBackend {
  (** delta index, term [@global.block_num] *)
  deltaByBlockNum : option Z -> Result (option BlockDelta);
  (** delta index, term [@evmBlockHash] *)
  deltaByEvmBlockHash : string -> Result (option BlockDelta);
  (** action index, term [@raw.hash] *)
  actionByRawHash : string -> Result (option ReceiptDoc)
}.

(** A result lifted into [Eff]: no call is recorded. *)
Definition liftResult {A} (r : Result A) : Eff A := mkEff [] r.

Section WithEnv.
Variable env : Env.
Variable backend : Backend.

(** [new Bloom().bitvector.toString("hex")] with its prefix. *)
Definition emptyLogsBloom : string :=
  "0x" +:+ Bloom.bufferToHex (Bloom.bitvector (Bloom.new None)).

(** [emptyBlockFromNumber(blockNumber)]; [None] in is [NaN], [None] out
    is [null] (the [catch] branch). *)
Definition emptyBlockFromNumber (blockNumber : option Z) : option Block :=
  match deltaByBlockNum backend blockNumber with
  | Throw _ => None
  | Ok blockDelta =>
      let blockNumberHex := "0x" +:+ numToString16 blockNumber in
      let '(timestamp, blockHash) :=
        match blockDelta with
        | Some d => (dateSeconds env (bd_timestamp d), "0x" +:+ bd_evmBlockHash d)
        | None => (0, blockHexToHash env blockNumberHex true)
        end in
      Some {| gasUsed := "0x0";
              parentHash := getParentBlockHash env (Some blockNumberHex);
              hash := Some blockHash;
              logsBloom := emptyLogsBloom;
              number := Some blockNumberHex;
              timestamp := "0x" +:+ toString16 timestamp;
              transactions := [] |}
  end.

Definition emptyBlockFromHash (blockHash : string) : option Block :=
  match deltaByEvmBlockHash backend blockHash with
  | Throw _ => None
  | Ok None => None
  | Ok (Some d) =>
      let timestamp := dateSeconds env (bd_timestamp d) in
      let blockNumberHex := "0x" +:+ toString16 (bd_block_num d) in
      Some {| gasUsed := "0x0";
              parentHash := getParentBlockHash env (Some blockNumberHex);
              hash := Some ("0x" +:+ bd_evmBlockHash d);
              logsBloom := emptyLogsBloom;
              number := Some blockNumberHex;
              timestamp := "0x" +:+ toString16 timestamp;
              transactions := [] |}
  end.

(** [receipts.length > 0 ? await reconstructBlockFromReceipts(receipts, full) : ...] *)
Definition blockOrEmpty (receipts : list ReceiptDoc) (full : bool)
    (empty : option Block) : Eff (option Block) :=
  if (0 <? List.length receipts)%nat then
    liftResult (match reconstructBlockFromReceipts env receipts full with
                | Ok b => Ok (Some b)
                | Throw e => Throw e
                end)
  else mret empty.

(** The block handlers.  Their log of calls holds the search of
    [getReceiptsByTerm] and the read of the current block only: the
    search on the delta index of the empty block and the signature
    searches of the reconstruction are not logged. *)
Definition eth_getBlockByNumber (block : option string) (full : bool)
    : Eff (option Block) :=
  blockParam ← Aux.toBlockNumber env block;
  let blockNumber := parseInt16 (default "undefined" blockParam) in
  receipts ← Aux.getReceiptsByTerm env "@raw.block" (TvNum blockNumber);
  blockOrEmpty receipts full (emptyBlockFromNumber blockNumber).

Definition eth_getBlockByHash (hash : string) (full : bool) : Eff (option Block) :=
  let _hash := GetLogs.slice0x (toLowerCase hash) in
  receipts ← Aux.getReceiptsByTerm env "@raw.block_hash" (TvStr _hash);
  blockOrEmpty receipts full (emptyBlockFromHash _hash).

Definition eth_getBlockTransactionCountByHash (hash : string) : Eff string :=
  let _hash := GetLogs.slice0x (toLowerCase hash) in
  receipts ← Aux.getReceiptsByTerm env "@raw.block_hash" (TvStr _hash);
  mret ("0x" +:+ toString16 (Z.of_nat (List.length receipts))).

Definition eth_getBlockTransactionCountByNumber (block : option string) : Eff string :=
  let blockNumber := parseInt16 (default "undefined" block) in
  receipts ← Aux.getReceiptsByTerm env "@raw.block" (TvNum blockNumber);
  mret ("0x" +:+ toString16 (Z.of_nat (List.length receipts))).

(** [searchActionByHash(trxHash)]: [null] when the search throws (and
    when [trxHash] is missing, the [TypeError] being caught too). *)
Definition searchActionByHash (trxHash : option string) : option ReceiptDoc :=
  match trxHash with
  | None => None
  | Some h =>
      let _hash := GetLogs.slice0x (toLowerCase h) in
      match actionByRawHash backend ("0x" +:+ _hash) with
      | Ok r => r
      | Throw _ => None
      end
  end.

Definition eth_getTransactionByHash (trxHash : option string) : Result (option FullTx) :=
  match searchActionByHash trxHash with
  | None => mret None
  | Some receiptAction =>
      vrs ← getVRS env receiptAction;
      let receipt := d_raw receiptAction in
      let _blockHash := "0x" +:+ r_block_hash receipt in
      let _blockNum := numToHex env (JNum (r_block receipt)) in
      mret (Some {|
        tx_blockHash := Some _blockHash;
        tx_blockNumber := Some _blockNum;
        tx_from := toChecksumAddress env (r_from receipt);
        tx_gas := numToHex env (JNum (r_gas_limit receipt));
        tx_gasPrice := numToHex env (JNum (r_charged_gas_price receipt));
        tx_hash := r_hash receipt;
        tx_input := r_input_data receipt;
        tx_nonce := numToHex env (JNum (r_nonce receipt));
        tx_to := toChecksumAddress env (r_to receipt);
        tx_transactionIndex := numToHex env (JNum (r_trx_index receipt));
        tx_value := numToHex env (JStr (r_value receipt));
        tx_vrs := vrs |})
  end.

End WithEnv.
End Blocks.

(** ** The trace handlers *)
Module TraceHandlers.
Import Js Utils Traces Blocks.

(** The query of [trace_filter]; its [size] is the [count] of the
    group, which may be missing. *)
Record ItxQuery := mkItxQuery {
  iq_size : option Z;
  iq_must : list Clause;
  iq_sort : option (string * SortOrder)
}.

(** One group of the parameter of [trace_filter]. *)
Record FilterGroup := mkGroup {
  g_fromAddress : option (list string);
  g_toAddress : option (list string);
  g_fromBlock : option string;
  g_toBlock : option string;
  g_after : option Z;
  g_count : option Z
}.

Section WithEnv.
Variable env : Env.
Variable backend : Backend.
(** [fastify.elastic.search] as [trace_filter] calls it. *)
Variable searchItxs : ItxQuery -> Result (list ReceiptDoc).

(** [getTracesForTrx(trxHash, adHoc)]; a receipt of the model always
    has its [itxs], so the test on them succeeds. *)
Definition getTracesForTrx (trxHash : option string) (adHoc : bool)
    : option TracesResult :=
  if truthy trxHash then
    match searchActionByHash backend trxHash with
    | None => None
    | Some receiptAction => Some (makeTraces env (d_raw receiptAction) adHoc)
    end
  else None.

Definition trace_transaction (trxHash : option string) : option TracesResult :=
  getTracesForTrx trxHash false.

(** The tail of the two error messages about trace types; the word
    trace is between double quotes in it. *)
Definition onlyTraceMessage : string :=
  let quote := String (ascii_of_nat 34) EmptyString in
  " only supports the " +:+ quote +:+ "trace" +:+ quote
    +:+ " type of trace (not vmTrace or stateDiff".

(** [traceTypes.length !== 1 || traceTypes[0] !== 'trace'] *)
Definition notOnlyTrace (traceTypes : list string) : bool :=
  negb (Nat.eqb (List.length traceTypes) 1)
  || negb (bool_decide (traceTypes !! 0%nat = Some "trace")).

Definition trace_replayTransaction (trxHash : option string) (traceTypes : list string)
    : Result (option TracesResult) :=
  if notOnlyTrace traceTypes then
    Throw (newError ("trace_replayTransaction" +:+ onlyTraceMessage))
  else mret (getTracesForTrx trxHash true).

(** The loop of [trace_replayBlockTransactions]: what [makeTraces]
    returns, with the [transactionHash] set on it. *)
Fixpoint replayLoop (transactions : list (TracesResult * string))
    (sortedReceipts : list Receipt) : list (TracesResult * string) :=
  match sortedReceipts with
  | [] => transactions
  | receipt :: rest =>
      let trx := makeTraces env receipt true in
      replayLoop (transactions ++ [(trx, r_hash receipt)]) rest
  end.

Definition trace_replayBlockTransactions (block : option string)
    (traceTypes : list string) : Eff (list (TracesResult * string)) :=
  if notOnlyTrace traceTypes then
    throw (newError ("trace_replayBlockTransactions" +:+ onlyTraceMessage))
  else
    blockParam ← Aux.toBlockNumber env block;
    let blockNumber := parseInt16 (default "undefined" blockParam) in
    receiptHits ← Aux.getReceiptsByTerm env "@raw.block" (TvNum blockNumber);
    let receipts := map d_raw receiptHits in
    let sortedReceipts := sortByIndex receipts in
    mret (replayLoop [] sortedReceipts).

(** The address normalisation of [trace_filter]:
    [toChecksumAddress(addr).slice(2).replace(/^0+/, '').toLowerCase()]. *)
Definition normalizeTraceAddress (addr : string) : string :=
  toLowerCase (Padding.stripZeros (drop 2 (default "" (toChecksumAddress env (Some addr))))).

(** The object that [trace_filter] pushes for an internal call. *)
Definition filterTrace (doc : ReceiptDoc) (itx : InternalCall) : Trace :=
  {| action := {| callType := toOpname (itx_callType itx);
                  from := toChecksumAddress env (itx_from itx);
                  gas := "0x" +:+ itx_gas itx;
                  input := "0x" +:+ itx_input itx;
                  to := toChecksumAddress env (itx_to itx);
                  value := "0x" +:+ itx_value itx |};
     result := {| gasUsed := "0x" +:+ itx_gasUsed itx;
                  output := "0x" +:+ itx_output itx |};
     subtraces := itx_subtraces itx;
     traceAddress := itx_traceAddress itx;
     type := itx_type itx;
     error := None;
     blockHash := Some ("0x" +:+ r_block_hash (d_raw doc));
     blockNumber := Some (r_block (d_raw doc));
     transactionHash := Some ("0x" +:+ r_hash (d_raw doc));
     transactionPosition := Some (r_trx_index (d_raw doc)) |}.

(** The query of one group. *)
Definition groupQuery (fromBlock toBlock : option Z)
    (fromAddress toAddress : option (list string)) (count : option Z) : ItxQuery :=
  let range :=
    if GetLogs.numTruthy fromBlock || GetLogs.numTruthy toBlock then
      [Range "@raw.block"
         (if GetLogs.numTruthy fromBlock then fromBlock else None)
         (if GetLogs.numTruthy toBlock then toBlock else None)]
    else [] in
  let matchFrom :=
    match fromAddress with
    | Some l => [Terms "@raw.itxs.from" l]
    | None => []
    end in
  let matchTo :=
    match toAddress with
    | Some l => [Terms "@raw.itxs.to" l]
    | None => []
    end in
  {| iq_size := count;
     iq_must := [Exists "@raw.itxs"] ++ range ++ matchFrom ++ matchTo;
     iq_sort := Some ("@raw.trx_index", Asc) |}.

(** The processing loops of one group: every internal call of every hit
    is pushed. *)
Definition pushHits (results : list Trace) (hits : list ReceiptDoc) : list Trace :=
  fold_left (fun results doc =>
               fold_left (fun results itx => results ++ [filterTrace doc itx])
                         (r_itxs (d_raw doc)) results)
            hits results.

(** The loop over the groups; a search that throws ends the handler
    with [return []] from its [catch] block. *)
Fixpoint filterGroups (results : list Trace) (params : list FilterGroup)
    : Eff (list Trace) :=
  match params with
  | [] => mret results
  | param_obj :: rest =>
      fromBlockParam ← Aux.toBlockNumber env (g_fromBlock param_obj);
      let fromBlock := parseInt16 (default "undefined" fromBlockParam) in
      toBlockParam ← Aux.toBlockNumber env (g_toBlock param_obj);
      let toBlock := parseInt16 (default "undefined" toBlockParam) in
      let fromAddress := map normalizeTraceAddress <$> g_fromAddress param_obj in
      let toAddress := map normalizeTraceAddress <$> g_toAddress param_obj in
      match searchItxs (groupQuery fromBlock toBlock fromAddress toAddress
                                   (g_count param_obj)) with
      | Ok hits => filterGroups (pushHits results hits) rest
      | Throw _ => mret []
      end
  end.

Definition trace_filter (params : list FilterGroup) : Eff (list Trace) :=
  filterGroups [] params.

End WithEnv.
End TraceHandlers.

(** ** More notions for the statements *)
Module MoreNotions.

(** Every character is a hexadecimal digit. *)
Fixpoint allHex (s : string) : bool :=
  match s with
  | EmptyString => true
  | String c r => match Js.hexDigit c with
                  | Some _ => allHex r
                  | None => false
                  end
  end.

(** Every code unit is below 128. *)
Definition isAsciiChar (c : ascii) : bool := Nat.ltb (nat_of_ascii c) 128.

Fixpoint isAscii (s : string) : bool :=
  match s with
  | EmptyString => true
  | String c r => isAsciiChar c && isAscii r
  end.

(** Every character is a lower-case image: [toLowerCase] leaves the
    string as it is. *)
Definition isLower (s : string) : Prop := Js.toLowerCase s = s.

(** The four linkage fields of a trace, erased. *)
Definition eraseLinkage (t : Traces.Trace) : Traces.Trace :=
  {| Traces.action := Traces.action t; Traces.result := Traces.result t;
     Traces.subtraces := Traces.subtraces t;
     Traces.traceAddress := Traces.traceAddress t;
     Traces.type := Traces.type t; Traces.error := Traces.error t;
     Traces.blockHash := None; Traces.blockNumber := None;
     Traces.transactionHash := None; Traces.transactionPosition := None |}.

(** The traces inside what [makeTraces] returns. *)
Definition tracesOf (r : Traces.TracesResult) : list Traces.Trace :=
  match r with
  | Traces.TraceList l => l
  | Traces.TraceEnvelope e => Traces.ah_trace e
  end.

(** The [id] and the version of an envelope. *)
Definition envelopeId (e : Dispatcher.Envelope) : option Json :=
  match e with
  | Dispatcher.Success i _ _ => i
  | Dispatcher.Failure i _ _ => i
  end.

Definition envelopeVersion (e : Dispatcher.Envelope) : string :=
  match e with
  | Dispatcher.Success _ v _ => v
  | Dispatcher.Failure _ v _ => v
  end.

(** An exception that the [catch] block of [doRpcMethod] turns into an
    envelope: a [TransactionError], or an error that is not a ledger
    assertion failure, or an assertion failure whose first detail has a
    message. *)
Definition Catchable (e : Exn) : Prop :=
  ex_isTransactionError e = true
  \/ (forall le, ex_json_error e = Some le -> le_code le <> 3050003)
  \/ (exists le details message,
        ex_json_error e = Some le /\ le_details le = Some details /\
        details !! 0%nat = Some (Some message)).

(** Every exception a registered method can throw is [Catchable]. *)
Definition SafeRegistry (methods : gmap string Dispatcher.Handler) : Prop :=
  forall m h params e,
    methods !! m = Some h -> h params = Throw e -> Catchable e.

(** The address that [toChecksumAddress] hashes: lower case, without
    its first [0x], padded with zeros to 40 characters. *)
Definition paddedAddress (a : string) : string :=
  let a1 := Js.removeFirst0x (Js.toLowerCase a) in
  if Nat.eqb (String.length a1) 40 then a1 else Js.padStart0 40 a1.

(** A group of [trace_filter] whose block bounds are not tags, so that
    no call is needed to resolve them. *)
Definition isTag (p : option string) : bool :=
  bool_decide (p = Some "latest") || bool_decide (p = Some "pending")
  || bool_decide (p = Some "earliest").

Definition PlainGroup (g : TraceHandlers.FilterGroup) : Prop :=
  isTag (TraceHandlers.g_fromBlock g) = false
  /\ isTag (TraceHandlers.g_toBlock g) = false.

(** The query that [trace_filter] sends for a plain group. *)
Definition plainQuery (env : Env) (g : TraceHandlers.FilterGroup)
    : TraceHandlers.ItxQuery :=
  TraceHandlers.groupQuery
    (Js.parseInt16 (default "undefined" (TraceHandlers.g_fromBlock g)))
    (Js.parseInt16 (default "undefined" (TraceHandlers.g_toBlock g)))
    (map (TraceHandlers.normalizeTraceAddress env) <$> TraceHandlers.g_fromAddress g)
    (map (TraceHandlers.normalizeTraceAddress env) <$> TraceHandlers.g_toAddress g)
    (TraceHandlers.g_count g).

(** The traces of the internal calls of a list of hits, hit by hit. *)
Definition tracesOfHits (env : Env) (hits : list ReceiptDoc) : list Traces.Trace :=
  flat_map (fun doc => map (TraceHandlers.filterTrace env doc) (r_itxs (d_raw doc))) hits.

(** The hits of a plain group; none when its search throws. *)
Definition hitsOf (env : Env)
    (searchItxs : TraceHandlers.ItxQuery -> Result (list ReceiptDoc))
    (g : TraceHandlers.FilterGroup) : list ReceiptDoc :=
  match searchItxs (plainQuery env g) with
  | Ok hits => hits
  | Throw _ => []
  end.

(** A group with its [after] replaced. *)
Definition withAfter (a : option Z) (g : TraceHandlers.FilterGroup)
    : TraceHandlers.FilterGroup :=
  TraceHandlers.mkGroup (TraceHandlers.g_fromAddress g) (TraceHandlers.g_toAddress g)
    (TraceHandlers.g_fromBlock g) (TraceHandlers.g_toBlock g) a
    (TraceHandlers.g_count g).

(** A trace with its transaction hash replaced. *)
Definition withTransactionHash (h : option string) (t : Traces.Trace) : Traces.Trace :=
  {| Traces.action := Traces.action t; Traces.result := Traces.result t;
     Traces.subtraces := Traces.subtraces t;
     Traces.traceAddress := Traces.traceAddress t;
     Traces.type := Traces.type t; Traces.error := Traces.error t;
     Traces.blockHash := Traces.blockHash t;
     Traces.blockNumber := Traces.blockNumber t;
     Traces.transactionHash := h;
     Traces.transactionPosition := Traces.transactionPosition t |}.

(** Order of receipts by position in the block. *)
Definition byIndex (a b : Receipt) : Prop := r_trx_index a <= r_trx_index b.

(** The fields of a transaction object that [eth_getTransactionByHash]
    and the full mode of [reconstructBlockFromReceipts] take from the
    receipt in the same way, for a given block hash and block number. *)
Definition TxOfReceipt (env : Env) (blockHash blockNumber : option string)
    (d : ReceiptDoc) (tx : Reconstruction.FullTx) : Prop :=
  Reconstruction.getVRS env d = Ok (Reconstruction.tx_vrs tx)
  /\ Reconstruction.tx_blockHash tx = blockHash
  /\ Reconstruction.tx_blockNumber tx = blockNumber
  /\ Reconstruction.tx_from tx = Utils.toChecksumAddress env (r_from (d_raw d))
  /\ Reconstruction.tx_to tx = Utils.toChecksumAddress env (r_to (d_raw d))
  /\ Reconstruction.tx_hash tx = r_hash (d_raw d)
  /\ Reconstruction.tx_input tx = r_input_data (d_raw d)
  /\ Reconstruction.tx_gasPrice tx
     = "0x" +:+ Js.toString16 (r_charged_gas_price (d_raw d))
  /\ Reconstruction.tx_nonce tx = "0x" +:+ Js.toString16 (r_nonce (d_raw d))
  /\ Reconstruction.tx_transactionIndex tx
     = "0x" +:+ Js.toString16 (r_trx_index (d_raw d)).

(** An entry of the transactions of a full block, for the receipt it
    was built from: the shared fields, the gas used as [gas], and the
    value read with [Number]. *)
Definition BlockTxOf (env : Env) (blockHash blockNumber : option string)
    (d : ReceiptDoc) (t : Reconstruction.Tx) : Prop :=
  exists tx,
    t = Reconstruction.TxFull tx
    /\ TxOfReceipt env blockHash blockNumber d tx
    /\ Reconstruction.tx_gas tx = "0x" +:+ Js.toString16 (r_gasused (d_raw d))
    /\ Reconstruction.tx_value tx
       = "0x" +:+ Js.numToString16 (jsNumber env (r_value (d_raw d))).

End MoreNotions.

(** ** More samples *)
Module MoreSamples.

(** A backend whose delta index holds block 9 only and whose action
    index answers every hash with the first sample document. *)
Definition backend : Blocks.Backend :=
  {| Blocks.deltaByBlockNum := fun n =>
       if bool_decide (n = Some 9)
       then Ok (Some (Blocks.mkDelta "2021-11-02T10:00:00.000" "beef" 9))
       else Ok None;
     Blocks.deltaByEvmBlockHash := fun _ => Ok None;
     Blocks.actionByRawHash := fun _ => Ok (Some Samples.docA) |}.

(** A registry whose methods answer or throw a [TransactionError]. *)
Definition revertError : Exn :=
  mkExn true None (Some "execution reverted: no output") (Some (JsString "0x")) None None.

Definition safeMethods : gmap string Dispatcher.Handler :=
  <["eth_chainId" := fun _ => Ok (JsString "0x28")]>
    (<["eth_call" := fun _ => Throw revertError]> ∅).

(** Collaborators whose search on the action index always throws. *)
Definition searchDown : Env :=
  {| keccak256Hex := fun _ => Js.zeros 64;
     bnToString16 := fun _ => "0";
     jsNumber := fun _ => Some 0;
     dateSeconds := fun _ => 1635847200;
     searchActions := fun _ => Throw (newError "search_phase_execution_exception");
     currentIndexedBlock := Ok "0x10";
     getSignature := fun _ => None;
     signatureFromString := fun _ => Ok ("1b", "01", "02") |}.

(** An internal-call search that answers a query of size 1 with a
    failure and any other query with the two sample documents. *)
Definition searchItxs (q : TraceHandlers.ItxQuery) : Result (list ReceiptDoc) :=
  if bool_decide (TraceHandlers.iq_size q = Some 1)
  then Throw (newError "search_phase_execution_exception")
  else Ok [Samples.docA; Samples.docB].

Definition group (count : Z) : TraceHandlers.FilterGroup :=
  TraceHandlers.mkGroup None None (Some "0x1") (Some "0x10") (Some 1000) (Some count).

End MoreSamples.

(** * Properties *)

(** ** Strings *)
Section StringFacts.
Import Js.

Lemma append_nil (b : string) : "" +:+ b = b.
Proof. reflexivity. Qed.

Lemma append_cons (c : ascii) (a b : string) :
  String c a +:+ b = String c (a +:+ b).
Proof. reflexivity. Qed.

Lemma length_append (a b : string) :
  String.length (a +:+ b) = (String.length a + String.length b)%nat.
Proof.
  induction a as [|c a IH]; [reflexivity|].
  rewrite append_cons. simpl. now rewrite IH.
Qed.

Lemma append_nil_r (a : string) : a +:+ "" = a.
Proof.
  induction a as [|c a IH]; [reflexivity|].
  rewrite append_cons. now rewrite IH.
Qed.

Lemma append_assoc (a b c : string) : (a +:+ b) +:+ c = a +:+ (b +:+ c).
Proof.
  induction a as [|x a IH]; [reflexivity|].
  rewrite !append_cons. now rewrite IH.
Qed.

Lemma drop_app (a b : string) : drop (String.length a) (a +:+ b) = b.
Proof.
  induction a as [|c a IH]; [now destruct b|].
  rewrite append_cons. simpl. exact IH.
Qed.

Lemma drop_all (n : nat) (s : string) :
  (String.length s <= n)%nat -> drop n s = "".
Proof.
  revert n; induction s as [|c s IH]; intros [|n] H; simpl in *;
    try reflexivity; try lia.
  apply IH; lia.
Qed.

Lemma slice_last_app (p l : string) (n : nat) :
  String.length l = n -> slice_last n (p +:+ l) = l.
Proof.
  intros H. unfold slice_last. rewrite length_append, H.
  replace (String.length p + n - n)%nat with (String.length p) by lia.
  apply drop_app.
Qed.

Lemma slice_last_short (s : string) (n : nat) :
  (String.length s <= n)%nat -> slice_last n s = s.
Proof.
  intros H. unfold slice_last.
  replace (String.length s - n)%nat with 0%nat by lia. now destruct s.
Qed.

Lemma startsWith_spec (p s : string) :
  startsWith p s = true <-> exists post, s = p +:+ post.
Proof.
  revert s; induction p as [|a p IH]; intros s; simpl.
  - split; [intros _; now exists s | reflexivity].
  - destruct s as [|b s].
    + split; [discriminate | intros [post H]; discriminate].
    + destruct (Ascii.eqb_spec a b) as [->|Hne].
      * rewrite IH. split; intros [post H]; exists post.
        -- rewrite append_cons. now rewrite H.
        -- rewrite append_cons in H. now inversion H.
      * split; [discriminate |].
        intros [post H]. rewrite append_cons in H. congruence.
Qed.

Lemma includes_spec (s p : string) :
  includes s p = true <-> Notions.Contains s p.
Proof.
  unfold Notions.Contains. induction s as [|c s IH]; simpl.
  - rewrite orb_false_r, startsWith_spec. split.
    + intros [post H]. now exists ""%string, post.
    + intros [[|c pre] [post H]]; [now exists post |].
      rewrite append_cons in H. discriminate.
  - rewrite orb_true_iff, startsWith_spec, IH. split.
    + intros [[post H] | (pre & post & H)].
      * now exists ""%string, post.
      * exists (String c pre), post. rewrite append_cons. now rewrite H.
    + intros [[|c' pre] [post H]].
      * left. now exists post.
      * right. rewrite append_cons in H. inversion H. now exists pre, post.
Qed.

Lemma includes_refl (s : string) : includes s s = true.
Proof.
  apply includes_spec. exists ""%string, ""%string.
  rewrite append_nil. now rewrite append_nil_r.
Qed.

End StringFacts.

(** ** The error decoder *)
Section ErrorDecoderFacts.
Import Js ErrorDecoder Notions.

(** [parseInt] on a pair of digits is the value of the pair, and the
    character built from it has that code. *)
Lemma parse_pair (a b : ascii) (x y : Z) :
  hexDigit a = Some x -> hexDigit b = Some y ->
  fromCharCode (parseInt16 (String a (String b EmptyString))) = Z.to_N (16 * x + y).
Proof.
  intros Ha Hb.
  destruct a as [[] [] [] [] [] [] [] []];
    vm_compute in Ha; try discriminate Ha;
    injection Ha as <-;
    destruct b as [[] [] [] [] [] [] [] []];
    vm_compute in Hb; try discriminate Hb;
    injection Hb as <-; reflexivity.
Qed.

Lemma revertChars_pairs (s : string) (cs : list N) :
  HexPairs s cs -> revertChars s = cs.
Proof.
  induction 1 as [|a b x y r cs Ha Hb _ IH]; [reflexivity|].
  cbn [revertChars]. rewrite (parse_pair a b x y Ha Hb). now rewrite IH.
Qed.

Lemma hexChar_digit (d : N) :
  (d < 16)%N -> hexDigit (Bloom.hexChar d) = Some (Z.of_N d).
Proof.
  intros H.
  assert (C : In d (map N.of_nat (seq 0 16))).
  { apply in_map_iff. exists (N.to_nat d). split; [lia|]. apply in_seq. lia. }
  simpl in C.
  repeat (destruct C as [<-|C]; [reflexivity|]). destruct C.
Qed.

Lemma bufferToHex_pairs (bytes : list N) :
  Forall (fun b => (b < 256)%N) bytes ->
  HexPairs (Bloom.bufferToHex bytes) bytes.
Proof.
  induction 1 as [|b bytes Hb _ IH]; [constructor|].
  cbn [Bloom.bufferToHex].
  replace b with (Z.to_N (16 * Z.of_N (b / 16) + Z.of_N (b mod 16))) at 3.
  - constructor; [| |exact IH]; apply hexChar_digit.
    + apply N.Div0.div_lt_upper_bound. lia.
    + apply N.mod_lt. lia.
  - rewrite <- (N2Z.id b) at 3. f_equal.
    rewrite (N.div_mod b 16) at 3 by lia. lia.
Qed.

Lemma bufferToHex_app (a b : list N) :
  Bloom.bufferToHex (a ++ b) = Bloom.bufferToHex a +:+ Bloom.bufferToHex b.
Proof.
  induction a as [|x a IH]; [reflexivity|].
  cbn [Bloom.bufferToHex app]. rewrite !append_cons. now rewrite IH.
Qed.

Lemma bufferToHex_zeros (n : nat) :
  Bloom.bufferToHex (replicate n 0%N) = zeros (2 * n).
Proof.
  induction n as [|n IH]; [reflexivity|].
  replace (2 * S n)%nat with (S (S (2 * n))) by lia.
  cbn [replicate Bloom.bufferToHex zeros]. now rewrite IH.
Qed.

Lemma codeUnits_bytes (s : string) :
  Forall (fun b => (b < 256)%N) (codeUnits s).
Proof.
  induction s as [|c s IH]; constructor; [apply N_ascii_bounded | exact IH].
Qed.

Lemma parseRevertReason_drop (head tail : string) :
  String.length head = 138%nat ->
  parseRevertReason (Some (head +:+ tail)) = revertChars tail.
Proof.
  intros H. unfold parseRevertReason.
  rewrite length_append, H.
  replace (138 + String.length tail <? 138)%nat with false
    by (symmetry; apply Nat.ltb_ge; lia).
  rewrite <- H. now rewrite drop_app.
Qed.

End ErrorDecoderFacts.

Section ErrorDecoderClaims.
Import Js ErrorDecoder Notions.

(** C4, the claim as stated, fails on the standard encoding: the data
    of [Error("execution failed")] is filled with sixteen zero bytes up
    to 32 bytes, and [parseRevertReason], which does not read the
    length word, turns each of them into a character of code 0. *)
Lemma C4_padded_encoding_does_not_round_trip :
  parseRevertReason (Some (abiEncodeError "execution failed"))
    <> codeUnits "execution failed".
Proof. vm_compute. discriminate. Qed.

(** C4, amended: [parseRevertReason] gives the empty string on an input
    of fewer than 138 characters (and on a missing one); on a longer
    input it drops the first 138 characters and turns each pair of
    hexadecimal digits of the rest into the character with that code.
    So a revert string that follows the 138-character head with
    nothing after it decodes to exactly that string, and the standard
    ABI encoding, whose data is filled with zero bytes up to a multiple
    of 32, decodes to the string followed by one character of code 0
    per filling byte. *)
Theorem C4_parseRevertReason_decoding :
  parseRevertReason None = [] /\
  (forall out : string,
      (String.length out < 138)%nat -> parseRevertReason (Some out) = []) /\
  (forall (head tail : string) (cs : list N),
      String.length head = 138%nat ->
      HexPairs tail cs ->
      parseRevertReason (Some (head +:+ tail)) = cs) /\
  (forall msg : string,
      String.length (abiWord (N.of_nat (String.length msg))) = 64%nat ->
      parseRevertReason (Some (unpaddedEncodeError msg)) = codeUnits msg /\
      parseRevertReason (Some (abiEncodeError msg))
        = codeUnits msg ++ replicate (abiPadding (String.length msg)) 0%N).
Proof.
  split; [reflexivity|]. split; [|split].
  - intros out H. unfold parseRevertReason.
    now replace (String.length out <? 138)%nat with true
      by (symmetry; apply Nat.ltb_lt; exact H).
  - intros head tail cs Hh Hp.
    rewrite parseRevertReason_drop by exact Hh.
    now apply revertChars_pairs.
  - intros msg Hw.
    set (head := REVERT_FUNCTION_SELECTOR +:+ abiWord 32
                   +:+ abiWord (N.of_nat (String.length msg))).
    assert (Hhead : String.length head = 138%nat).
    { unfold head. rewrite !length_append, Hw. reflexivity. }
    split.
    + replace (unpaddedEncodeError msg)
        with (head +:+ Bloom.bufferToHex (codeUnits msg))
        by (unfold unpaddedEncodeError, head; now rewrite !append_assoc).
      rewrite parseRevertReason_drop by exact Hhead.
      apply revertChars_pairs, bufferToHex_pairs, codeUnits_bytes.
    + replace (abiEncodeError msg)
        with (head +:+ Bloom.bufferToHex
                (codeUnits msg ++ replicate (abiPadding (String.length msg)) 0%N))
        by (unfold abiEncodeError, head;
            now rewrite bufferToHex_app, bufferToHex_zeros, !append_assoc).
      rewrite parseRevertReason_drop by exact Hhead.
      apply revertChars_pairs, bufferToHex_pairs.
      apply Forall_app. split; [apply codeUnits_bytes|].
      apply Forall_replicate. lia.
Qed.

Lemma C4_parseRevertReason_decoding_witness :
  parseRevertReason (Some "0x08c379a0") = [] /\
  parseRevertReason (Some (unpaddedEncodeError "execution failed"))
    = codeUnits "execution failed" /\
  parseRevertReason (Some (abiEncodeError "execution failed"))
    = codeUnits "execution failed" ++ replicate 16 0%N.
Proof.
  destruct C4_parseRevertReason_decoding as (_ & Hshort & _ & Henc).
  split.
  - apply Hshort. simpl. lia.
  - apply (Henc "execution failed"). reflexivity.
Defined.

(** C5: [parsePanicReason] is a total function of the payload that
    depends on its last two characters only; each of the eight codes
    01, 11, 12, 21, 31, 32, 41, 51 gives its fixed message (11 the
    arithmetic underflow/overflow one), and every other ending, as well
    as a payload of fewer than two characters that is not a code, gives
    the default message. *)
Theorem C5_parsePanicReason_last_byte :
  (forall (p q : string) (c1 c2 : ascii),
      parsePanicReason (p +:+ String c1 (String c2 ""))
      = parsePanicReason (q +:+ String c1 (String c2 ""))) /\
  (forall p : string,
      parsePanicReason (p +:+ "01")
        = "If you call assert with an argument that evaluates to false." /\
      parsePanicReason (p +:+ "11")
        = "If an arithmetic operation results in underflow or overflow outside of an unchecked { ... } block." /\
      parsePanicReason (p +:+ "12")
        = "If you divide or modulo by zero (e.g. 5 / 0 or 23 % 0)." /\
      parsePanicReason (p +:+ "21")
        = "If you convert a value that is too big or negative into an enum type." /\
      parsePanicReason (p +:+ "31")
        = "If you call .pop() on an empty array." /\
      parsePanicReason (p +:+ "32")
        = "If you access an array, bytesN or an array slice at an out-of-bounds or negative index (i.e. x[i] where i >= x.length or i < 0)." /\
      parsePanicReason (p +:+ "41")
        = "If you allocate too much memory or create an array that is too large." /\
      parsePanicReason (p +:+ "51")
        = "If you call a zero-initialized variable of internal function type.") /\
  (forall (p : string) (c1 c2 : ascii),
      ~ In (String c1 (String c2 "")) panicCodes ->
      parsePanicReason (p +:+ String c1 (String c2 "")) = "Default panic message") /\
  (forall s : string,
      (String.length s < 2)%nat -> parsePanicReason s = "Default panic message").
Proof.
  assert (E : forall p l, String.length l = 2%nat ->
                slice_last 2 (p +:+ l) = l)
    by (intros; now apply slice_last_app).
  split; [|split; [|split]].
  - intros p q c1 c2. unfold parsePanicReason. now rewrite !E.
  - intros p. unfold parsePanicReason. rewrite !E by reflexivity.
    repeat split; reflexivity.
  - intros p c1 c2 Hn. unfold parsePanicReason. rewrite E by reflexivity.
    unfold panicCodes in Hn. simpl in Hn.
    repeat match goal with
           | |- context [String.eqb ?a ?b] =>
               destruct (String.eqb_spec a b) as [Heq|_];
               [exfalso; apply Hn; rewrite Heq; tauto|]
           end.
    reflexivity.
  - intros s Hs. unfold parsePanicReason.
    rewrite slice_last_short by lia.
    destruct s as [|c1 [|c2 s]]; simpl in Hs; try lia; try reflexivity.
    repeat match goal with
           | |- context [String.eqb ?a ?b] =>
               destruct (String.eqb_spec a b) as [Heq|_]; [discriminate Heq|]
           end.
    reflexivity.
Qed.

Lemma C5_parsePanicReason_last_byte_witness :
  parsePanicReason "0x4e487b7100000000000000000000000000000000000000000000000000000000000000ff"
    = "Default panic message" /\
  parsePanicReason "1" = "Default panic message".
Proof.
  destruct C5_parsePanicReason_last_byte as (_ & _ & Hother & Hshort).
  split.
  - apply (Hother "0x4e487b71000000000000000000000000000000000000000000000000000000000000"
                  "f"%char "f"%char).
    unfold panicCodes. simpl. intros H.
    repeat (destruct H as [H|H]; [discriminate H|]). exact H.
  - apply Hshort. simpl. lia.
Defined.

End ErrorDecoderClaims.

(** ** The topics filter *)
Section TopicFacts.
Import Js Utils Notions.

Lemma removeZeroHexFromFilter_Some (s : string) (trim : bool) :
  removeZeroHexFromFilter (Some s) trim = Some (normalizeHex trim s).
Proof. destruct s; [now destruct trim | reflexivity]. Qed.

Lemma normalized_topic_lookup (topics : list string) (i : nat) :
  mjoin (removeZeroHexFromFilterArray (map Some topics) true !! i)
  = normalizeHex true <$> topics !! i.
Proof.
  unfold removeZeroHexFromFilterArray.
  rewrite !list_lookup_fmap.
  destruct (topics !! i) as [lt|]; [|reflexivity].
  simpl. now rewrite removeZeroHexFromFilter_Some.
Qed.

Lemma hasTopicsLoop_all (tps : list (option string)) (flt : list TopicFilter) (k : nat) :
  forallb (fun t => Bool.eqb t true) (hasTopicsLoop tps flt k) = true <->
  forall (i : nat) (entry : TopicFilter),
    flt !! i = Some entry -> topicMatches entry (mjoin (tps !! (k + i)%nat)) = true.
Proof.
  revert k; induction flt as [|e flt IH]; intros k.
  - split; [intros _ i entry H; discriminate H | reflexivity].
  - cbn [hasTopicsLoop forallb]. rewrite andb_true_iff, IH. split.
    + intros [He Hr] [|i] entry H.
      * injection H as <-. rewrite Nat.add_0_r.
        now destruct (topicMatches e (mjoin (tps !! k))).
      * replace (k + S i)%nat with (S k + i)%nat by lia. now apply Hr.
    + intros H. split.
      * specialize (H 0%nat e eq_refl). rewrite Nat.add_0_r in H. now rewrite H.
      * intros i entry Hi.
        replace (S k + i)%nat with (k + S i)%nat by lia. now apply H.
Qed.

(** What one position decides, for a filter entry as given (before
    normalisation). *)
Lemma topicMatches_normalized (entry : TopicFilter) (topics : list string) (i : nat) :
  topicMatches (normalizeTopicFilter entry) (normalizeHex true <$> topics !! i) = true <->
  match entry with
  | TNull => True
  | TStr t =>
      Contains (normalizeHex true t) (logTopicText topics i)
      \/ logTopicText topics i = normalizeHex true t
  | TList ts =>
      exists lt, topics !! i = Some lt /\
        In (Some (normalizeHex true lt))
           (map (fun o => removeZeroHexFromFilter o true) ts)
  end.
Proof.
  destruct entry as [|t|ts]; cbn [normalizeTopicFilter].
  - tauto.
  - rewrite removeZeroHexFromFilter_Some. cbn [topicMatches].
    unfold logTopicText.
    destruct (topics !! i) as [lt|];
      cbn [fmap option_fmap option_map default from_option id].
    + destruct (includes (normalizeHex true t) (normalizeHex true lt)) eqn:E.
      * split; [intros _; left; now apply includes_spec | reflexivity].
      * case_bool_decide as Heq.
        -- assert (X : normalizeHex true lt = normalizeHex true t) by congruence.
           rewrite X, includes_refl in E. discriminate E.
        -- split; [discriminate|].
           intros [Hc | He].
           ++ apply includes_spec in Hc. congruence.
           ++ rewrite He, includes_refl in E. discriminate E.
    + destruct (includes (normalizeHex true t) "undefined") eqn:E.
      * split; [intros _; left; now apply includes_spec | reflexivity].
      * rewrite bool_decide_eq_false_2 by discriminate.
        split; [discriminate|].
        intros [Hc | He].
        -- apply includes_spec in Hc. congruence.
        -- rewrite <- He, includes_refl in E. discriminate E.
  - cbn [topicMatches]. unfold removeZeroHexFromFilterArray.
    destruct (topics !! i) as [lt|]; cbn [fmap option_fmap option_map].
    + case_bool_decide as Hin.
      * split; [|reflexivity]. intros _. exists lt. split; [reflexivity|].
        now apply list_elem_of_In.
      * split; [discriminate|]. intros (lt' & Hlt & Hi).
        injection Hlt as <-. apply list_elem_of_In in Hi. contradiction.
    + split; [discriminate|]. intros (lt' & Hlt & _). discriminate Hlt.
Qed.

End TopicFacts.

Section TopicClaims.
Import Js Utils Notions.

(** C3, the claim as stated, has the containment the wrong way round:
    a log whose topic is [0x00..00ab] passes the filter topic
    [0x00..00abcd], which does not occur in it, and a log whose topic
    is [0x00..00abcd] does not pass the filter topic [0x00..00ab],
    which does occur in it. *)
Lemma C3_containment_is_the_other_way :
  (hasTopics ["00000000000000000000000000000000000000000000000000000000000000ab"]
             [TStr "0x000000000000000000000000000000000000000000000000000000000000abcd"]
     = true
   /\ specTopicMatch
        "0x000000000000000000000000000000000000000000000000000000000000abcd"
        "00000000000000000000000000000000000000000000000000000000000000ab" = false)
  /\ (hasTopics ["000000000000000000000000000000000000000000000000000000000000abcd"]
                [TStr "0x00000000000000000000000000000000000000000000000000000000000000ab"]
        = false
      /\ specTopicMatch
           "0x00000000000000000000000000000000000000000000000000000000000000ab"
           "000000000000000000000000000000000000000000000000000000000000abcd" = true).
Proof. vm_compute. repeat split. Qed.

(** C3, amended: a filter position holding [null] matches any log; a
    position holding a topic matches iff, after stripping the [0x]
    prefix, lower-casing and stripping leading zero-byte pairs on both
    sides, the log topic at that position is contained within the
    filter topic or the two are equal (a log that has no topic at the
    position is compared as the text [undefined]); a position holding a
    list matches iff the normalised log topic is one of the normalised
    entries; the log matches iff every filter position matches. *)
Theorem C3_hasTopics_positional (topics : list string) (topicsFilter : list TopicFilter) :
  hasTopics topics topicsFilter = true <->
  forall (i : nat) (entry : TopicFilter),
    topicsFilter !! i = Some entry ->
    match entry with
    | TNull => True
    | TStr t =>
        Contains (normalizeHex true t) (logTopicText topics i)
        \/ logTopicText topics i = normalizeHex true t
    | TList ts =>
        exists lt, topics !! i = Some lt /\
          In (Some (normalizeHex true lt))
             (map (fun o => removeZeroHexFromFilter o true) ts)
    end.
Proof.
  unfold hasTopics. rewrite hasTopicsLoop_all. split.
  - intros H i entry Hi. apply topicMatches_normalized.
    rewrite <- normalized_topic_lookup.
    apply (H i). rewrite list_lookup_fmap, Hi. reflexivity.
  - intros H i entry' Hi. rewrite list_lookup_fmap in Hi.
    destruct (topicsFilter !! i) as [entry|] eqn:E; [|discriminate Hi].
    injection Hi as <-. cbn [Nat.add].
    rewrite normalized_topic_lookup. apply topicMatches_normalized.
    now apply H.
Qed.

Lemma C3_hasTopics_positional_witness :
  hasTopics ["ddf252ad1be2c89b69c2b068fc378daa952ba7f163c4a11628f55a4df523b3ef";
             "000000000000000000000000000000000000000000000000000000000000abcd"]
            [TNull;
             TStr "0x000000000000000000000000000000000000000000000000000000000000ABCD"]
    = true.
Proof.
  apply C3_hasTopics_positional.
  intros [|[|i]] entry H; try discriminate H; injection H as <-.
  - exact I.
  - right. reflexivity.
Defined.

End TopicClaims.

(** ** The trace builder *)
Section TraceFacts.
Import Js Utils Traces Notions.
Variable env : Env.

Lemma pushTraces_map (receipt : Receipt) (adHoc : bool)
    (results : list Trace) (itxs : list InternalCall) :
  pushTraces env receipt adHoc results itxs
  = results ++ map (fun itx => makeTrace env receipt itx adHoc) itxs.
Proof.
  revert results; induction itxs as [|itx itxs IH]; intros results; cbn [pushTraces map].
  - now rewrite app_nil_r.
  - rewrite IH. now rewrite <- app_assoc.
Qed.

(** The list that [makeTraces] builds: the initial trace, then one
    trace per internal call, in order; in ad-hoc mode it is wrapped. *)
Lemma makeTraces_shape (receipt : Receipt) (adHoc : bool) :
  makeTraces env receipt adHoc
  = let traces := makeInitialTrace env receipt adHoc
                    :: map (fun itx => makeTrace env receipt itx adHoc) (r_itxs receipt) in
    if adHoc
    then TraceEnvelope (mkAdHoc ("0x" +:+ r_output receipt) None traces None)
    else TraceList traces.
Proof. unfold makeTraces. rewrite pushTraces_map. now destruct adHoc. Qed.

Lemma makeInitialTrace_fields (receipt : Receipt) (adHoc : bool) :
  let t := makeInitialTrace env receipt adHoc in
  type t = "call" /\
  action t = mkAction "call" (toChecksumAddress env (r_from receipt))
               ("0x" +:+ toString16 (r_gasused receipt)) (r_input_data receipt)
               (toChecksumAddress env (r_to receipt)) ("0x" +:+ r_value receipt) /\
  result t = mkTraceResult ("0x" +:+ toString16 (r_gasused receipt))
               ("0x" +:+ r_output receipt) /\
  error t = (r_errors receipt ≫= head) /\
  (adHoc = true ->
     blockHash t = None /\ blockNumber t = None /\
     transactionHash t = None /\ transactionPosition t = None) /\
  (adHoc = false ->
     blockHash t = Some ("0x" +:+ r_block_hash receipt) /\
     blockNumber t = Some (r_block receipt) /\
     transactionHash t = Some (r_hash receipt) /\
     transactionPosition t = Some (r_trx_index receipt)).
Proof.
  unfold makeInitialTrace, withLinkage.
  destruct (r_errors receipt) as [[|e es]|], adHoc; cbn;
    repeat split; try reflexivity; intros; try discriminate; repeat split.
Qed.

Lemma makeTrace_fields (receipt : Receipt) (itx : InternalCall) (adHoc : bool) :
  let t := makeTrace env receipt itx adHoc in
  callType (action t) = toOpname (itx_callType itx) /\
  (adHoc = true ->
     blockHash t = None /\ blockNumber t = None /\
     transactionHash t = None /\ transactionPosition t = None) /\
  (adHoc = false ->
     blockHash t = Some ("0x" +:+ r_block_hash receipt) /\
     blockNumber t = Some (r_block receipt) /\
     transactionHash t = Some (r_hash receipt) /\
     transactionPosition t = Some (r_trx_index receipt)).
Proof.
  unfold makeTrace, withLinkage.
  destruct adHoc; cbn; repeat split; try reflexivity; intros; try discriminate;
    repeat split.
Qed.

(** Outside its table [toOpname] answers with a misspelt word. *)
Lemma toOpname_unrecognized (opcode : string) :
  ~ In opcode knownOpcodes ->
  toOpname opcode = "unkown" /\ toOpname opcode <> "unknown".
Proof.
  intros Hn. unfold knownOpcodes in Hn. simpl in Hn.
  assert (E : toOpname opcode = "unkown").
  { unfold toOpname.
    repeat match goal with
           | |- context [String.eqb ?a ?b] =>
               destruct (String.eqb_spec a b) as [Heq|_];
               [exfalso; apply Hn; rewrite Heq; tauto|]
           end.
    reflexivity. }
  split; [exact E | rewrite E; discriminate].
Qed.

Lemma toOpname_table :
  toOpname "f0" = "create" /\ toOpname "f1" = "call" /\
  toOpname "f4" = "delegatecall" /\ toOpname "f5" = "create2" /\
  toOpname "fa" = "staticcall" /\ toOpname "ff" = "selfdestruct".
Proof. repeat split. Qed.

Lemma traceBlockLoop_keeps (traces : list TraceItem) (sortedReceipts : list Receipt) :
  traceBlockLoop env traces sortedReceipts = traces.
Proof.
  induction sortedReceipts as [|receipt rest IH]; [reflexivity|].
  cbn [traceBlockLoop]. exact IH.
Qed.

End TraceFacts.

Section TraceClaims.
Import Js Utils Traces Notions.

(** C8, at a receipt with one internal call whose opcode [00] is not in
    the table: the builder emits the initial trace of type [call] and
    one trace for the internal call, and the call-type name of the
    latter is the misspelt [unkown], not [unknown]. *)
Theorem C8_unrecognized_opcode_is_misspelt :
  exists initial t,
    makeTraces (Samples.env []) (d_raw Samples.docB) false = TraceList [initial; t] /\
    type initial = "call" /\
    itx_callType Samples.oddItx = "00" /\
    callType (action t) = "unkown" /\
    callType (action t) <> "unknown".
Proof.
  eexists _, _. split; [reflexivity|].
  repeat split; try reflexivity. vm_compute. discriminate.
Qed.

(** C10: whatever the block argument and whatever the block contains,
    [trace_block] returns the empty array; the only other outcome is
    that a call to a collaborator throws, and then that exception is
    the outcome. *)
Theorem C10_trace_block_returns_empty (env : Env) (block : option string) :
  match outcome (trace_block env block) with
  | Ok traces => traces = []
  | Throw e =>
      currentIndexedBlock env = Throw e \/ exists q, searchActions env q = Throw e
  end.
Proof.
  unfold trace_block, Aux.toBlockNumber, Aux.getReceiptsByTerm, Aux.search,
    Aux.getCurrentBlockNumberIndexed.
  unfold mbind, Eff_bind, mret, Eff_ret.
  repeat case_match; simplify_eq/=;
    rewrite ?traceBlockLoop_keeps; eauto.
Qed.

(** The block of the sample has two receipts, each with an internal
    call, and [trace_block] still returns no trace. *)
Example trace_block_sample :
  outcome (trace_block (Samples.env [Samples.docA; Samples.docB]) (Some "0x7")) = Ok [].
Proof. reflexivity. Qed.

End TraceClaims.

(** ** Block reconstruction *)
Section ReconstructionFacts.
Import Js Utils Reconstruction Notions.
Variable env : Env.

Lemma reconstructStep_ok (full : bool) (acc : Acc) (d : ReceiptDoc) :
  isOk (getVRS env d) = true ->
  exists acc',
    reconstructStep env full acc d = Ok acc' /\
    a_gasUsedBlock acc' = gasStep (a_gasUsedBlock acc) d /\
    a_bloom acc' = bloomStep (a_bloom acc) d.
Proof.
  intros Hok. unfold reconstructStep.
  destruct (getVRS env d) as [vrs|e]; [|discriminate Hok].
  cbn [mbind Result_bind mret Result_ret].
  eexists. split; [reflexivity|]. cbn [a_gasUsedBlock a_bloom]. split.
  - unfold gasStep. rewrite Z.gtb_ltb.
    destruct (Z.ltb_spec (a_gasUsedBlock acc) (r_gasusedblock (d_raw d)));
      cbv iota; lia.
  - reflexivity.
Qed.

Lemma reconstructLoop_ok (full : bool) (receipts : list ReceiptDoc) (acc : Acc) :
  Forall (fun d => isOk (getVRS env d) = true) receipts ->
  exists acc',
    reconstructLoop env full acc receipts = Ok acc' /\
    a_gasUsedBlock acc' = fold_left gasStep receipts (a_gasUsedBlock acc) /\
    a_bloom acc' = fold_left bloomStep receipts (a_bloom acc).
Proof.
  intros H; revert acc; induction H as [|d receipts Hd _ IH]; intros acc.
  - exists acc. repeat split.
  - destruct (reconstructStep_ok full acc d Hd) as (acc1 & E1 & G1 & B1).
    destruct (IH acc1) as (acc' & E & G & B).
    exists acc'. cbn [reconstructLoop fold_left]. rewrite E1.
    cbn [mbind Result_bind]. rewrite <- G1, <- B1. auto.
Qed.

(** The running maximum is reached by a receipt, or is still the
    initial value, and bounds every receipt. *)
Lemma fold_gasStep_max (receipts : list ReceiptDoc) (g : Z) :
  let m := fold_left gasStep receipts g in
  (m = g \/ exists d, In d receipts /\ r_gasusedblock (d_raw d) = m) /\
  g <= m /\
  (forall d, In d receipts -> r_gasusedblock (d_raw d) <= m).
Proof.
  revert g; induction receipts as [|d receipts IH]; intros g; cbn [fold_left].
  - split; [now left|]. split; [lia | intros d []].
  - destruct (IH (gasStep g d)) as (Hm & Hle & Hall).
    set (m := fold_left gasStep receipts (gasStep g d)) in *.
    assert (Hg : gasStep g d = Z.max g (r_gasusedblock (d_raw d))) by reflexivity.
    split; [|split].
    + destruct Hm as [Hm | (d' & Hin & Hd')].
      * destruct (Z.max_spec g (r_gasusedblock (d_raw d))) as [[_ E]|[_ E]].
        -- right. exists d. split; [now left | lia].
        -- left. lia.
      * right. exists d'. split; [now right | exact Hd'].
    + lia.
    + intros d' [<-|Hin]; [lia | now apply Hall].
Qed.

Lemma bloom_or_length (a b : Bloom.t) :
  List.length (Bloom.bitvector (Bloom.or a b)) = List.length (Bloom.bitvector a).
Proof. unfold Bloom.or. cbn [Bloom.bitvector]. apply length_imap. Qed.

Lemma fold_bloomStep_length (receipts : list ReceiptDoc) (b : Bloom.t) :
  List.length (Bloom.bitvector (fold_left bloomStep receipts b))
  = List.length (Bloom.bitvector b).
Proof.
  revert b; induction receipts as [|d receipts IH]; intros b; [reflexivity|].
  cbn [fold_left]. rewrite IH. unfold bloomStep.
  destruct (carriesBloom d); [apply bloom_or_length | reflexivity].
Qed.

(** Byte by byte, the loop ORs the blooms of the receipts that carry
    one into the initial vector. *)
Lemma fold_bloomStep_byte (receipts : list ReceiptDoc) (b : Bloom.t) (i : nat) (x : N) :
  Bloom.bitvector b !! i = Some x ->
  Bloom.bitvector (fold_left bloomStep receipts b) !! i
  = Some (N.lor x (orAll (map (bloomByte i) (List.filter carriesBloom receipts)))).
Proof.
  revert b x; induction receipts as [|d receipts IH]; intros b x Hx; cbn [fold_left List.filter].
  - cbn. now rewrite N.lor_0_r.
  - unfold bloomStep at 2. destruct (carriesBloom d) eqn:C.
    + rewrite (IH _ (N.lor x (bloomByte i d))).
      * cbn [map orAll fold_right]. now rewrite N.lor_assoc.
      * unfold Bloom.or. cbn [Bloom.bitvector Bloom.new default from_option id].
        rewrite list_lookup_imap, Hx. reflexivity.
    + now apply IH.
Qed.

End ReconstructionFacts.

Section ReconstructionClaims.
Import Js Utils Reconstruction Notions.

(** C1: for a non-empty list of receipts (whose signatures can be read
    and whose cumulative gas counters are not negative),
    [reconstructBlockFromReceipts] returns a block whose [gasUsed] is
    the hexadecimal form of the largest [gasusedblock] among the
    receipts (a maximum, not a sum), and whose [logsBloom] is the
    hexadecimal form of a vector of 256 bytes, each the bitwise OR of
    that byte over the blooms of the receipts that carry one. *)
Theorem C1_block_gas_is_max_and_bloom_is_or
    (env : Env) (receipts : list ReceiptDoc) (full : bool) :
  receipts <> [] ->
  Forall (fun d => isOk (getVRS env d) = true) receipts ->
  Forall (fun d => 0 <= r_gasusedblock (d_raw d)) receipts ->
  exists b : Block,
    reconstructBlockFromReceipts env receipts full = Ok b /\
    (exists d, In d receipts /\
       gasUsed b = numToHex env (JNum (r_gasusedblock (d_raw d))) /\
       forall d', In d' receipts ->
         r_gasusedblock (d_raw d') <= r_gasusedblock (d_raw d)) /\
    (exists bv : list N,
       logsBloom b = "0x" +:+ Bloom.bufferToHex bv /\
       List.length bv = 256%nat /\
       forall i, (i < 256)%nat ->
         bv !! i = Some (orAll (map (bloomByte i) (List.filter carriesBloom receipts)))).
Proof.
  intros Hne Hsig Hgas.
  destruct (reconstructLoop_ok env full receipts initialAcc Hsig) as (acc & E & G & B).
  unfold reconstructBlockFromReceipts. rewrite E.
  cbn [mbind Result_bind mret Result_ret].
  eexists. split; [reflexivity|]. cbn [gasUsed logsBloom]. split.
  - rewrite G. cbn [initialAcc a_gasUsedBlock].
    destruct (fold_gasStep_max receipts 0) as (Hm & _ & Hall).
    destruct Hm as [Hm | (d & Hin & Hd)].
    + destruct receipts as [|d0 rest]; [contradiction|].
      exists d0. split; [now left|].
      assert (H0 : r_gasusedblock (d_raw d0) = 0).
      { apply Forall_inv in Hgas. specialize (Hall d0 (or_introl eq_refl)). lia. }
      split; [now rewrite Hm, H0|].
      intros d' Hin. specialize (Hall d' Hin). lia.
    + exists d. split; [exact Hin|]. split; [now rewrite Hd|].
      intros d' Hin'. specialize (Hall d' Hin'). lia.
  - exists (Bloom.bitvector (a_bloom acc)). split; [reflexivity|].
    rewrite B. split.
    + rewrite fold_bloomStep_length. reflexivity.
    + intros i Hi.
      rewrite (fold_bloomStep_byte receipts initialAcc.(a_bloom) i 0%N).
      * now rewrite N.lor_0_l.
      * change (Bloom.bitvector (a_bloom initialAcc))
          with (replicate Bloom.BYTE_SIZE 0%N).
        apply lookup_replicate_2. exact Hi.
Qed.

Lemma C1_block_gas_is_max_and_bloom_is_or_witness :
  exists b : Block,
    reconstructBlockFromReceipts (Samples.env []) [Samples.docA; Samples.docB] false = Ok b /\
    (exists d, In d [Samples.docA; Samples.docB] /\
       gasUsed b = numToHex (Samples.env []) (JNum (r_gasusedblock (d_raw d))) /\
       forall d', In d' [Samples.docA; Samples.docB] ->
         r_gasusedblock (d_raw d') <= r_gasusedblock (d_raw d)) /\
    (exists bv : list N,
       logsBloom b = "0x" +:+ Bloom.bufferToHex bv /\
       List.length bv = 256%nat /\
       forall i, (i < 256)%nat ->
         bv !! i = Some (orAll (map (bloomByte i)
                                 (List.filter carriesBloom [Samples.docA; Samples.docB])))).
Proof.
  apply C1_block_gas_is_max_and_bloom_is_or.
  - discriminate.
  - repeat constructor.
  - repeat constructor; vm_compute; discriminate.
Defined.

(** In the sample block the counters are 21000 and 50000: the block
    reports 50000 (0xc350), not their sum. *)
Example reconstruct_sample_gas :
  gasUsed <$> (match reconstructBlockFromReceipts (Samples.env [])
                       [Samples.docA; Samples.docB] false with
               | Ok b => Some b
               | Throw _ => None
               end) = Some "0xc350".
Proof. vm_compute. reflexivity. Qed.

End ReconstructionClaims.

(** ** The [eth_getLogs] handler *)
Section GetLogsFacts.
Import Js Utils GetLogs Notions.

Section Loops.
Context {A : Type}.
Variable emit : ReceiptDoc -> Log -> A.
Variable f : Filter.

(** An iteration of the inner loop leaves the state as it is or, for
    a log that passes the tests, pushes one element and counts it. *)
Lemma logStep_cases (doc : ReceiptDoc) (st : list A * Z) (log : Log) :
  logStep emit f doc st log = st \/
  (skipByBlock f doc = false /\
   logFilterMatch log (f_addressFilter f) (f_topicsFilter f) = true /\
   logStep emit f doc st log = (st.1 ++ [emit doc (setLogIndex log st.2)], st.2 + 1)).
Proof.
  unfold logStep.
  destruct (skipByBlock f doc); [now left|].
  destruct (logFilterMatch log (f_addressFilter f) (f_topicsFilter f)); [|now left].
  right. repeat split.
Qed.

Lemma docStep_ind (P : list A * Z -> Prop) (doc : ReceiptDoc) :
  (forall st log, Selected f doc log -> P st ->
     P (st.1 ++ [emit doc (setLogIndex log st.2)], st.2 + 1)) ->
  forall st, P st -> P (docStep emit f st doc).
Proof.
  intros Hpush st. unfold docStep.
  destruct (r_logs (d_raw doc)) as [logs|] eqn:E; [|auto].
  assert (G : forall rest, (forall log, log ∈ rest -> log ∈ logs) ->
            forall st0, P st0 -> P (fold_left (logStep emit f doc) rest st0)).
  { induction rest as [|log rest IH]; intros Hin st0 Hst; [exact Hst|].
    cbn [fold_left]. apply IH; [intros l Hl; apply Hin; now right|].
    destruct (logStep_cases doc st0 log) as [-> | (Hb & Hm & ->)]; [exact Hst|].
    apply Hpush; [|exact Hst].
    split; [|now split]. exists logs. split; [exact E | apply Hin; left]. }
  now apply G.
Qed.

Lemma processHits_ind (P : list A * Z -> Prop) (hits : list ReceiptDoc) :
  (forall doc st log, doc ∈ hits -> Selected f doc log -> P st ->
     P (st.1 ++ [emit doc (setLogIndex log st.2)], st.2 + 1)) ->
  forall st, P st -> P (fold_left (docStep emit f) hits st).
Proof.
  intros Hpush.
  assert (G : forall rest, (forall doc, doc ∈ rest -> doc ∈ hits) ->
            forall st, P st -> P (fold_left (docStep emit f) rest st)).
  { induction rest as [|doc rest IH]; intros Hin st Hst; [exact Hst|].
    cbn [fold_left]. apply IH; [intros d Hd; apply Hin; now right|].
    apply docStep_ind; [|exact Hst].
    intros st0 log Hsel Hst0. apply Hpush; [apply Hin; left | exact Hsel | exact Hst0]. }
  now apply G.
Qed.
End Loops.

(** The loop that pushes [emit doc log] is the loop that pushes the
    pair, followed by [emit]. *)
Lemma fold_docStep_map {A} (emit : ReceiptDoc -> Log -> A) (f : Filter)
    (hits : list ReceiptDoc) (st : list (ReceiptDoc * Log) * Z) :
  fold_left (docStep emit f) hits (map (fun s => emit s.1 s.2) st.1, st.2)
  = (map (fun s => emit s.1 s.2) (fold_left (docStep pair f) hits st).1,
     (fold_left (docStep pair f) hits st).2).
Proof.
  set (g := fun s : ReceiptDoc * Log => emit s.1 s.2).
  assert (Hlog : forall doc log st,
             logStep emit f doc (map g st.1, st.2) log
             = (map g (logStep pair f doc st log).1, (logStep pair f doc st log).2)).
  { intros doc log [l n]. unfold logStep. cbn [fst snd].
    repeat case_match; try reflexivity.
    cbn [fst snd]. now rewrite map_app. }
  assert (Hdoc : forall doc st,
             docStep emit f (map g st.1, st.2) doc
             = (map g (docStep pair f st doc).1, (docStep pair f st doc).2)).
  { intros doc st0. unfold docStep.
    destruct (r_logs (d_raw doc)) as [logs|]; [|reflexivity].
    revert st0; induction logs as [|log logs IH]; intros st0; [reflexivity|].
    cbn [fold_left]. rewrite Hlog. apply IH. }
  revert st; induction hits as [|doc hits IH]; intros st; [reflexivity|].
  cbn [fold_left]. rewrite Hdoc. apply IH.
Qed.

Lemma processHits_map {A} (emit : ReceiptDoc -> Log -> A) (f : Filter)
    (hits : list ReceiptDoc) :
  processHits emit f hits = map (fun s => emit s.1 s.2) (processHits pair f hits).
Proof.
  unfold processHits.
  pose proof (fold_docStep_map emit f hits ([], 0)) as H.
  cbn [map fst snd] in H. now rewrite H.
Qed.

(** The counter is the length of [results], and the log pushed at
    position [i] has [logIndex] [i]. *)
Lemma processHits_index (f : Filter) (hits : list ReceiptDoc) (i : nat)
    (s : ReceiptDoc * Log) :
  processHits pair f hits !! i = Some s ->
  log_logIndex s.2 = Some (Z.of_nat i).
Proof.
  unfold processHits.
  set (P := fun st : list (ReceiptDoc * Log) * Z =>
              st.2 = Z.of_nat (List.length st.1) /\
              forall i s, st.1 !! i = Some s -> log_logIndex s.2 = Some (Z.of_nat i)).
  assert (H : P (fold_left (docStep pair f) hits ([], 0))).
  { apply processHits_ind.
    - intros doc [l n] log _ _ [Hn Hl]. unfold P. cbn [fst snd] in *. split.
      + rewrite length_app. cbn. lia.
      + intros j s' Hj. apply lookup_app_Some in Hj.
        destruct Hj as [Hj | [Hge Hj]]; [now apply Hl|].
        apply list_lookup_singleton_Some in Hj. destruct Hj as [Hj <-].
        cbn. f_equal. lia.
    - split; [reflexivity | intros j s' Hj; discriminate Hj]. }
  destruct H as [_ H]. apply H.
Qed.

(** Hits in ascending order give sources in ascending order. *)
Lemma processHits_sorted (f : Filter) (hits : list ReceiptDoc)
    (st : list (ReceiptDoc * Log) * Z) :
  StronglySorted bySequence hits ->
  StronglySorted sourceBySequence st.1 ->
  (forall s d, s ∈ st.1 -> d ∈ hits -> d_global_sequence s.1 <= d_global_sequence d) ->
  StronglySorted sourceBySequence (fold_left (docStep pair f) hits st).1.
Proof.
  intros Hhits; revert st; induction Hhits as [|doc hits Hrest IH Hdoc];
    intros st Hst Hle; [exact Hst|].
  cbn [fold_left]. rewrite Forall_forall in Hdoc.
  set (Q := fun st' : list (ReceiptDoc * Log) * Z =>
              StronglySorted sourceBySequence st'.1 /\
              forall s, s ∈ st'.1 -> d_global_sequence s.1 <= d_global_sequence doc).
  assert (HQ : Q (docStep pair f st doc)).
  { apply docStep_ind.
    - intros [l n] log _ [Hs Hb]. unfold Q. cbn [fst snd] in *. split.
      + apply StronglySorted_app_2; [|exact Hs|repeat constructor].
        intros x1 x2 H1 H2. apply list_elem_of_singleton in H2. subst x2.
        unfold sourceBySequence. cbn. now apply Hb.
      + intros s Hin. apply elem_of_app in Hin. destruct Hin as [Hin|Hin]; [now apply Hb|].
        apply list_elem_of_singleton in Hin. subst s. cbn. lia.
    - split; [exact Hst|]. intros s Hin. apply Hle; [exact Hin | left]. }
  destruct HQ as [Hs Hb]. apply IH; [exact Hs|].
  intros s d Hin Hd. specialize (Hb s Hin). specialize (Hdoc d Hd).
  unfold bySequence in Hdoc. lia.
Qed.

(** Every source is a log of a hit, one that passes the tests, with
    its index set. *)
Lemma processHits_provenance (f : Filter) (hits : list ReceiptDoc)
    (s : ReceiptDoc * Log) :
  s ∈ processHits pair f hits ->
  s.1 ∈ hits /\ exists log n, Selected f s.1 log /\ s.2 = setLogIndex log n.
Proof.
  unfold processHits.
  set (P := fun st : list (ReceiptDoc * Log) * Z =>
              forall s, s ∈ st.1 ->
                s.1 ∈ hits /\ exists log n, Selected f s.1 log /\ s.2 = setLogIndex log n).
  assert (H : P (fold_left (docStep pair f) hits ([], 0))).
  { apply processHits_ind.
    - intros doc [l n] log Hd Hsel Hl. unfold P. cbn [fst snd] in *.
      intros s' Hin. apply elem_of_app in Hin. destruct Hin as [Hin|Hin]; [now apply Hl|].
      apply list_elem_of_singleton in Hin. subst s'. cbn [fst snd pair].
      split; [exact Hd|]. now exists log, n.
    - intros s' Hin. inversion Hin. }
  apply H.
Qed.

(** What [eth_getLogs] returns when it returns: nothing, after a
    failed search, or the logs of the hits of the one search it
    makes, sorted ascending by the global sequence number. *)
Lemma eth_getLogs_results (env : Env) (params : option Params) (results : list EthLog) :
  outcome (eth_getLogs env params) = Ok results ->
  results = [] \/
  exists (q : Query) (hits : list ReceiptDoc) (f : Filter),
    q_sort q = Some ("global_sequence", Asc) /\
    searchActions env q = Ok hits /\
    results = processHits (fun doc log => makeLogObject env doc log false) f hits.
Proof.
  unfold eth_getLogs. destruct params as [params|]; [|discriminate].
  destruct (selectBlocks env params) as [cs [[[[bh fb] tb] clause]|e]];
    unfold mbind at 1, Eff_bind; cbn [outcome calls]; [|discriminate].
  destruct (prepareAddress (p_address params)) as [[af acl]|e];
    unfold mbind at 1, Eff_bind; cbn [outcome calls]; [|discriminate].
  unfold tryCatch, Aux.search, mbind, Eff_bind, mret, Eff_ret. cbn [outcome calls].
  match goal with
  | |- context [searchActions env ?q] =>
      destruct (searchActions env q) as [hits|e] eqn:E
  end; cbn [outcome calls]; intros H; injection H as <-.
  - right. eexists _, hits, _. split; [|split; [exact E | reflexivity]]. reflexivity.
  - now left.
Qed.

End GetLogsFacts.

Section GetLogsClaims.
Import Js Utils GetLogs Notions.

(** C6, the claim as stated, fails for a bound that is present but
    falsy.  With [blockHash] and [fromBlock: 0], and with [blockHash]
    and an empty [toBlock], the handler does not throw: it makes the
    one search it makes for the hash alone, with no range in it, and
    returns the log of that block. *)
Lemma C6_falsy_bound_is_ignored :
  (eth_getLogs (Samples.env [Samples.docA])
    (Some (mkParams None None (Some "0xaa7") (JNum 0) JUndefined))
  = eth_getLogs (Samples.env [Samples.docA])
      (Some (mkParams None None (Some "0xaa7") JUndefined JUndefined)))
  /\
  (eth_getLogs (Samples.env [Samples.docA])
    (Some (mkParams None None (Some "0xaa7") JUndefined (JStr "")))
  = eth_getLogs (Samples.env [Samples.docA])
      (Some (mkParams None None (Some "0xaa7") JUndefined JUndefined)))
  /\
  (calls (eth_getLogs (Samples.env [Samples.docA])
           (Some (mkParams None None (Some "0xaa7") (JNum 0) JUndefined)))
  = [CallSearch {| q_size := 2000;
                   q_must := [Exists "@raw.logs";
                              Term "@raw.block_hash" (TvStr "aa7")];
                   q_sort := Some ("global_sequence", Asc) |}])
  /\
  (outcome (eth_getLogs (Samples.env [Samples.docA])
             (Some (mkParams None None (Some "0xaa7") (JNum 0) JUndefined)))
  = Ok [makeLogObject (Samples.env [Samples.docA]) Samples.docA
          (setLogIndex Samples.log1 0) false]).
Proof. repeat split; vm_compute; reflexivity. Qed.

(** C6, amended: when [blockHash] is truthy (present and not empty)
    together with a [fromBlock] or a [toBlock] that is truthy (present,
    not the empty string and not the number 0), [eth_getLogs] throws
    the error "fromBlock/toBlock are not allowed with blockHash query"
    and has made no call to the search backend or to any other
    collaborator. *)
Theorem C6_blockHash_with_range_throws (env : Env) (params : Params) :
  truthy (p_blockHash params) = true ->
  truthyNumOrStr (p_fromBlock params) || truthyNumOrStr (p_toBlock params) = true ->
  eth_getLogs env (Some params)
  = mkEff [] (Throw (newError "fromBlock/toBlock are not allowed with blockHash query")).
Proof.
  intros Hh Hr. unfold eth_getLogs, selectBlocks. rewrite Hh, Hr. reflexivity.
Qed.

Lemma C6_blockHash_with_range_throws_witness :
  (eth_getLogs (Samples.env [Samples.docA])
    (Some (mkParams None None (Some "0xaa7") (JStr "0x1") JUndefined))
  = mkEff [] (Throw (newError "fromBlock/toBlock are not allowed with blockHash query")))
  /\
  (eth_getLogs (Samples.env [Samples.docA])
    (Some (mkParams None None (Some "0xaa7") JUndefined (JNum 16)))
  = mkEff [] (Throw (newError "fromBlock/toBlock are not allowed with blockHash query"))).
Proof. split; apply C6_blockHash_with_range_throws; reflexivity. Defined.

(** C7, the claim as stated, fails on a result that spans two blocks:
    the second log, the first of its block, gets [logIndex] 1, while
    its index relative to its block is 0. *)
Lemma C7_logIndex_is_not_block_relative :
  exists l0 l1,
    outcome (eth_getLogs (Samples.env [Samples.docA; Samples.docC])
               (Some (mkParams None None None (JStr "0x1") (JStr "0x10"))))
      = Ok [l0; l1] /\
    blockNumber l0 = "0x7" /\ blockNumber l1 = "0x8" /\
    logIndex l1 = "0x1" /\
    logIndex l1 <> numToHex (Samples.env []) (JNum (blockRelativeIndex [l0; l1] 1)).
Proof.
  eexists _, _. split; [vm_compute; reflexivity|].
  repeat split; try reflexivity. vm_compute. discriminate.
Qed.

(** C7, amended: when the search backend honours the ascending sort on
    the global sequence number that the handler asks for, the logs in
    the result of [eth_getLogs] are in ascending order of the global
    sequence number of the documents they come from, and each carries
    as [logIndex] its position in the result list (a counter that runs
    over the whole result). *)
Theorem C7_logs_by_sequence_indexed_by_position
    (env : Env) (params : option Params) (results : list EthLog) :
  HonoursSequenceSort env ->
  outcome (eth_getLogs env params) = Ok results ->
  exists sources : list (ReceiptDoc * Log),
    results = map (emitLog env) sources /\
    (forall s, s ∈ sources ->
       exists q hits f log n,
         searchActions env q = Ok hits /\ s.1 ∈ hits /\
         Selected f s.1 log /\ s.2 = setLogIndex log n) /\
    StronglySorted sourceBySequence sources /\
    forall (i : nat) (e : EthLog),
      results !! i = Some e -> logIndex e = numToHex env (JNum (Z.of_nat i)).
Proof.
  intros Hsort Hres.
  destruct (eth_getLogs_results env params results Hres)
    as [-> | (q & hits & f & Hq & Hs & ->)].
  - exists []. split; [reflexivity|]. split; [intros s H; inversion H|].
    split; [constructor|].
    intros i e H. discriminate H.
  - exists (processHits pair f hits). split; [apply processHits_map|]. split.
    { intros s Hin. destruct (processHits_provenance f hits s Hin) as (Hd & log & n & Hsel & E).
      now exists q, hits, f, log, n. }
    split.
    + unfold processHits. apply processHits_sorted.
      * exact (Hsort q hits Hq Hs).
      * constructor.
      * intros s d H. inversion H.
    + intros i e Hi. rewrite processHits_map, list_lookup_fmap in Hi.
      destruct (processHits pair f hits !! i) as [s|] eqn:Es; [|discriminate Hi].
      injection Hi as <-. cbn [logIndex makeLogObject].
      now rewrite (processHits_index f hits i s Es).
Qed.

Lemma C7_logs_by_sequence_indexed_by_position_witness :
  exists sources : list (ReceiptDoc * Log),
    [makeLogObject (Samples.env [Samples.docA; Samples.docC]) Samples.docA
       (setLogIndex Samples.log1 0) false;
     makeLogObject (Samples.env [Samples.docA; Samples.docC]) Samples.docC
       (setLogIndex Samples.log1 1) false]
      = map (emitLog (Samples.env [Samples.docA; Samples.docC])) sources /\
    (forall s, s ∈ sources ->
       exists q hits f log n,
         searchActions (Samples.env [Samples.docA; Samples.docC]) q = Ok hits /\
         s.1 ∈ hits /\ Selected f s.1 log /\ s.2 = setLogIndex log n) /\
    StronglySorted sourceBySequence sources /\
    forall (i : nat) (e : EthLog),
      [makeLogObject (Samples.env [Samples.docA; Samples.docC]) Samples.docA
         (setLogIndex Samples.log1 0) false;
       makeLogObject (Samples.env [Samples.docA; Samples.docC]) Samples.docC
         (setLogIndex Samples.log1 1) false] !! i = Some e ->
      logIndex e = numToHex (Samples.env [Samples.docA; Samples.docC]) (JNum (Z.of_nat i)).
Proof.
  apply (C7_logs_by_sequence_indexed_by_position
           (Samples.env [Samples.docA; Samples.docC])
           (Some (mkParams None None None (JStr "0x1") (JStr "0x10")))).
  - intros q hits _ H. injection H as <-.
    repeat constructor; unfold bySequence; vm_compute; discriminate.
  - vm_compute. reflexivity.
Defined.

End GetLogsClaims.

(** ** The dispatcher *)
Section DispatcherFacts.
Import Js Dispatcher Notions.
Variable methods : gmap string Handler.

(** The envelope of a request does not depend on the shared state. *)
Lemma doRpcMethod_outcome (request : option Request) (st : St) :
  (doRpcMethod methods request st).2 = envelopeOf methods request.
Proof.
  unfold envelopeOf, doRpcMethod, jsonRPC2Error.
  repeat case_match; simplify_eq/=; reflexivity.
Qed.

Lemma startAll_outcomes (requests : list (option Request)) (st : St) :
  (startAll methods requests st).2 = map (envelopeOf methods) requests.
Proof.
  revert st; induction requests as [|request rest IH]; intros st; [reflexivity|].
  cbn [startAll map].
  pose proof (doRpcMethod_outcome request st) as H1.
  destruct (doRpcMethod methods request st) as [st1 promise]. cbn [snd] in H1.
  pose proof (IH st1) as H2.
  destruct (startAll methods rest st1) as [st2 promises]. cbn [snd] in *.
  now rewrite H1, H2.
Qed.

Lemma promiseAll_all_ok (promises : list (Result Envelope)) (responses : list Envelope) :
  Forall2 (fun p e => p = Ok e) promises responses ->
  promiseAll promises = Ok responses.
Proof.
  induction 1 as [|p e promises responses -> _ IH]; [reflexivity|].
  cbn [promiseAll]. now rewrite IH.
Qed.

(** A batch in which every request gets an envelope is answered by
    the array of these envelopes, one per request, in the order of
    the requests; an empty batch gets no response. *)
Lemma doRpcPayload_batch (requests : list (option Request)) (responses : list Envelope)
    (st : St) :
  requests <> [] ->
  Forall2 (fun request e => envelopeOf methods request = Ok e) requests responses ->
  (doRpcPayload methods (PArray requests) st).2 = Ok (RBatch responses).
Proof.
  intros Hne Hall. unfold doRpcPayload.
  destruct requests as [|r0 rest]; [contradiction|]. cbn [List.length Nat.eqb].
  pose proof (startAll_outcomes (r0 :: rest) st) as H.
  destruct (startAll methods (r0 :: rest) st) as [st' promises]. cbn [snd] in H.
  rewrite (promiseAll_all_ok promises responses); [reflexivity|].
  rewrite H. now apply Forall2_fmap_l.
Qed.

Lemma doRpcPayload_empty_batch (st : St) :
  doRpcPayload methods (PArray []) st = (st, Ok NoResponse).
Proof. reflexivity. Qed.

(** The [catch] block gives an envelope for every exception except a
    ledger assertion failure that has no first detail message. *)
Lemma catchHandler_total (id : option Json) (jsonrpc : string) (e : Exn) :
  (ex_isTransactionError e = true
   \/ (forall le, ex_json_error e = Some le -> le_code le <> 3050003)
   \/ (exists le details message,
         ex_json_error e = Some le /\ le_details le = Some details /\
         details !! 0%nat = Some (Some message))) ->
  exists response, catchHandler id jsonrpc e = Ok response.
Proof.
  unfold catchHandler. intros [Ht | [Hc | (le & details & message & Hle & Hd & Hm)]].
  - rewrite Ht. eauto.
  - destruct (ex_isTransactionError e); [eauto|].
    destruct (ex_json_error e) as [le|]; [|eauto].
    specialize (Hc le eq_refl).
    replace (le_code le =? 3050003) with false by (symmetry; now apply Z.eqb_neq).
    eauto.
  - destruct (ex_isTransactionError e); [eauto|].
    rewrite Hle. cbn [mbind option_bind]. rewrite Hd, Hm. cbn [mjoin option_join].
    destruct (le_code le =? 3050003); eauto.
Qed.

End DispatcherFacts.

Section DispatcherClaims.
Import Js Dispatcher Notions.

(** The batch of the specification: a known method and an unknown one
    give two envelopes in order, a result and a [MethodNotFound]
    error. *)
Example batch_known_and_unknown :
  (doRpcPayload Samples.methods
     (PArray [Some (Samples.request 1 "eth_chainId"); Some (Samples.request 2 "bogus")])
     Samples.st0).2
  = Ok (RBatch
          [Success (Some (JsNumber 1)) "2.0" (JsString "0x28");
           Failure (Some (JsNumber 2)) "2.0"
             (mkRpcError (-32601) (Some "Invalid method: bogus") None)]).
Proof. vm_compute. reflexivity. Qed.

(** C2, at a batch of two requests of which the second fails in the
    ledger with an assertion failure that carries no detail: the
    [catch] block of [doRpcMethod] itself throws on the missing
    message, the promise of that request rejects, [Promise.all]
    rejects, and the batch resolves to no array at all, although the
    first request, sent alone, gets its result. *)
Theorem C2_one_failure_rejects_the_batch :
  (doRpcPayload Samples.methods
     (PArray [Some (Samples.request 1 "eth_chainId");
              Some (Samples.request 2 "eth_getTransactionCount")])
     Samples.st0).2
  = Throw (typeError "Cannot read properties of undefined (reading 'startsWith')")
  /\
  (doRpcPayload Samples.methods (PSingle (Some (Samples.request 1 "eth_chainId")))
     Samples.st0).2
  = Ok (RSingle (Success (Some (JsNumber 1)) "2.0" (JsString "0x28"))).
Proof. split; vm_compute; reflexivity. Qed.

(** C9, the claim as stated, fails for a version that is present but
    falsy: a request whose version is the empty string, or the number
    0, has a version that is not "2.0", yet it is dispatched: the
    handler is called and its result is returned under version "2.0".
    And a request that names a method not in the registry gets the
    [InvalidRequest] envelope, not the [MethodNotFound] one, when its
    version is refused: the version is checked first. *)
Lemma C9_falsy_version_is_dispatched :
  (doRpcMethod Samples.methods
     (Some (mkRequest (Some (JsString "")) (Some (JsNumber 1)) (Some "eth_chainId") None))
     Samples.st0
   = (mkSt (Some 200) [("eth_chainId", None)],
      Ok (Success (Some (JsNumber 1)) "2.0" (JsString "0x28"))))
  /\
  (doRpcMethod Samples.methods
     (Some (mkRequest (Some (JsNumber 0)) (Some (JsNumber 1)) (Some "eth_chainId") None))
     Samples.st0
   = (mkSt (Some 200) [("eth_chainId", None)],
      Ok (Success (Some (JsNumber 1)) "2.0" (JsString "0x28"))))
  /\
  (doRpcMethod Samples.methods
     (Some (mkRequest (Some (JsString "1.0")) (Some (JsNumber 1)) (Some "bogus") None))
     Samples.st0
   = (mkSt (Some 400) [],
      Ok (Failure (Some (JsNumber 1)) "2.0"
            (mkRpcError (-32600) (Some "Invalid JSON RPC") None)))).
Proof. repeat split; vm_compute; reflexivity. Qed.

(** C9, amended: a request whose version field is absent or falsy
    ([null], [false], 0, the empty string) is handled exactly as the
    same request with version "2.0" (and its response says "2.0"); a
    request whose version field is truthy and is not the string "2.0"
    gets the [InvalidRequest] envelope, code -32600, and no handler is
    called; a request that passes the version check and names a method
    that is not in the registry gets the [MethodNotFound] envelope,
    code -32601, and no handler is called. *)
Theorem C9_version_and_method_checks
    (methods : gmap string Handler) (request : Request) (st : St) :
  (jsonTruthy (jsonrpc request) = false ->
     doRpcMethod methods (Some request) st
     = doRpcMethod methods
         (Some (mkRequest (Some (JsString "2.0")) (id request) (method request)
                  (params request))) st)
  /\
  (jsonTruthy (jsonrpc request) = true -> jsonrpc request <> Some (JsString "2.0") ->
     doRpcMethod methods (Some request) st
     = (mkSt (setStatus (reply st) 400) (invoked st),
        Ok (Failure (id request) "2.0"
              (mkRpcError (-32600) (Some "Invalid JSON RPC") None))))
  /\
  (versionAccepted request -> methodUnknown methods request ->
     doRpcMethod methods (Some request) st
     = (mkSt (setStatus (reply st) 404) (invoked st),
        Ok (Failure (id request) "2.0"
              (mkRpcError (-32601)
                 (Some ("Invalid method: " +:+ default "undefined" (method request)))
                 None)))).
Proof.
  split; [|split].
  - intros Hv. unfold doRpcMethod. cbn [jsonrpc id method params].
    rewrite Hv. reflexivity.
  - intros Hv Hne. unfold doRpcMethod. rewrite Hv. cbn [negb].
    assert (E : jsonIsString (jsonrpc request) "2.0" = false).
    { destruct (jsonrpc request) as [[| | |v| |]|]; try reflexivity.
      cbn [jsonIsString]. destruct (String.eqb_spec v "2.0") as [->|_]; [|reflexivity].
      now contradiction Hne. }
    rewrite E. reflexivity.
  - intros Hv Hm. unfold doRpcMethod.
    assert (E : jsonIsString (if negb (jsonTruthy (jsonrpc request))
                              then Some (JsString "2.0")
                              else jsonrpc request) "2.0" = true).
    { destruct Hv as [Hv | Hv]; rewrite Hv; reflexivity. }
    cbv zeta. rewrite E. cbn [negb].
    destruct (method request) as [m|] eqn:Em; cbn [mbind option_bind];
      [|reflexivity].
    pose proof (Hm m Em) as Hl.
    match goal with
    | |- context [match ?x with Some _ => _ | None => _ end] =>
        replace x with (@None Handler) by (symmetry; exact Hl)
    end.
    reflexivity.
Qed.

Lemma C9_version_and_method_checks_witness :
  doRpcMethod Samples.methods
    (Some (mkRequest None (Some (JsNumber 1)) (Some "eth_chainId") None)) Samples.st0
  = (mkSt (Some 200) [("eth_chainId", None)],
     Ok (Success (Some (JsNumber 1)) "2.0" (JsString "0x28")))
  /\
  doRpcMethod Samples.methods
    (Some (mkRequest (Some (JsString "1.0")) (Some (JsNumber 2)) (Some "eth_chainId") None))
    Samples.st0
  = (mkSt (Some 400) [],
     Ok (Failure (Some (JsNumber 2)) "2.0"
           (mkRpcError (-32600) (Some "Invalid JSON RPC") None)))
  /\
  doRpcMethod Samples.methods (Some (Samples.request 3 "bogus")) Samples.st0
  = (mkSt (Some 404) [],
     Ok (Failure (Some (JsNumber 3)) "2.0"
           (mkRpcError (-32601) (Some "Invalid method: bogus") None))).
Proof.
  split; [|split].
  - rewrite (proj1 (C9_version_and_method_checks Samples.methods
                      (mkRequest None (Some (JsNumber 1)) (Some "eth_chainId") None)
                      Samples.st0) eq_refl).
    vm_compute. reflexivity.
  - apply (proj1 (proj2 (C9_version_and_method_checks Samples.methods
             (mkRequest (Some (JsString "1.0")) (Some (JsNumber 2)) (Some "eth_chainId") None)
             Samples.st0))); [reflexivity | discriminate].
  - apply (proj2 (proj2 (C9_version_and_method_checks Samples.methods
             (Samples.request 3 "bogus") Samples.st0))).
    + right. reflexivity.
    + intros m H. injection H as <-. vm_compute. reflexivity.
Defined.

End DispatcherClaims.

(** ** Hexadecimal numbers *)
Section HexFacts.
Import Js MoreNotions.

Lemma hexDigit_ascii_to_digit (c : ascii) :
  hexDigit c = Z.of_N <$> HexString.ascii_to_digit c.
Proof. destruct c as [[] [] [] [] [] [] [] []]; reflexivity. Qed.

(** On a string of digits, [hexDigits] computes what
    [HexString.Raw.to_N] computes. *)
Lemma hexDigits_to_N (s : string) (a : N) :
  allHex s = true ->
  hexDigits (Some (Z.of_N a)) s = Some (Z.of_N (HexString.Raw.to_N s a)).
Proof.
  revert a; induction s as [|c s IH]; intros a H; [reflexivity|].
  cbn [allHex] in H. cbn [hexDigits HexString.Raw.to_N].
  rewrite hexDigit_ascii_to_digit in *.
  destruct (HexString.ascii_to_digit c) as [v|]; [|discriminate H].
  cbn [fmap option_fmap option_map default from_option Datatypes.id] in *.
  replace (16 * Z.of_N a + Z.of_N v) with (Z.of_N (v + 16 * a)) by lia.
  now apply IH.
Qed.

Lemma allHex_of_pos (p : positive) (rest : string) :
  allHex rest = true -> allHex (HexString.Raw.of_pos p rest) = true.
Proof.
  revert rest.
  induction p as [p IH]
    using (well_founded_induction (well_founded_ltof _ Pos.to_nat)).
  unfold ltof in IH. intros rest H.
  do 4 try destruct p as [p|p|]; try exact H;
    cbn [HexString.Raw.of_pos]; try (apply IH; [lia | exact H]).
Qed.

Lemma hexOfN_allHex (n : N) : allHex (hexOfN n) = true.
Proof. destruct n as [|p]; [reflexivity | now apply allHex_of_pos]. Qed.

Lemma hexOfN_nonempty (n : N) : hexOfN n <> "".
Proof.
  destruct n as [|p]; [discriminate|]. cbn [hexOfN]. intros E.
  pose proof (HexString.Raw.to_N_of_pos p "" 0%N) as H.
  rewrite E in H. discriminate H.
Qed.

Lemma hexDigits_hexOfN (n : N) : hexDigits None (hexOfN n) = Some (Z.of_N n).
Proof.
  pose proof (hexOfN_allHex n) as Ha. pose proof (hexOfN_nonempty n) as Hn.
  assert (E : hexDigits None (hexOfN n) = hexDigits (Some (Z.of_N 0)) (hexOfN n)).
  { destruct (hexOfN n) as [|c s]; [contradiction|].
    cbn [hexDigits allHex] in *.
    destruct (hexDigit c); [reflexivity | discriminate Ha]. }
  rewrite E, hexDigits_to_N by exact Ha.
  destruct n as [|p]; [reflexivity|].
  cbn [hexOfN]. now rewrite HexString.Raw.to_N_of_pos.
Qed.

(** A string of digits has no white space, sign or [0x] for [parseInt]
    to remove. *)
Lemma allHex_head (c : ascii) (s : string) :
  allHex (String c s) = true ->
  isWhiteSpace c = false /\ c <> "-"%char /\ c <> "+"%char
  /\ c <> "x"%char /\ c <> "X"%char.
Proof.
  cbn [allHex].
  destruct c as [[] [] [] [] [] [] [] []]; cbn; intros H;
    try discriminate H; repeat split; discriminate.
Qed.

Lemma strip0xX_allHex (s : string) : allHex s = true -> strip0xX s = s.
Proof.
  intros H. destruct s as [|c s]; [reflexivity|].
  destruct c as [[] [] [] [] [] [] [] []]; try reflexivity.
  destruct s as [|c2 s]; [reflexivity|].
  destruct c2 as [[] [] [] [] [] [] [] []]; try reflexivity;
    cbn in H; discriminate H.
Qed.

Lemma strip0x_allHex (s : string) : allHex s = true -> strip0x s = s.
Proof.
  intros H. destruct s as [|c s]; [reflexivity|].
  destruct c as [[] [] [] [] [] [] [] []]; try reflexivity.
  destruct s as [|c2 s]; [reflexivity|].
  destruct c2 as [[] [] [] [] [] [] [] []]; try reflexivity;
    cbn in H; discriminate H.
Qed.

Lemma parseInt16_allHex (s : string) :
  allHex s = true -> parseInt16 s = hexDigits None s.
Proof.
  intros H. destruct s as [|c s]; [reflexivity|].
  destruct (allHex_head c s H) as (Hw & Hm & Hp & _ & _).
  pose proof (strip0xX_allHex (String c s) H) as Hs.
  unfold parseInt16. cbn [skipWhiteSpace]. rewrite Hw.
  assert (E : (match String c s with
               | String "-" r => (-1, r)
               | String "+" r => (1, r)
               | _ => (1, String c s)
               end) = (1, String c s)).
  { destruct c as [[] [] [] [] [] [] [] []]; try reflexivity; congruence. }
  rewrite E, Hs.
  destruct (hexDigits None (String c s)) as [v|]; [|reflexivity].
  f_equal. lia.
Qed.

Lemma parseInt16_0x (s : string) :
  parseInt16 ("0x" +:+ s) = hexDigits None s.
Proof.
  unfold parseInt16.
  change (skipWhiteSpace ("0x" +:+ s)) with (String "0" (String "x" s)).
  cbv beta iota zeta delta [strip0xX].
  destruct (hexDigits None s) as [v|]; [|reflexivity].
  f_equal. lia.
Qed.

Lemma parseInt16_minus (s : string) :
  allHex s = true ->
  parseInt16 ("-" +:+ s) = Z.opp <$> hexDigits None s.
Proof.
  intros H. unfold parseInt16.
  change (skipWhiteSpace ("-" +:+ s)) with (String "-" s).
  cbv beta iota zeta. rewrite (strip0xX_allHex s H).
  destruct (hexDigits None s) as [v|]; [|reflexivity].
  cbn [fmap option_fmap option_map]. f_equal; try lia.
Qed.

Lemma parseInt16_toString16 (n : Z) : parseInt16 (toString16 n) = Some n.
Proof.
  unfold toString16. destruct (Z.ltb_spec n 0).
  - rewrite parseInt16_minus by apply hexOfN_allHex.
    rewrite hexDigits_hexOfN. cbn. f_equal. lia.
  - rewrite parseInt16_allHex by apply hexOfN_allHex.
    rewrite hexDigits_hexOfN. f_equal. lia.
Qed.

Lemma parseInt16_numToHex (env : Env) (n : Z) :
  0 <= n -> parseInt16 (Utils.numToHex env (JNum n)) = Some n.
Proof.
  intros Hn. cbn [Utils.numToHex]. unfold toString16.
  replace (n <? 0) with false by (symmetry; apply Z.ltb_ge; lia).
  rewrite parseInt16_0x, hexDigits_hexOfN. f_equal. lia.
Qed.

Lemma strip0x_toString16 (n : Z) : strip0x (toString16 n) = toString16 n.
Proof.
  unfold toString16. destruct (n <? 0); [reflexivity|].
  apply strip0x_allHex, hexOfN_allHex.
Qed.

End HexFacts.

Section HexExtras.
Import Js Utils MoreNotions.

(** X1: printing a number in radix 16 and parsing it back gives the
    number: [parseInt(n.toString(16), 16)] is [n] for every integer, and
    [parseInt(numToHex(n), 16)] is [n] for every [n] that is not
    negative (a negative one prints as [0x-..], which parses to
    [NaN]). *)
Theorem X1_hex_print_parse_round_trip (env : Env) :
  (forall n : Z, parseInt16 (toString16 n) = Some n) /\
  (forall n : Z, 0 <= n -> parseInt16 (numToHex env (JNum n)) = Some n) /\
  (forall n : Z, n < 0 -> parseInt16 (numToHex env (JNum n)) = None).
Proof.
  split; [apply parseInt16_toString16|]. split.
  - intros n Hn. cbn [numToHex]. unfold toString16.
    replace (n <? 0) with false by (symmetry; apply Z.ltb_ge; lia).
    rewrite parseInt16_0x.
    rewrite hexDigits_hexOfN. f_equal. lia.
  - intros n Hn. cbn [numToHex]. unfold toString16.
    replace (n <? 0) with true by (symmetry; apply Z.ltb_lt; lia).
    reflexivity.
Qed.

Lemma X1_hex_print_parse_round_trip_witness :
  parseInt16 (numToHex (Samples.env []) (JNum 50000)) = Some 50000 /\
  parseInt16 (numToHex (Samples.env []) (JNum (-255))) = None.
Proof.
  destruct (X1_hex_print_parse_round_trip (Samples.env [])) as (_ & Hpos & Hneg).
  split; [apply Hpos | apply Hneg]; lia.
Defined.

End HexExtras.

(** ** Blocks: identity, parent hash, empty blocks, counts *)
Section BlockFacts.
Import Js Utils Reconstruction Blocks MoreNotions.
Variable env : Env.

Lemma getParentBlockHash_numToHex (n : Z) :
  0 <= n ->
  getParentBlockHash env (Some (numToHex env (JNum n)))
  = blockHexToHash env (numToHex env (JNum (n - 1))) true.
Proof.
  intros Hn. unfold getParentBlockHash.
  cbn [default from_option Datatypes.id].
  rewrite parseInt16_numToHex by exact Hn.
  cbn [option_map numToString16]. unfold blockHexToHash.
  rewrite strip0x_toString16. reflexivity.
Qed.

(** What an iteration of the reconstruction loop does to the identity
    of the block and to the list of transactions. *)
Lemma reconstructStep_fields (full : bool) (acc acc' : Acc) (d : ReceiptDoc) :
  reconstructStep env full acc d = Ok acc' ->
  a_blockHash acc'
    = (if truthy (a_blockHash acc) then a_blockHash acc
       else Some ("0x" +:+ r_block_hash (d_raw d))) /\
  a_blockHex acc'
    = (if truthy (a_blockHex acc) then a_blockHex acc
       else Some ("0x" +:+ toString16 (r_block (d_raw d)))) /\
  List.length (a_trxs acc') = S (List.length (a_trxs acc)) /\
  (full = false -> a_trxs acc' = a_trxs acc ++ [TxHash (r_hash (d_raw d))]).
Proof.
  unfold reconstructStep. destruct (getVRS env d) as [vrs|e]; [|discriminate].
  cbn [mbind Result_bind mret Result_ret]. intros H. injection H as <-.
  cbn [a_blockHash a_blockHex a_trxs]. repeat split.
  - now destruct (truthy (a_blockHash acc)).
  - now destruct (truthy (a_blockHex acc)).
  - rewrite length_app. cbn. lia.
  - intros ->. reflexivity.
Qed.

Lemma reconstructLoop_fields (full : bool) (receipts : list ReceiptDoc) (acc acc' : Acc) :
  truthy (a_blockHash acc) = true ->
  truthy (a_blockHex acc) = true ->
  reconstructLoop env full acc receipts = Ok acc' ->
  a_blockHash acc' = a_blockHash acc /\
  a_blockHex acc' = a_blockHex acc /\
  List.length (a_trxs acc') = (List.length (a_trxs acc) + List.length receipts)%nat /\
  (full = false ->
     a_trxs acc' = a_trxs acc ++ map (fun d => TxHash (r_hash (d_raw d))) receipts).
Proof.
  revert acc; induction receipts as [|d receipts IH]; intros acc Hh Hx H.
  - injection H as <-. repeat split; [cbn; lia | intros _; now rewrite app_nil_r].
  - cbn [reconstructLoop] in H.
    destruct (reconstructStep env full acc d) as [acc1|e] eqn:E; [|discriminate H].
    cbn [mbind Result_bind] in H.
    destruct (reconstructStep_fields full acc acc1 d E) as (H1 & H2 & H3 & H4).
    rewrite Hh in H1. rewrite Hx in H2.
    destruct (IH acc1) as (G1 & G2 & G3 & G4); [congruence | congruence | exact H |].
    repeat split; [congruence | congruence | cbn [List.length]; lia |].
    intros Hf. rewrite (G4 Hf), (H4 Hf). cbn [map]. now rewrite <- app_assoc.
Qed.

Lemma reconstructBlock_fields (d : ReceiptDoc) (rest : list ReceiptDoc)
    (full : bool) (b : Block) :
  reconstructBlockFromReceipts env (d :: rest) full = Ok b ->
  hash b = Some ("0x" +:+ r_block_hash (d_raw d)) /\
  number b = Some ("0x" +:+ toString16 (r_block (d_raw d))) /\
  parentHash b = getParentBlockHash env (number b) /\
  List.length (transactions b) = S (List.length rest) /\
  (full = false ->
     transactions b = map (fun x => TxHash (r_hash (d_raw x))) (d :: rest)).
Proof.
  unfold reconstructBlockFromReceipts. cbn [reconstructLoop].
  destruct (reconstructStep env full initialAcc d) as [acc1|e] eqn:E; [|discriminate].
  cbn [mbind Result_bind].
  destruct (reconstructLoop env full acc1 rest) as [acc|e] eqn:L; [|discriminate].
  cbn [mret Result_ret]. intros H. injection H as <-.
  cbn [hash number parentHash transactions].
  destruct (reconstructStep_fields full initialAcc acc1 d E) as (H1 & H2 & H3 & H4).
  cbn [initialAcc a_blockHash a_blockHex a_trxs truthy] in H1, H2, H3, H4.
  destruct (reconstructLoop_fields full rest acc1 acc) as (G1 & G2 & G3 & G4);
    [now rewrite H1 | now rewrite H2 | exact L |].
  repeat split; [congruence | congruence | cbn [List.length] in *; lia |].
  intros Hf. rewrite (G4 Hf), (H4 Hf). reflexivity.
Qed.

End BlockFacts.

Section BlockExtras.
Import Js Utils Reconstruction Blocks MoreNotions.

(** X2: the parent hash of block [n] is the placeholder hash of block
    [n - 1]: for [n] from 0 to 2^53 (9007199254740992, the range in
    which the source computes [n - 1] exactly),
    [getParentBlockHash(numToHex(n))] is
    [blockHexToHash(numToHex(n - 1))], the keccak digest of the digits
    of [n - 1]. *)
Theorem X2_parent_hash_is_placeholder_of_previous (env : Env) (n : Z) :
  0 <= n <= 9007199254740992 ->
  getParentBlockHash env (Some (numToHex env (JNum n)))
  = blockHexToHash env (numToHex env (JNum (n - 1))) true
  /\ blockHexToHash env (numToHex env (JNum (n - 1))) true
     = "0x" +:+ keccak256Hex env (toString16 (n - 1)).
Proof.
  intros [Hn _]. split; [now apply getParentBlockHash_numToHex|].
  unfold blockHexToHash. cbn [numToHex]. reflexivity.
Qed.

Lemma X2_parent_hash_is_placeholder_of_previous_witness :
  getParentBlockHash (Samples.env []) (Some (numToHex (Samples.env []) (JNum 8)))
  = blockHexToHash (Samples.env []) (numToHex (Samples.env []) (JNum (8 - 1))) true
  /\ blockHexToHash (Samples.env []) (numToHex (Samples.env []) (JNum (8 - 1))) true
     = "0x" +:+ keccak256Hex (Samples.env []) (toString16 (8 - 1)).
Proof. apply X2_parent_hash_is_placeholder_of_previous. lia. Defined.

(** X3: [emptyBlockFromNumber] gives [null] exactly when the search on
    the delta index throws; otherwise it gives a block with no
    transaction and gas 0 whose number is the number asked for.  When
    block [n] is not in the index its hash is the placeholder, and then
    the parent hash of the empty block [n + 1] is the hash of the empty
    block [n]; the parent hash never depends on what the index holds. *)
Theorem X3_empty_blocks_link_by_placeholder (env : Env) (backend : Backend) :
  (forall bn, emptyBlockFromNumber env backend bn = None
              <-> isOk (deltaByBlockNum backend bn) = false) /\
  (forall bn b, emptyBlockFromNumber env backend bn = Some b ->
     transactions b = [] /\ gasUsed b = "0x0" /\
     number b = Some ("0x" +:+ numToString16 bn) /\
     parentHash b = getParentBlockHash env (number b)) /\
  (forall n b b', 0 <= n ->
     deltaByBlockNum backend (Some n) = Ok None ->
     emptyBlockFromNumber env backend (Some n) = Some b ->
     emptyBlockFromNumber env backend (Some (n + 1)) = Some b' ->
     hash b = Some (parentHash b')).
Proof.
  split; [|split].
  - intros bn. unfold emptyBlockFromNumber.
    destruct (deltaByBlockNum backend bn) as [[d|]|e]; cbn; split;
      (discriminate || reflexivity).
  - intros bn b. unfold emptyBlockFromNumber.
    destruct (deltaByBlockNum backend bn) as [[d|]|e]; [| |discriminate];
      intros H; injection H as <-; repeat split.
  - intros n b b' Hn Hd. unfold emptyBlockFromNumber. rewrite Hd.
    intros H; injection H as <-.
    destruct (deltaByBlockNum backend (Some (n + 1))) as [[d|]|e]; [| |discriminate];
      intros H; injection H as <-; cbn [hash parentHash numToString16];
      f_equal;
      change ("0x" +:+ toString16 (n + 1)) with (numToHex env (JNum (n + 1)));
      change ("0x" +:+ toString16 n) with (numToHex env (JNum n));
      rewrite getParentBlockHash_numToHex by lia;
      now replace (n + 1 - 1) with n by lia.
Qed.

Lemma X3_empty_blocks_link_by_placeholder_witness :
  exists b b',
    emptyBlockFromNumber (Samples.env []) MoreSamples.backend (Some 8) = Some b /\
    emptyBlockFromNumber (Samples.env []) MoreSamples.backend (Some 9) = Some b' /\
    hash b = Some (parentHash b') /\ hash b' = Some "0xbeef".
Proof.
  eexists _, _. split; [reflexivity|]. split; [reflexivity|]. split; [|reflexivity].
  apply (proj2 (proj2 (X3_empty_blocks_link_by_placeholder (Samples.env [])
                         MoreSamples.backend)) 8); [lia | reflexivity..].
Defined.

(** X4: a block reconstructed from receipts takes its hash and its
    number from the first receipt, its parent hash is the one computed
    from that number, it has one transaction per receipt, and in summary
    mode the transactions are the hashes of the receipts in the order of
    the receipts. *)
Theorem X4_block_identity_from_first_receipt
    (env : Env) (d : ReceiptDoc) (rest : list ReceiptDoc) (full : bool) (b : Block) :
  reconstructBlockFromReceipts env (d :: rest) full = Ok b ->
  hash b = Some ("0x" +:+ r_block_hash (d_raw d)) /\
  number b = Some ("0x" +:+ toString16 (r_block (d_raw d))) /\
  parentHash b = getParentBlockHash env (number b) /\
  List.length (transactions b) = S (List.length rest) /\
  (full = false ->
     transactions b = map (fun x => TxHash (r_hash (d_raw x))) (d :: rest)).
Proof. apply reconstructBlock_fields. Qed.

Lemma X4_block_identity_from_first_receipt_witness :
  exists b,
    reconstructBlockFromReceipts (Samples.env []) [Samples.docA; Samples.docC] false = Ok b /\
    hash b = Some "0xaa7" /\ number b = Some "0x7" /\
    transactions b = [TxHash "0xa1"; TxHash "0xc3"].
Proof.
  eexists. split; [reflexivity|].
  destruct (X4_block_identity_from_first_receipt (Samples.env []) Samples.docA
              [Samples.docC] false _ eq_refl) as (H1 & H2 & _ & _ & H5).
  split; [exact H1|]. split; [exact H2 | exact (H5 eq_refl)].
Defined.

End BlockExtras.

Section BlockHandlerExtras.
Import Js Utils Reconstruction Blocks MoreNotions.

(** X5: for a block parameter that is not one of the tags "latest",
    "pending" and "earliest", the count that
    [eth_getBlockTransactionCountByNumber] returns is the number of
    transactions of the block that [eth_getBlockByNumber] returns.  The
    count handler does not resolve the tags: it parses "earliest" as the
    hexadecimal number ea, and searches block 234. *)
Theorem X5_transaction_count_matches_block
    (env : Env) (backend : Backend) (block : option string) (full : bool) (b : Block) :
  (block <> Some "latest" -> block <> Some "pending" -> block <> Some "earliest" ->
   outcome (eth_getBlockByNumber env backend block full) = Ok (Some b) ->
   outcome (eth_getBlockTransactionCountByNumber env block)
   = Ok ("0x" +:+ toString16 (Z.of_nat (List.length (transactions b)))))
  /\
  calls (eth_getBlockTransactionCountByNumber env (Some "earliest"))
  = [CallSearch {| q_size := 2000;
                   q_must := [Term "@raw.block" (TvNum (Some 234))];
                   q_sort := None |}].
Proof.
  split.
  - intros Hl Hp He.
    unfold eth_getBlockByNumber, eth_getBlockTransactionCountByNumber,
      Aux.toBlockNumber, Aux.getReceiptsByTerm, Aux.search.
    rewrite !bool_decide_eq_false_2 by assumption. cbn [orb].
    unfold mbind, Eff_bind, mret, Eff_ret. cbn [outcome calls].
    destruct (searchActions env _) as [receipts|e]; cbn [outcome calls];
      [|discriminate].
    unfold blockOrEmpty. destruct receipts as [|d rest]; cbn [List.length Nat.ltb Nat.leb].
    + unfold mret, Eff_ret. cbn [outcome]. intros H. injection H as H.
      unfold emptyBlockFromNumber in H.
      destruct (deltaByBlockNum backend _) as [[dl|]|e]; [| |discriminate H];
        injection H as <-; reflexivity.
    + unfold liftResult. cbn [outcome].
      destruct (reconstructBlockFromReceipts env (d :: rest) full) as [b0|e] eqn:E;
        [|discriminate].
      intros H. injection H as <-.
      destruct (reconstructBlock_fields env d rest full b0 E) as (_ & _ & _ & Hlen & _).
      now rewrite Hlen.
  - unfold eth_getBlockTransactionCountByNumber, Aux.getReceiptsByTerm, Aux.search.
    unfold mbind, Eff_bind, mret, Eff_ret. cbn [outcome calls].
    destruct (searchActions env _); reflexivity.
Qed.

Lemma X5_transaction_count_matches_block_witness :
  outcome (eth_getBlockTransactionCountByNumber
             (Samples.env [Samples.docA; Samples.docB]) (Some "0x7"))
  = Ok "0x2".
Proof.
  destruct (reconstructBlockFromReceipts (Samples.env [Samples.docA; Samples.docB])
              [Samples.docA; Samples.docB] false) as [b|e] eqn:E;
    [|discriminate E].
  rewrite (proj1 (X5_transaction_count_matches_block
                    (Samples.env [Samples.docA; Samples.docB]) MoreSamples.backend
                    (Some "0x7") false b)); try discriminate.
  - injection E as <-. reflexivity.
  - vm_compute in E. injection E as <-. vm_compute. reflexivity.
Defined.

End BlockHandlerExtras.

(** ** The logs of a receipt *)
Section ReceiptLogFacts.
Import Js Utils ReceiptLogs MoreNotions.
Variable env : Env.

(** The object pushed for [log] when the counter is [i]. *)
Lemma buildLogsLoop_spec (logs : list Log) (_logs : list EthLog) (counter : Z)
    (blHash blNumber txHash txIndex : string) :
  let out := buildLogsLoop env _logs counter logs blHash blNumber txHash txIndex in
  List.length out = (List.length _logs + List.length logs)%nat /\
  (forall i e, _logs !! i = Some e -> out !! i = Some e) /\
  (forall i log, logs !! i = Some log ->
     out !! (List.length _logs + i)%nat
     = Some {| address := toChecksumAddress env (Some (log_address log));
               blockHash := blHash;
               blockNumber := blNumber;
               data := "0x" +:+ log_data log;
               logIndex := numToHex env (JNum (counter + Z.of_nat i));
               removed := Some false;
               topics := map (fun t => "0x" +:+ padStart0 64 t) (log_topics log);
               transactionHash := txHash;
               transactionIndex := txIndex |}).
Proof.
  revert _logs counter; induction logs as [|log logs IH]; intros _logs counter;
    cbv zeta in *; cbn [buildLogsLoop].
  - split; [cbn; lia|]. split; [auto | intros i l H; discriminate H].
  - destruct (IH (_logs ++ [{|
        address := toChecksumAddress env (Some (log_address log));
        blockHash := blHash; blockNumber := blNumber;
        data := "0x" +:+ log_data log;
        logIndex := numToHex env (JNum counter);
        removed := Some false;
        topics := map (fun t => "0x" +:+ padStart0 64 t) (log_topics log);
        transactionHash := txHash; transactionIndex := txIndex |}]) (counter + 1))
      as (Hlen & Hold & Hnew).
    rewrite length_app in Hlen, Hnew. cbn [List.length] in Hlen, Hnew.
    split; [rewrite Hlen; cbn [List.length]; lia|]. split.
    + intros i e Hi. apply Hold. now apply lookup_app_l_Some.
    + intros [|i] l Hi.
      * injection Hi as <-. rewrite Nat.add_0_r, Z.add_0_r.
        apply Hold. rewrite lookup_app_r by lia.
        now replace (List.length _logs - List.length _logs)%nat with 0%nat by lia.
      * cbn in Hi. specialize (Hnew i l Hi).
        replace (List.length _logs + S i)%nat
          with (List.length _logs + 1 + i)%nat by lia.
        replace (counter + Z.of_nat (S i)) with (counter + 1 + Z.of_nat i) by lia.
        exact Hnew.
Qed.

End ReceiptLogFacts.

Section ReceiptLogExtras.
Import Js Utils ReceiptLogs MoreNotions.

(** X6: [buildLogsObject] gives no log for a receipt without logs;
    otherwise it gives one object per log, in order, and the object at
    position [i] carries the block hash, block number, transaction hash
    and transaction index it was given, [logIndex] the hexadecimal form
    of [i] (an index within the transaction), [removed] false, the
    checksum form of the address, and each topic preceded by [0x] and
    padded with zeros to 64 digits. *)
Theorem X6_buildLogsObject_indexes_per_transaction
    (env : Env) (logs : list Log) (blHash blNumber txHash txIndex : string) :
  buildLogsObject env None blHash blNumber txHash txIndex = [] /\
  List.length (buildLogsObject env (Some logs) blHash blNumber txHash txIndex)
  = List.length logs /\
  (forall i log, logs !! i = Some log ->
     buildLogsObject env (Some logs) blHash blNumber txHash txIndex !! i
     = Some {| address := toChecksumAddress env (Some (log_address log));
               blockHash := blHash;
               blockNumber := blNumber;
               data := "0x" +:+ log_data log;
               logIndex := numToHex env (JNum (Z.of_nat i));
               removed := Some false;
               topics := map (fun t => "0x" +:+ padStart0 64 t) (log_topics log);
               transactionHash := txHash;
               transactionIndex := txIndex |}).
Proof.
  split; [reflexivity|]. cbn [buildLogsObject].
  destruct (buildLogsLoop_spec env logs [] 0 blHash blNumber txHash txIndex)
    as (Hlen & _ & Hnew).
  split; [exact Hlen|]. intros i log Hi. exact (Hnew i log Hi).
Qed.

Lemma X6_buildLogsObject_indexes_per_transaction_witness :
  logIndex <$> (buildLogsObject (Samples.env []) (Some [Samples.log1; Samples.log2])
                  "0xaa7" "0x7" "0xa1" "0x0" !! 1%nat)
  = Some "0x1".
Proof.
  destruct (X6_buildLogsObject_indexes_per_transaction (Samples.env [])
              [Samples.log1; Samples.log2] "0xaa7" "0x7" "0xa1" "0x0") as (_ & _ & H).
  rewrite (H 1%nat Samples.log2 eq_refl). reflexivity.
Defined.

End ReceiptLogExtras.

(** ** Addresses and padding *)
Section AddressFacts.
Import Js Utils Padding MoreNotions.

Lemma lowerChar_idem (c : ascii) : lowerChar (lowerChar c) = lowerChar c.
Proof. destruct c as [[] [] [] [] [] [] [] []]; reflexivity. Qed.

(** On a code unit below 128, [toUpperCase] gives one code unit, again
    below 128, with the same lower-case form. *)
Lemma upperChar_ascii (c : ascii) :
  isAsciiChar c = true ->
  exists c', upperChar c = String c' EmptyString
             /\ lowerChar c' = lowerChar c /\ isAsciiChar c' = true.
Proof.
  destruct c as [[] [] [] [] [] [] [] []]; intros H; try discriminate H;
    eexists; (split; [reflexivity|]); split; reflexivity.
Qed.

Lemma lowerChar_ascii (c : ascii) :
  isAsciiChar c = true -> isAsciiChar (lowerChar c) = true.
Proof. destruct c as [[] [] [] [] [] [] [] []]; intros H; try discriminate H; reflexivity. Qed.

Lemma isAscii_app (a b : string) : isAscii (a +:+ b) = isAscii a && isAscii b.
Proof.
  induction a as [|c a IH]; [reflexivity|].
  rewrite append_cons. cbn [isAscii]. rewrite IH. now rewrite andb_assoc.
Qed.

Lemma isAscii_zeros (n : nat) : isAscii (zeros n) = true.
Proof. induction n as [|n IH]; [reflexivity|]. cbn [zeros isAscii]. now rewrite IH. Qed.

Lemma isAscii_toLowerCase (s : string) :
  isAscii s = true -> isAscii (toLowerCase s) = true.
Proof.
  induction s as [|c s IH]; [reflexivity|].
  cbn [isAscii toLowerCase]. intros H. apply andb_true_iff in H. destruct H as [Hc Hs].
  now rewrite (lowerChar_ascii c Hc), IH.
Qed.

Lemma isAscii_removeFirst0x (s : string) :
  isAscii s = true -> isAscii (removeFirst0x s) = true.
Proof.
  induction s as [|c s IH]; [reflexivity|].
  cbn [isAscii]. intros H. apply andb_true_iff in H. destruct H as [Hc Hs].
  assert (G : isAscii (String c (removeFirst0x s)) = true).
  { cbn [isAscii]. now rewrite Hc, IH. }
  cbn [removeFirst0x].
  destruct c as [[] [] [] [] [] [] [] []]; try exact G.
  destruct s as [|c2 s]; [exact G|].
  cbn [isAscii] in Hs. apply andb_true_iff in Hs. destruct Hs as [_ Hs].
  destruct c2 as [[] [] [] [] [] [] [] []]; try exact G. exact Hs.
Qed.

Lemma toLowerCase_idem (s : string) : toLowerCase (toLowerCase s) = toLowerCase s.
Proof.
  induction s as [|c s IH]; [reflexivity|].
  cbn [toLowerCase]. now rewrite lowerChar_idem, IH.
Qed.

Lemma toLowerCase_app (a b : string) :
  toLowerCase (a +:+ b) = toLowerCase a +:+ toLowerCase b.
Proof.
  induction a as [|c a IH]; [reflexivity|].
  rewrite append_cons. cbn [toLowerCase]. now rewrite append_cons, IH.
Qed.

Lemma toLowerCase_zeros (n : nat) : toLowerCase (zeros n) = zeros n.
Proof. induction n as [|n IH]; [reflexivity|]. cbn [zeros toLowerCase]. now rewrite IH. Qed.

Lemma length_zeros (n : nat) : String.length (zeros n) = n.
Proof. induction n as [|n IH]; [reflexivity|]. cbn [zeros String.length]. now rewrite IH. Qed.

Lemma length_padStart0 (w : nat) (s : string) :
  String.length (padStart0 w s) = Nat.max w (String.length s).
Proof. unfold padStart0. rewrite length_append, length_zeros. lia. Qed.

Lemma padStart0_long (w : nat) (s : string) :
  (w <= String.length s)%nat -> padStart0 w s = s.
Proof.
  intros H. unfold padStart0.
  now replace (w - String.length s)%nat with 0%nat by lia.
Qed.

Lemma lower_removeFirst0x (s : string) :
  toLowerCase s = s -> toLowerCase (removeFirst0x s) = removeFirst0x s.
Proof.
  induction s as [|c s IH]; [reflexivity|].
  cbn [toLowerCase]. intros H. injection H as Hc Hs.
  cbn [removeFirst0x].
  assert (G : toLowerCase (String c (removeFirst0x s)) = String c (removeFirst0x s)).
  { cbn [toLowerCase]. now rewrite Hc, IH. }
  destruct c as [[] [] [] [] [] [] [] []]; try exact G.
  destruct s as [|c2 s]; [exact G|].
  cbn [toLowerCase] in Hs. injection Hs as _ Hs.
  destruct c2 as [[] [] [] [] [] [] [] []]; try exact G. exact Hs.
Qed.

Lemma paddedAddress_lower (a : string) : toLowerCase (paddedAddress a) = paddedAddress a.
Proof.
  unfold paddedAddress.
  assert (H : toLowerCase (removeFirst0x (toLowerCase a)) = removeFirst0x (toLowerCase a))
    by apply lower_removeFirst0x, toLowerCase_idem.
  destruct (Nat.eqb _ 40); [exact H|].
  unfold padStart0. now rewrite toLowerCase_app, toLowerCase_zeros, H.
Qed.

Lemma paddedAddress_ascii (a : string) :
  isAscii a = true -> isAscii (paddedAddress a) = true.
Proof.
  intros Ha. unfold paddedAddress.
  assert (H : isAscii (removeFirst0x (toLowerCase a)) = true)
    by now apply isAscii_removeFirst0x, isAscii_toLowerCase.
  destruct (Nat.eqb _ 40); [exact H|].
  unfold padStart0. now rewrite isAscii_app, isAscii_zeros, H.
Qed.

Lemma paddedAddress_length (a : string) : (40 <= String.length (paddedAddress a))%nat.
Proof.
  unfold paddedAddress.
  destruct (Nat.eqb_spec (String.length (removeFirst0x (toLowerCase a))) 40) as [E|_].
  - lia.
  - rewrite length_padStart0. lia.
Qed.

(** The loop of [toChecksumAddress] changes the case of letters and
    nothing else. *)
Lemma checksumChars_lower (a hash : string) :
  isAscii a = true ->
  toLowerCase (checksumChars a hash) = toLowerCase a
  /\ String.length (checksumChars a hash) = String.length a.
Proof.
  revert hash; induction a as [|c a IH]; intros hash Ha; [split; reflexivity|].
  cbn [isAscii] in Ha. apply andb_true_iff in Ha. destruct Ha as [Hc Ha].
  destruct (upperChar_ascii c Hc) as (c' & Hu & Hl & _).
  cbn [checksumChars].
  assert (G : forall hr x,
            (x = c \/ x = c') ->
            toLowerCase (String x EmptyString +:+ checksumChars a hr)
            = toLowerCase (String c a)
            /\ String.length (String x EmptyString +:+ checksumChars a hr)
               = String.length (String c a)).
  { intros hr x Hx. destruct (IH hr Ha) as [H1 H2].
    rewrite append_cons, append_nil. cbn [toLowerCase String.length].
    rewrite H1, H2. split; [|reflexivity].
    destruct Hx as [-> | ->]; [reflexivity | now rewrite Hl]. }
  destruct hash as [|h hr].
  - apply G. now left.
  - destruct (parseInt16 (String h EmptyString)) as [v|];
      [destruct (8 <=? v)|]; rewrite ?Hu; apply G; auto.
Qed.

Lemma paddedAddress_of_checksum (c : string) :
  (40 <= String.length c)%nat ->
  paddedAddress ("0x" +:+ c) = toLowerCase c.
Proof.
  intros Hlen. unfold paddedAddress.
  change (toLowerCase ("0x" +:+ c)) with (String "0" (String "x" (toLowerCase c))).
  change (removeFirst0x (String "0" (String "x" (toLowerCase c)))) with (toLowerCase c).
  destruct (Nat.eqb _ 40); [reflexivity|].
  apply padStart0_long.
  assert (L : forall s, String.length (toLowerCase s) = String.length s).
  { induction s as [|x s IH]; [reflexivity|]. cbn [toLowerCase String.length]. now rewrite IH. }
  rewrite L. exact Hlen.
Qed.

Lemma stripZeros_head (s : string) :
  stripZeros s = "" \/ startsWith "0" (stripZeros s) = false.
Proof.
  induction s as [|c s IH]; [now left|].
  destruct c as [[] [] [] [] [] [] [] []]; try (right; reflexivity).
  exact IH.
Qed.

Lemma stripZeros_fixed (s : string) :
  startsWith "0" s = false -> stripZeros s = s.
Proof.
  destruct s as [|c s]; [reflexivity|].
  destruct c as [[] [] [] [] [] [] [] []]; try reflexivity. discriminate.
Qed.

Lemma strip0x_no_zero (s : string) :
  startsWith "0" s = false -> strip0x s = s.
Proof.
  destruct s as [|c s]; [reflexivity|].
  destruct c as [[] [] [] [] [] [] [] []]; try reflexivity. discriminate.
Qed.

Lemma hexDigits_stripZeros (s : string) :
  hexDigits (Some 0) (stripZeros s) = hexDigits (Some 0) s.
Proof.
  induction s as [|c s IH]; [reflexivity|].
  destruct c as [[] [] [] [] [] [] [] []]; try reflexivity.
  exact IH.
Qed.

Lemma allHex_stripZeros (s : string) : allHex s = true -> allHex (stripZeros s) = true.
Proof.
  induction s as [|c s IH]; [reflexivity|]. intros H.
  destruct c as [[] [] [] [] [] [] [] []]; try exact H.
  apply IH. exact H.
Qed.

Lemma hexDigits_None_Some0 (s : string) :
  allHex s = true -> s <> "" -> hexDigits None s = hexDigits (Some 0) s.
Proof.
  intros H Hn. destruct s as [|c s]; [contradiction|].
  cbn [hexDigits allHex] in *.
  destruct (hexDigit c); [reflexivity | discriminate H].
Qed.

Lemma toChecksumAddress_truthy (env : Env) (a : string) :
  a <> "" ->
  toChecksumAddress env (Some a)
  = Some ("0x" +:+ checksumChars (paddedAddress a) (keccak256Hex env (paddedAddress a))).
Proof. intros Ha. destruct a; [contradiction | reflexivity]. Qed.

End AddressFacts.

Section AddressExtras.
Import Js Utils Padding MoreNotions.

(** X7: [toChecksumAddress] returns a missing or empty address as it
    is; for any other address whose characters are all ASCII (code
    units below 128, where upper-casing changes the letters a-z only)
    it returns [0x] followed by the padded lower-case address with only
    the case of some letters changed (at least 40 characters, and
    lower-casing gives the padded address back), whatever the digest
    is; and applying it to its own result changes nothing. *)
Theorem X7_checksum_changes_case_only (env : Env) (address : option string) :
  (truthy address = false -> toChecksumAddress env address = address) /\
  (forall a, address = Some a -> a <> "" -> isAscii a = true ->
     exists c,
       toChecksumAddress env address = Some ("0x" +:+ c) /\
       toLowerCase c = paddedAddress a /\
       String.length c = String.length (paddedAddress a) /\
       (40 <= String.length c)%nat /\
       toChecksumAddress env (Some ("0x" +:+ c)) = Some ("0x" +:+ c)).
Proof.
  split.
  - intros H. unfold toChecksumAddress. now rewrite H.
  - intros a -> Ha Hascii.
    assert (Ht : truthy (Some a) = true) by (destruct a; [contradiction | reflexivity]).
    exists (checksumChars (paddedAddress a) (keccak256Hex env (paddedAddress a))).
    destruct (checksumChars_lower (paddedAddress a) (keccak256Hex env (paddedAddress a))
                (paddedAddress_ascii a Hascii))
      as [Hl Hlen].
    rewrite paddedAddress_lower in Hl.
    pose proof (paddedAddress_length a) as H40.
    split; [|split; [exact Hl|split; [exact Hlen|split; [lia|]]]].
    + now apply toChecksumAddress_truthy.
    + set (c := checksumChars (paddedAddress a) (keccak256Hex env (paddedAddress a))) in *.
      assert (Hp : paddedAddress ("0x" +:+ c) = paddedAddress a).
      { rewrite paddedAddress_of_checksum by lia. exact Hl. }
      rewrite toChecksumAddress_truthy by discriminate.
      now rewrite Hp.
Qed.

Lemma X7_checksum_changes_case_only_witness :
  exists c,
    toChecksumAddress (Samples.env [])
      (Some "0x9F510b19f1ad66f0dcf6e45559fab0d6752c1db7") = Some ("0x" +:+ c) /\
    toLowerCase c = "9f510b19f1ad66f0dcf6e45559fab0d6752c1db7".
Proof.
  destruct (proj2 (X7_checksum_changes_case_only (Samples.env [])
                     (Some "0x9F510b19f1ad66f0dcf6e45559fab0d6752c1db7"))
              "0x9F510b19f1ad66f0dcf6e45559fab0d6752c1db7" eq_refl)
    as (c & H1 & H2 & _); [discriminate | reflexivity |].
  exists c. split; [exact H1 | exact H2].
Defined.

End AddressExtras.

Section PaddingExtras.
Import Js Utils Padding MoreNotions.

Lemma removeLeftZeros_shape (v : string) :
  removeLeftZeros v false <> "" /\
  (removeLeftZeros v false = "0" \/ startsWith "0" (removeLeftZeros v false) = false).
Proof.
  unfold removeLeftZeros.
  destruct (stripZeros_head (strip0x v)) as [E|E].
  - rewrite E. cbn. split; [discriminate | now left].
  - destruct (String.eqb_spec (stripZeros (strip0x v)) "") as [E0|Hne].
    + split; [discriminate | now left].
    + split; [exact Hne | now right].
Qed.

(** X8: [removeLeftZeros] never returns an empty number: without the
    prefix its result is "0" or does not start with a zero, and with the
    prefix it is [0x] followed by that; applying it again changes
    nothing; and on a non-empty string of hexadecimal digits it keeps
    the number that [parseInt] reads. *)
Theorem X8_removeLeftZeros_canonical (v : string) :
  removeLeftZeros v false <> "" /\
  (removeLeftZeros v false = "0" \/ startsWith "0" (removeLeftZeros v false) = false) /\
  removeLeftZeros v true = "0x" +:+ removeLeftZeros v false /\
  removeLeftZeros (removeLeftZeros v false) false = removeLeftZeros v false /\
  removeLeftZeros (removeLeftZeros v true) true = removeLeftZeros v true /\
  (allHex v = true -> v <> "" ->
     parseInt16 (removeLeftZeros v true) = parseInt16 v
     /\ parseInt16 (removeLeftZeros v false) = parseInt16 v).
Proof.
  destruct (removeLeftZeros_shape v) as [Hne Hshape].
  assert (Hidem : removeLeftZeros (removeLeftZeros v false) false = removeLeftZeros v false).
  { destruct Hshape as [E|E].
    - rewrite E. reflexivity.
    - unfold removeLeftZeros at 1.
      rewrite (strip0x_no_zero _ E), (stripZeros_fixed _ E).
      destruct (String.eqb_spec (removeLeftZeros v false) "") as [E0|_];
        [contradiction | reflexivity]. }
  assert (Hpre : removeLeftZeros v true = "0x" +:+ removeLeftZeros v false) by reflexivity.
  split; [exact Hne|]. split; [exact Hshape|]. split; [exact Hpre|].
  split; [exact Hidem|]. split.
  - assert (G : forall r, removeLeftZeros ("0x" +:+ r) true
                = "0x" +:+ (if String.eqb (stripZeros r) "" then "0" else stripZeros r))
      by reflexivity.
    rewrite Hpre, G.
    destruct Hshape as [E|E].
    + rewrite E. reflexivity.
    + rewrite (stripZeros_fixed _ E).
      destruct (String.eqb_spec (removeLeftZeros v false) "") as [E0|_];
        [contradiction | reflexivity].
  - intros Hv Hnv.
    assert (Hval : hexDigits None (removeLeftZeros v false) = hexDigits None v).
    { unfold removeLeftZeros. rewrite (strip0x_allHex v Hv).
      rewrite (hexDigits_None_Some0 v Hv Hnv), <- hexDigits_stripZeros.
      destruct (String.eqb_spec (stripZeros v) "") as [E0|Hn0].
      - rewrite E0. reflexivity.
      - apply hexDigits_None_Some0; [now apply allHex_stripZeros | exact Hn0]. }
    assert (Hall : allHex (removeLeftZeros v false) = true).
    { unfold removeLeftZeros. rewrite (strip0x_allHex v Hv).
      destruct (String.eqb_spec (stripZeros v) "") as [E0|Hn0];
        [reflexivity | now apply allHex_stripZeros]. }
    split.
    + rewrite Hpre, parseInt16_0x, Hval. symmetry. now apply parseInt16_allHex.
    + rewrite (parseInt16_allHex _ Hall), Hval. symmetry. now apply parseInt16_allHex.
Qed.

Lemma X8_removeLeftZeros_canonical_witness :
  parseInt16 (removeLeftZeros "000a0" true) = parseInt16 "000a0" /\
  removeLeftZeros "0000" true = "0x0".
Proof.
  split; [|reflexivity].
  apply (proj2 (proj2 (proj2 (proj2 (proj2 (X8_removeLeftZeros_canonical "000a0"))))));
    [reflexivity | discriminate].
Defined.

(** X9: [leftPadZerosEvenBytes] returns [0x] followed by an even number
    of characters, the input without its prefix with at most one zero
    put in front, and applying it again changes nothing;
    [leftPadZerosToWidth] returns [0x] followed by the input without its
    prefix with zeros put in front up to the width, never cutting a
    longer input. *)
Theorem X9_left_padding (value : string) (width : nat) :
  (exists t,
     leftPadZerosEvenBytes value = "0x" +:+ t /\
     (String.length t mod 2 = 0)%nat /\
     (t = strip0x value \/ t = "0" +:+ strip0x value) /\
     leftPadZerosEvenBytes (leftPadZerosEvenBytes value) = leftPadZerosEvenBytes value) /\
  (exists k,
     leftPadZerosToWidth value width = "0x" +:+ zeros k +:+ strip0x value /\
     String.length (zeros k +:+ strip0x value)
     = Nat.max width (String.length (strip0x value))).
Proof.
  split.
  - unfold leftPadZerosEvenBytes.
    destruct (Nat.eqb_spec (String.length (strip0x value) mod 2) 0) as [E|E].
    + exists (strip0x value). repeat split; [exact E | now left |].
      change (strip0x ("0x" +:+ strip0x value)) with (strip0x value).
      now rewrite (proj2 (Nat.eqb_eq _ _) E).
    + exists ("0" +:+ strip0x value).
      assert (E2 : (String.length ("0" +:+ strip0x value) mod 2 = 0)%nat).
      { change (String.length ("0" +:+ strip0x value))
          with (S (String.length (strip0x value))).
        generalize dependent (String.length (strip0x value)). intros n Hn.
        pose proof (Nat.mod_upper_bound n 2).
        pose proof (Nat.div_mod_eq n 2).
        pose proof (Nat.div_mod_eq (S n) 2).
        pose proof (Nat.mod_upper_bound (S n) 2).
        lia. }
      repeat split; [exact E2 | now right |].
      change (strip0x ("0x0" +:+ strip0x value)) with ("0" +:+ strip0x value).
      now rewrite (proj2 (Nat.eqb_eq _ _) E2).
  - exists (width - String.length (strip0x value))%nat.
    split; [reflexivity|].
    rewrite length_append, length_zeros. lia.
Qed.

End PaddingExtras.

(** ** More on [eth_getLogs] *)
Section GetLogsExtras.
Import Js Utils GetLogs MoreNotions.

(** X10: the address test of [logFilterMatch].  No filter and an empty
    string let every log through; a string lets a log through iff the
    two addresses are equal after removing [0x], lower-casing and
    removing leading zero bytes; a list lets a log through iff one of
    its entries does, so the empty list lets no log through. *)
Theorem X10_address_filter (log : Log) :
  logFilterMatch log None None = true /\
  logFilterMatch log (Some (AddrOne "")) None = true /\
  (forall a, a <> "" ->
     (logFilterMatch log (Some (AddrOne a)) None = true <->
      normalizeHex true a = normalizeHex true (toLowerCase (log_address log)))) /\
  (forall l,
     logFilterMatch log (Some (AddrMany l)) None = true <->
     exists a, In a l /\
       normalizeHex true a = normalizeHex true (toLowerCase (log_address log))) /\
  logFilterMatch log (Some (AddrMany [])) None = false.
Proof.
  split; [reflexivity|]. split; [reflexivity|]. split; [|split; [|reflexivity]].
  - intros a Ha. unfold logFilterMatch.
    assert (Ht : addressFilterTruthy (Some (AddrOne a)) = true)
      by (destruct a; [contradiction | reflexivity]).
    rewrite Ht, !removeZeroHexFromFilter_Some.
    case_bool_decide as E; cbn [negb]; split; intros H; congruence.
  - intros l. unfold logFilterMatch. cbn [addressFilterTruthy].
    rewrite removeZeroHexFromFilter_Some. unfold removeZeroHexFromFilterArray.
    case_bool_decide as E; cbn [negb].
    + split; [intros _ | reflexivity].
      apply list_elem_of_fmap in E. destruct E as (o & Ho & Hin).
      apply list_elem_of_fmap in Hin. destruct Hin as (a & -> & Hin).
      rewrite removeZeroHexFromFilter_Some in Ho.
      exists a. split; [now apply list_elem_of_In | congruence].
    + split; [discriminate|]. intros (a & Hin & Ha). exfalso. apply E.
      apply list_elem_of_fmap. exists (Some a). split.
      * rewrite removeZeroHexFromFilter_Some. now rewrite Ha.
      * apply list_elem_of_fmap. exists a. split; [reflexivity | now apply list_elem_of_In].
Qed.

Lemma X10_address_filter_witness :
  logFilterMatch Samples.log1
    (Some (AddrOne "0x0000000000000000000000009F510B19F1AD66F0DCF6E45559FAB0D6752C1DB7"))
    None = true.
Proof.
  apply (proj1 (proj2 (proj2 (X10_address_filter Samples.log1))));
    [discriminate | reflexivity].
Defined.

Lemma lowerAddresses_null (l : list (option string)) :
  In None l ->
  lowerAddresses l
  = Throw (typeError "Cannot read properties of null (reading 'startsWith')").
Proof.
  induction l as [|[a|] l IH]; intros Hin.
  - contradiction.
  - destruct Hin as [Hin|Hin]; [discriminate Hin|].
    cbn [lowerAddresses]. now rewrite (IH Hin).
  - reflexivity.
Qed.

(** X11: what [eth_getLogs] swallows and what it lets out.  A failure
    of its search never comes out: once the query is prepared the
    handler returns a list, the empty one when the search throws.  A
    failure while the query is prepared does come out, the preparation
    being outside the [try]: a missing filter object throws a
    [TypeError] before any call, and a [null] entry in a list of
    addresses throws one after the block selection. *)
Theorem X11_getLogs_swallows_search_failure (env : Env) (params : Params) :
  (isOk (outcome (selectBlocks env params)) = true ->
   isOk (prepareAddress (p_address params)) = true ->
   isOk (outcome (eth_getLogs env (Some params))) = true /\
   ((forall q, isOk (searchActions env q) = false) ->
    outcome (eth_getLogs env (Some params)) = Ok []))
  /\
  eth_getLogs env None
  = mkEff [] (Throw (typeError "Cannot read properties of undefined (reading 'address')"))
  /\
  (forall l,
     p_address params = Some (PAddrMany l) -> In None l ->
     isOk (outcome (selectBlocks env params)) = true ->
     outcome (eth_getLogs env (Some params))
     = Throw (typeError "Cannot read properties of null (reading 'startsWith')")).
Proof.
  split; [|split; [reflexivity|]].
  - intros Hok Hadr. unfold eth_getLogs.
    destruct (selectBlocks env params) as [cs [[[[bh fb] tb] clause]|e0]];
      [|discriminate Hok].
    unfold mbind at 1, Eff_bind; cbn [outcome calls].
    destruct (prepareAddress (p_address params)) as [[af acl]|e0];
      [|discriminate Hadr].
    unfold mbind at 1, Eff_bind; cbn [outcome calls].
    unfold tryCatch, Aux.search, mbind, Eff_bind, mret, Eff_ret. cbn [outcome calls].
    match goal with
    | |- context [searchActions env ?q] =>
        destruct (searchActions env q) as [hits|e1] eqn:E
    end; cbn [outcome calls isOk]; (split; [reflexivity|]); intros Hdown.
    + match type of E with
      | searchActions env ?q = _ => specialize (Hdown q); rewrite E in Hdown
      end.
      discriminate Hdown.
    + reflexivity.
  - intros l Hl Hin Hok. unfold eth_getLogs.
    destruct (selectBlocks env params) as [cs [[[[bh fb] tb] clause]|e0]];
      [|discriminate Hok].
    unfold mbind at 1, Eff_bind; cbn [outcome calls].
    rewrite Hl. unfold prepareAddress. cbn [addressParamTruthy].
    destruct l as [|x l]; [contradiction|].
    cbn [List.length Nat.ltb Nat.leb].
    rewrite (lowerAddresses_null (x :: l) Hin).
    reflexivity.
Qed.

Lemma X11_getLogs_swallows_search_failure_witness :
  outcome (eth_getLogs MoreSamples.searchDown
             (Some (mkParams None None None (JStr "0x1") (JStr "0x10")))) = Ok []
  /\
  outcome (eth_getLogs (Samples.env [Samples.docA])
             (Some (mkParams (Some (PAddrMany [Some "0xAb"; None])) None None
                      (JStr "0x1") (JStr "0x10"))))
  = Throw (typeError "Cannot read properties of null (reading 'startsWith')").
Proof.
  split.
  - apply (proj1 (X11_getLogs_swallows_search_failure MoreSamples.searchDown
                    (mkParams None None None (JStr "0x1") (JStr "0x10"))));
      reflexivity.
  - apply (proj2 (proj2 (X11_getLogs_swallows_search_failure (Samples.env [Samples.docA])
                    (mkParams (Some (PAddrMany [Some "0xAb"; None])) None None
                       (JStr "0x1") (JStr "0x10"))))
             [Some "0xAb"; None]);
      [reflexivity | right; left; reflexivity | reflexivity].
Defined.

End GetLogsExtras.

(** ** More on the dispatcher *)
Section DispatcherMoreFacts.
Import Js Dispatcher Notions MoreNotions.
Variable methods : gmap string Handler.

Lemma catchHandler_envelope (i : option Json) (v : string) (e : Exn) (response : Envelope) :
  catchHandler i v e = Ok response ->
  exists err, response = Failure i v err /\ code err <> 0 /\
    (ex_isTransactionError e = false -> code err = 3 /\ data err = None) /\
    (ex_isTransactionError e = true ->
       message err = ex_errorMessage e /\ data err = ex_data e /\
       (forall c, ex_code e = Some c -> c <> 0 -> code err = c)).
Proof.
  unfold catchHandler. destruct (ex_isTransactionError e).
  - intros H. injection H as <-. eexists. split; [reflexivity|]. cbn [code message data].
    split; [|split; [discriminate|]].
    + destruct (ex_code e) as [c|]; [|discriminate].
      destruct (Z.eqb_spec c 0); [discriminate | assumption].
    + intros _. repeat split. intros c -> Hc.
      destruct (Z.eqb_spec c 0); [contradiction | reflexivity].
  - intros H.
    assert (G : exists m, response = Failure i v (mkRpcError 3 m None)).
    { repeat case_match; simplify_eq/=; eauto. }
    destruct G as [m ->]. eexists. split; [reflexivity|]. cbn [code data].
    split; [discriminate|]. split; [now split | discriminate].
Qed.

(** Every envelope that [doRpcMethod] returns carries the [id] of the
    request and the version "2.0". *)
Lemma doRpcMethod_echo (request : Request) (st : St) (e : Envelope) :
  (doRpcMethod methods (Some request) st).2 = Ok e ->
  envelopeId e = id request /\ envelopeVersion e = "2.0".
Proof.
  unfold doRpcMethod, jsonRPC2Error. cbv zeta.
  destruct (jsonIsString _ "2.0"); cbn [negb].
  - destruct (method request ≫= (methods !!.)) as [func|]; cbn [snd].
    + destruct (func (params request)) as [result|ex]; cbn [snd].
      * intros H. injection H as <-. now split.
      * intros H. destruct (catchHandler_envelope _ _ _ _ H) as (err & -> & _).
        now split.
    + intros H. injection H as <-. now split.
  - cbn [snd]. intros H. injection H as <-. now split.
Qed.

Lemma envelopeOf_total (request : Request) :
  SafeRegistry methods -> exists e, envelopeOf methods (Some request) = Ok e.
Proof.
  intros Hsafe. unfold envelopeOf, doRpcMethod, jsonRPC2Error. cbv zeta.
  destruct (negb (jsonIsString _ "2.0")); cbn [snd]; [eauto|].
  destruct (method request) as [m|]; cbn [mbind option_bind]; [|cbn [snd]; eauto].
  destruct (methods !! m) as [func|] eqn:L; cbn [snd]; [|eauto].
  destruct (func (params request)) as [result|ex] eqn:F; cbn [snd]; [eauto|].
  apply catchHandler_total. exact (Hsafe m func (params request) ex L F).
Qed.

Lemma batch_envelopes (requests : list Request) :
  SafeRegistry methods ->
  exists responses,
    Forall2 (fun request e => envelopeOf methods (Some request) = Ok e) requests responses.
Proof.
  intros Hsafe. induction requests as [|r rest [responses IH]].
  - exists []. constructor.
  - destruct (envelopeOf_total r Hsafe) as [e He].
    exists (e :: responses). now constructor.
Qed.

(** A [null] entry rejects the batch, when every other entry gets an
    envelope. *)
Lemma promiseAll_null (entries : list (option Request)) :
  SafeRegistry methods ->
  In None entries ->
  promiseAll (map (envelopeOf methods) entries)
  = Throw (typeError
      "Cannot destructure property 'jsonrpc' of 'jsonRpcRequest' as it is null.").
Proof.
  intros Hsafe. induction entries as [|[r|] rest IH]; intros Hin.
  - contradiction.
  - destruct Hin as [Hin|Hin]; [discriminate Hin|].
    cbn [map promiseAll].
    destruct (envelopeOf_total r Hsafe) as [e ->].
    now rewrite (IH Hin).
  - reflexivity.
Qed.

End DispatcherMoreFacts.

Section DispatcherExtras.
Import Js Dispatcher Notions MoreNotions.

(** X12: every envelope that [doRpcMethod] returns, a result or an
    error of any kind, carries the [id] of its request and the
    version "2.0". *)
Theorem X12_envelope_echoes_id
    (methods : gmap string Handler) (request : Request) (st : St) (e : Envelope) :
  (doRpcMethod methods (Some request) st).2 = Ok e ->
  envelopeId e = id request /\ envelopeVersion e = "2.0".
Proof. apply doRpcMethod_echo. Qed.

Lemma X12_envelope_echoes_id_witness :
  envelopeId (Failure (Some (JsNumber 3)) "2.0"
                (mkRpcError (-32601) (Some "Invalid method: bogus") None))
  = Some (JsNumber 3).
Proof.
  apply (proj1 (X12_envelope_echoes_id Samples.methods (Samples.request 3 "bogus")
                  Samples.st0 _ eq_refl)).
Defined.

(** X13: when every exception that a registered method can throw is one
    the [catch] block handles (a [TransactionError], an error that is
    not a ledger assertion failure, or an assertion failure with a first
    detail message), a non-empty batch whose entries are all request
    objects is answered by an array with one envelope per request, in
    the order of the requests, each with the [id] of its request; and a
    batch with an entry that is [null] is rejected as a whole, with the
    [TypeError] of the destructuring, whatever its other entries. *)
Theorem X13_safe_registry_answers_every_batch
    (methods : gmap string Handler) (requests : list Request)
    (entries : list (option Request)) (st : St) :
  SafeRegistry methods ->
  (requests <> [] ->
   exists responses,
     (doRpcPayload methods (PArray (map Some requests)) st).2 = Ok (RBatch responses) /\
     Forall2 (fun request e =>
                envelopeOf methods (Some request) = Ok e /\
                envelopeId e = id request /\ envelopeVersion e = "2.0")
             requests responses)
  /\
  (In None entries ->
   (doRpcPayload methods (PArray entries) st).2
   = Throw (typeError
       "Cannot destructure property 'jsonrpc' of 'jsonRpcRequest' as it is null.")).
Proof.
  intros Hsafe. split.
  - intros Hne.
    destruct (batch_envelopes methods requests Hsafe) as [responses Hall].
    exists responses. split.
    + apply doRpcPayload_batch; [now destruct requests|].
      now apply Forall2_fmap_l.
    + eapply Forall2_impl; [exact Hall|].
      intros r e He. split; [exact He|].
      apply (doRpcMethod_echo methods r (mkSt None [])). exact He.
  - intros Hin. unfold doRpcPayload.
    destruct entries as [|x rest]; [contradiction|]. cbn [List.length Nat.eqb].
    pose proof (startAll_outcomes methods (x :: rest) st) as H.
    destruct (startAll methods (x :: rest) st) as [st' promises]. cbn [snd] in H.
    rewrite H, (promiseAll_null methods (x :: rest) Hsafe Hin). reflexivity.
Qed.

Lemma X13_safe_registry_answers_every_batch_witness :
  (exists responses,
     (doRpcPayload MoreSamples.safeMethods
        (PArray [Some (Samples.request 1 "eth_call"); Some (Samples.request 2 "eth_chainId")])
        Samples.st0).2 = Ok (RBatch responses) /\
     Forall2 (fun request e =>
                envelopeOf MoreSamples.safeMethods (Some request) = Ok e /\
                envelopeId e = id request /\ envelopeVersion e = "2.0")
             [Samples.request 1 "eth_call"; Samples.request 2 "eth_chainId"] responses)
  /\
  (doRpcPayload MoreSamples.safeMethods
     (PArray [Some (Samples.request 1 "eth_chainId"); None]) Samples.st0).2
  = Throw (typeError
      "Cannot destructure property 'jsonrpc' of 'jsonRpcRequest' as it is null.").
Proof.
  assert (Hsafe : SafeRegistry MoreSamples.safeMethods).
  { intros m h params e Hl Hh. left.
    unfold MoreSamples.safeMethods in Hl.
    apply lookup_insert_Some in Hl. destruct Hl as [[_ <-] | [_ Hl]]; [discriminate Hh|].
    apply lookup_insert_Some in Hl. destruct Hl as [[_ <-] | [_ Hl]].
    - injection Hh as <-. reflexivity.
    - rewrite lookup_empty in Hl. discriminate Hl. }
  split.
  - apply (proj1 (X13_safe_registry_answers_every_batch MoreSamples.safeMethods
                    [Samples.request 1 "eth_call"; Samples.request 2 "eth_chainId"]
                    [] Samples.st0 Hsafe)).
    discriminate.
  - apply (proj2 (X13_safe_registry_answers_every_batch MoreSamples.safeMethods
                    [] [Some (Samples.request 1 "eth_chainId"); None] Samples.st0 Hsafe)).
    right. left. reflexivity.
Defined.

(** X14: the errors that the [catch] block of [doRpcMethod] builds.
    The code of an error envelope is never 0; a [TransactionError]
    gives its own message and data, and its own code when that is not
    0; any other exception gives code 3 and no data; and the message of
    a ledger assertion failure is surfaced without the prefix
    "assertion failure with message: ". *)
Theorem X14_catch_block_errors (i : option Json) (v : string) (e : Exn) :
  (forall response, catchHandler i v e = Ok response ->
     exists err, response = Failure i v err /\ code err <> 0 /\
       (ex_isTransactionError e = false -> code err = 3 /\ data err = None) /\
       (ex_isTransactionError e = true ->
          message err = ex_errorMessage e /\ data err = ex_data e /\
          (forall c, ex_code e = Some c -> c <> 0 -> code err = c))) /\
  (forall m rest,
     ex_isTransactionError e = false ->
     ex_json_error e
       = Some (mkLedgerError 3050003 (Some (Some (EOSIO_ASSERTION_PREFIX +:+ m) :: rest))) ->
     catchHandler i v e = Ok (Failure i v (mkRpcError 3 (Some m) None))).
Proof.
  split; [intros response; apply catchHandler_envelope|].
  intros m rest Ht Hj. unfold catchHandler. rewrite Ht, Hj.
  cbn [le_code le_details mbind option_bind Z.eqb Pos.eqb lookup list_lookup mjoin option_join].
  assert (Hs : startsWith EOSIO_ASSERTION_PREFIX (EOSIO_ASSERTION_PREFIX +:+ m) = true)
    by (apply startsWith_spec; now exists m).
  rewrite Hs. now rewrite drop_app.
Qed.

Lemma X14_catch_block_errors_witness :
  catchHandler (Some (JsNumber 1)) "2.0"
    (mkExn false None None None None
       (Some (mkLedgerError 3050003
                (Some [Some "assertion failure with message: insufficient balance"]))))
  = Ok (Failure (Some (JsNumber 1)) "2.0"
          (mkRpcError 3 (Some "insufficient balance") None)).
Proof.
  apply (proj2 (X14_catch_block_errors (Some (JsNumber 1)) "2.0" _)
           "insufficient balance" []); reflexivity.
Defined.

End DispatcherExtras.

(** ** The trace handlers *)
Section TraceHandlerFacts.
Import Js Utils Traces TraceHandlers MoreNotions.
Variable env : Env.

Lemma eraseLinkage_makeTrace (receipt : Receipt) (itx : InternalCall) :
  eraseLinkage (makeTrace env receipt itx false) = makeTrace env receipt itx true.
Proof. reflexivity. Qed.

Lemma eraseLinkage_makeInitialTrace (receipt : Receipt) :
  eraseLinkage (makeInitialTrace env receipt false) = makeInitialTrace env receipt true.
Proof.
  unfold makeInitialTrace. destruct (r_errors receipt) as [[|e es]|]; reflexivity.
Qed.

Lemma insertByIndex_perm (x : Receipt) (l : list Receipt) :
  insertByIndex x l ≡ₚ x :: l.
Proof.
  induction l as [|y l IH]; [reflexivity|]. cbn [insertByIndex].
  destruct (r_trx_index x <? r_trx_index y); [reflexivity|].
  rewrite IH. apply Permutation_swap.
Qed.

Lemma insertByIndex_sorted (x : Receipt) (l : list Receipt) :
  StronglySorted byIndex l -> StronglySorted byIndex (insertByIndex x l).
Proof.
  induction 1 as [|y l Hs IH Hy]; cbn [insertByIndex].
  - repeat constructor.
  - destruct (Z.ltb_spec (r_trx_index x) (r_trx_index y)) as [Hlt|Hge].
    + constructor; [now constructor|].
      constructor; [unfold byIndex; lia|].
      eapply Forall_impl; [exact Hy|]. unfold byIndex. intros z Hz. lia.
    + constructor; [exact IH|].
      rewrite insertByIndex_perm. constructor; [exact Hge | exact Hy].
Qed.

Lemma sortByIndex_acc (l acc : list Receipt) :
  StronglySorted byIndex acc ->
  fold_left (fun acc x => insertByIndex x acc) l acc ≡ₚ acc ++ l
  /\ StronglySorted byIndex (fold_left (fun acc x => insertByIndex x acc) l acc).
Proof.
  revert acc; induction l as [|x l IH]; intros acc Hs; cbn [fold_left].
  - split; [now rewrite app_nil_r | exact Hs].
  - destruct (IH (insertByIndex x acc) (insertByIndex_sorted x acc Hs)) as [Hp Hs'].
    split; [|exact Hs'].
    rewrite Hp, insertByIndex_perm. cbn [app]. apply Permutation_middle.
Qed.

Lemma sortByIndex_spec (l : list Receipt) :
  sortByIndex l ≡ₚ l /\ StronglySorted byIndex (sortByIndex l).
Proof. apply (sortByIndex_acc l []). constructor. Qed.

Lemma replayLoop_map (transactions : list (TracesResult * string)) (l : list Receipt) :
  replayLoop env transactions l
  = transactions ++ map (fun r => (makeTraces env r true, r_hash r)) l.
Proof.
  revert transactions; induction l as [|r l IH]; intros transactions; cbn [replayLoop map].
  - now rewrite app_nil_r.
  - rewrite IH. now rewrite <- app_assoc.
Qed.

End TraceHandlerFacts.

Section TraceHandlerExtras.
Import Js Utils Traces TraceHandlers MoreNotions.

(** X15: the two modes of [makeTraces] build the same traces, one for
    the transaction and one per internal call in order; the filter mode
    sets on every trace the block hash, block number, transaction hash
    and position of the receipt, and the ad-hoc mode is the filter mode
    with these four fields left out.  The first trace counts the
    internal calls in [subtraces]. *)
Theorem X15_trace_modes_differ_by_linkage (env : Env) (receipt : Receipt) :
  tracesOf (makeTraces env receipt true)
  = map eraseLinkage (tracesOf (makeTraces env receipt false)) /\
  List.length (tracesOf (makeTraces env receipt false)) = S (List.length (r_itxs receipt)) /\
  (subtraces <$> head (tracesOf (makeTraces env receipt false)))
  = Some (Z.of_nat (List.length (r_itxs receipt))) /\
  (forall t, In t (tracesOf (makeTraces env receipt false)) ->
     blockHash t = Some ("0x" +:+ r_block_hash receipt) /\
     blockNumber t = Some (r_block receipt) /\
     transactionHash t = Some (r_hash receipt) /\
     transactionPosition t = Some (r_trx_index receipt)).
Proof.
  rewrite !makeTraces_shape. cbn [tracesOf ah_trace map].
  rewrite eraseLinkage_makeInitialTrace, map_map.
  split; [reflexivity|]. split; [cbn [List.length]; now rewrite length_map|].
  split.
  - cbn [head fmap option_fmap option_map]. f_equal.
    unfold makeInitialTrace. destruct (r_errors receipt) as [[|e es]|]; reflexivity.
  - intros t [<-|Hin].
    + unfold makeInitialTrace. destruct (r_errors receipt) as [[|e es]|]; repeat split.
    + apply in_map_iff in Hin. destruct Hin as (itx & <- & _). repeat split.
Qed.

Lemma X15_trace_modes_differ_by_linkage_witness :
  transactionHash (makeInitialTrace (Samples.env []) (d_raw Samples.docB) false)
  = Some "0xb2".
Proof.
  apply (proj2 (proj2 (proj2 (X15_trace_modes_differ_by_linkage (Samples.env [])
                                (d_raw Samples.docB))))).
  left. reflexivity.
Defined.

(** X16: [trace_replayBlockTransactions] throws, without any call, when
    the trace types are not exactly the one type "trace".  Otherwise,
    when the block parameter resolves to a number and the search for
    the receipts of that block number succeeds, what it returns is one
    ad-hoc envelope per receipt found by that search, each with the
    hash of its receipt, in ascending order of the position of the
    receipts in the block. *)
Theorem X16_replay_block_is_sorted_by_position
    (env : Env) (block : option string) (traceTypes : list string) :
  (traceTypes <> ["trace"] ->
   trace_replayBlockTransactions env block traceTypes
   = mkEff [] (Throw (newError ("trace_replayBlockTransactions" +:+ onlyTraceMessage))))
  /\
  (forall (blockParam : option string) (hits : list ReceiptDoc),
     outcome (Aux.toBlockNumber env block) = Ok blockParam ->
     searchActions env
       {| q_size := 2000;
          q_must := [Term "@raw.block"
                       (TvNum (parseInt16 (default "undefined" blockParam)))];
          q_sort := None |} = Ok hits ->
     exists receipts : list Receipt,
       receipts ≡ₚ map d_raw hits /\
       StronglySorted byIndex receipts /\
       outcome (trace_replayBlockTransactions env block ["trace"])
       = Ok (map (fun r => (TraceEnvelope
                              {| ah_output := "0x" +:+ r_output r;
                                 ah_stateDiff := None;
                                 ah_trace := tracesOf (makeTraces env r true);
                                 ah_vmTrace := None |},
                            r_hash r)) receipts)).
Proof.
  split.
  - intros Hne. unfold trace_replayBlockTransactions.
    assert (E : notOnlyTrace traceTypes = true).
    { unfold notOnlyTrace.
      destruct traceTypes as [|t [|t2 rest]]; try reflexivity.
      cbn. case_bool_decide as Ht; [|reflexivity]. congruence. }
    now rewrite E.
  - intros blockParam hits Hbp Hs. unfold trace_replayBlockTransactions.
    change (notOnlyTrace ["trace"]) with false. cbv iota.
    unfold Aux.getReceiptsByTerm, Aux.search.
    destruct (Aux.toBlockNumber env block) as [cs [bp|e]];
      cbn [outcome] in Hbp; [|discriminate Hbp].
    injection Hbp as ->.
    unfold mbind at 1, Eff_bind; cbn [outcome calls].
    unfold mbind, Eff_bind, mret, Eff_ret. cbn [outcome calls].
    rewrite Hs. cbn [outcome calls].
    destruct (sortByIndex_spec (map d_raw hits)) as [Hp Hsorted].
    exists (sortByIndex (map d_raw hits)).
    split; [exact Hp|]. split; [exact Hsorted|].
    rewrite replayLoop_map. cbn [app]. apply f_equal, map_ext.
    intros r. now rewrite makeTraces_shape.
Qed.

Lemma X16_replay_block_is_sorted_by_position_witness :
  exists receipts : list Receipt,
    receipts ≡ₚ map d_raw [Samples.docB; Samples.docA] /\
    StronglySorted byIndex receipts /\
    outcome (trace_replayBlockTransactions (Samples.env [Samples.docB; Samples.docA])
               (Some "0x7") ["trace"])
    = Ok (map (fun r => (TraceEnvelope
                           {| ah_output := "0x" +:+ r_output r;
                              ah_stateDiff := None;
                              ah_trace :=
                                tracesOf (makeTraces (Samples.env [Samples.docB; Samples.docA])
                                            r true);
                              ah_vmTrace := None |},
                         r_hash r)) receipts).
Proof.
  apply (proj2 (X16_replay_block_is_sorted_by_position
                  (Samples.env [Samples.docB; Samples.docA]) (Some "0x7") ["trace"])
           (Some "0x7") [Samples.docB; Samples.docA]);
    reflexivity.
Defined.

End TraceHandlerExtras.

Section TraceFilterFacts.
Import Js Utils Traces TraceHandlers MoreNotions.
Variable env : Env.
Variable searchItxs : ItxQuery -> Result (list ReceiptDoc).

Lemma Eff_ret_bind {A B} (a : A) (f : A -> Eff B) : (mret a ≫= f) = f a.
Proof. unfold mbind, Eff_bind, mret, Eff_ret. cbn. now destruct (f a). Qed.

Lemma toBlockNumber_plain (p : option string) :
  isTag p = false -> Aux.toBlockNumber env p = mret p.
Proof.
  unfold isTag, Aux.toBlockNumber. intros H.
  apply orb_false_iff in H. destruct H as [H He].
  rewrite H, He. reflexivity.
Qed.

Lemma pushHits_spec (results : list Trace) (hits : list ReceiptDoc) :
  pushHits env results hits = results ++ tracesOfHits env hits.
Proof.
  unfold pushHits, tracesOfHits.
  assert (G : forall doc l r0,
             fold_left (fun results itx => results ++ [filterTrace env doc itx]) l r0
             = r0 ++ map (filterTrace env doc) l).
  { intros doc l. induction l as [|itx l IH]; intros r0; cbn [fold_left map].
    - now rewrite app_nil_r.
    - rewrite IH. now rewrite <- app_assoc. }
  revert results; induction hits as [|doc hits IH]; intros results;
    cbn [fold_left flat_map].
  - now rewrite app_nil_r.
  - rewrite G, IH. now rewrite <- app_assoc.
Qed.

Lemma filterGroups_plain_step (results : list Trace) (g : FilterGroup)
    (rest : list FilterGroup) :
  PlainGroup g ->
  filterGroups env searchItxs results (g :: rest)
  = match searchItxs (plainQuery env g) with
    | Ok hits => filterGroups env searchItxs (results ++ tracesOfHits env hits) rest
    | Throw _ => mret []
    end.
Proof.
  intros [Hf Ht]. cbn [filterGroups].
  pose proof (toBlockNumber_plain (g_fromBlock g) Hf) as E1.
  pose proof (toBlockNumber_plain (g_toBlock g) Ht) as E2.
  rewrite E1, Eff_ret_bind, E2, Eff_ret_bind.
  unfold plainQuery. destruct (searchItxs _); [|reflexivity].
  now rewrite pushHits_spec.
Qed.

Lemma filterGroups_all_ok (params : list FilterGroup) (results : list Trace) :
  Forall PlainGroup params ->
  Forall (fun g => isOk (searchItxs (plainQuery env g)) = true) params ->
  filterGroups env searchItxs results params
  = mkEff [] (Ok (results
                  ++ flat_map (fun g => tracesOfHits env (hitsOf env searchItxs g)) params)).
Proof.
  intros Hp; revert results; induction Hp as [|g rest Hg _ IH]; intros results Hok.
  - cbn. now rewrite app_nil_r.
  - rewrite filterGroups_plain_step by exact Hg.
    inversion Hok as [|? ? Hg_ok Hrest]; subst.
    cbn [flat_map]. unfold hitsOf at 1.
    destruct (searchItxs (plainQuery env g)) as [hits|e]; [|discriminate Hg_ok].
    rewrite IH by exact Hrest. now rewrite <- app_assoc.
Qed.

Lemma filterGroups_some_fail (params : list FilterGroup) (results : list Trace) :
  Forall PlainGroup params ->
  List.Exists (fun g => isOk (searchItxs (plainQuery env g)) = false) params ->
  filterGroups env searchItxs results params = mkEff [] (Ok []).
Proof.
  intros Hp; revert results; induction Hp as [|g rest Hg _ IH]; intros results Hex.
  - inversion Hex.
  - rewrite filterGroups_plain_step by exact Hg.
    destruct (searchItxs (plainQuery env g)) as [hits|e] eqn:E; [|reflexivity].
    inversion Hex as [? ? Hbad|? ? Hlater]; subst.
    + rewrite E in Hbad. discriminate Hbad.
    + now apply IH.
Qed.

Lemma filterGroups_after (a : option Z) (params : list FilterGroup) (results : list Trace) :
  filterGroups env searchItxs results (map (withAfter a) params)
  = filterGroups env searchItxs results params.
Proof.
  revert results; induction params as [|g rest IH]; intros results; [reflexivity|].
  cbn [map filterGroups withAfter g_fromBlock g_toBlock g_fromAddress g_toAddress g_count].
  unfold mbind, Eff_bind.
  destruct (Aux.toBlockNumber env (g_fromBlock g)) as [c1 [fb|e1]];
    cbn [outcome calls]; [|reflexivity].
  destruct (Aux.toBlockNumber env (g_toBlock g)) as [c2 [tb|e2]];
    cbn [outcome calls]; [|reflexivity].
  destruct (searchItxs _); [|reflexivity].
  now rewrite IH.
Qed.

End TraceFilterFacts.

Section TraceFilterExtras.
Import Js Utils Traces TraceHandlers MoreNotions.

(** X17: [trace_filter] over groups whose block bounds are not tags.
    When the search of every group succeeds, the result is the traces of
    the internal calls of the hits, group after group and hit after hit,
    each trace being what [makeTrace] builds in filter mode except that
    the transaction hash gets a [0x] in front.  When the search of any
    one group throws, the result is the empty list, whatever the other
    groups found.  The [after] of a group has no effect on anything. *)
Theorem X17_trace_filter_groups
    (env : Env) (searchItxs : ItxQuery -> Result (list ReceiptDoc))
    (params : list FilterGroup) :
  (Forall PlainGroup params ->
   Forall (fun g => isOk (searchItxs (plainQuery env g)) = true) params ->
   trace_filter env searchItxs params
   = mkEff [] (Ok (flat_map (fun g => tracesOfHits env (hitsOf env searchItxs g)) params)))
  /\
  (Forall PlainGroup params ->
   List.Exists (fun g => isOk (searchItxs (plainQuery env g)) = false) params ->
   trace_filter env searchItxs params = mkEff [] (Ok []))
  /\
  (forall a, trace_filter env searchItxs (map (withAfter a) params)
             = trace_filter env searchItxs params)
  /\
  (forall doc itx,
     filterTrace env doc itx
     = withTransactionHash (Some ("0x" +:+ r_hash (d_raw doc)))
         (makeTrace env (d_raw doc) itx false)).
Proof.
  split; [|split; [|split]].
  - intros Hp Hok. unfold trace_filter.
    now rewrite (filterGroups_all_ok env searchItxs params [] Hp Hok).
  - intros Hp Hex. now apply filterGroups_some_fail.
  - intros a. apply filterGroups_after.
  - reflexivity.
Qed.

Lemma X17_trace_filter_groups_witness :
  trace_filter (Samples.env []) MoreSamples.searchItxs
    [MoreSamples.group 10; MoreSamples.group 1]
  = mkEff [] (Ok [])
  /\ List.length
       (match outcome (trace_filter (Samples.env []) MoreSamples.searchItxs
                         [MoreSamples.group 10]) with
        | Ok l => l
        | Throw _ => []
        end) = 2%nat.
Proof.
  split.
  - apply (proj1 (proj2 (X17_trace_filter_groups (Samples.env []) MoreSamples.searchItxs
                           [MoreSamples.group 10; MoreSamples.group 1]))).
    + repeat constructor.
    + right. left. reflexivity.
  - rewrite (proj1 (X17_trace_filter_groups (Samples.env []) MoreSamples.searchItxs
                      [MoreSamples.group 10])).
    + reflexivity.
    + repeat constructor.
    + repeat constructor.
Defined.

End TraceFilterExtras.

(** ** Blocks and transactions by hash *)
Section ByHashFacts.
Import Js Utils Reconstruction Blocks MoreNotions.
Variable env : Env.

Lemma reconstructStep_full (acc acc' : Acc) (d : ReceiptDoc) :
  reconstructStep env true acc d = Ok acc' ->
  exists t,
    a_trxs acc' = a_trxs acc ++ [t] /\
    BlockTxOf env (a_blockHash acc') (a_blockHex acc') d t.
Proof.
  unfold reconstructStep. destruct (getVRS env d) as [vrs|e] eqn:V; [|discriminate].
  cbn [mbind Result_bind mret Result_ret negb]. intros H. injection H as <-.
  cbn [a_trxs a_blockHash a_blockHex].
  eexists. split; [reflexivity|].
  eexists. split; [reflexivity|].
  unfold TxOfReceipt.
  cbn [tx_vrs tx_blockHash tx_blockNumber tx_from tx_to tx_hash tx_input
       tx_gasPrice tx_nonce tx_transactionIndex tx_gas tx_value].
  repeat split; exact V.
Qed.

Lemma reconstructLoop_full (receipts : list ReceiptDoc) (acc acc' : Acc) :
  truthy (a_blockHash acc) = true ->
  truthy (a_blockHex acc) = true ->
  reconstructLoop env true acc receipts = Ok acc' ->
  exists l,
    a_trxs acc' = a_trxs acc ++ l /\
    Forall2 (BlockTxOf env (a_blockHash acc) (a_blockHex acc)) receipts l.
Proof.
  revert acc; induction receipts as [|d receipts IH]; intros acc Hh Hx H.
  - injection H as <-. exists []. split; [now rewrite app_nil_r | constructor].
  - cbn [reconstructLoop] in H.
    destruct (reconstructStep env true acc d) as [acc1|e] eqn:E; [|discriminate H].
    cbn [mbind Result_bind] in H.
    destruct (reconstructStep_fields env true acc acc1 d E) as (H1 & H2 & _).
    rewrite Hh in H1. rewrite Hx in H2.
    destruct (reconstructStep_full acc acc1 d E) as (t & Ht & Hb).
    destruct (IH acc1) as (l & Hl & Hf); [congruence | congruence | exact H |].
    rewrite H1, H2 in Hb, Hf.
    exists (t :: l). split.
    + rewrite Hl, Ht, <- app_assoc. reflexivity.
    + now constructor.
Qed.

Lemma reconstructBlock_full (ds : list ReceiptDoc) (b : Block) (i : nat) (d : ReceiptDoc) :
  reconstructBlockFromReceipts env ds true = Ok b ->
  ds !! i = Some d ->
  exists t, transactions b !! i = Some t /\ BlockTxOf env (hash b) (number b) d t.
Proof.
  destruct ds as [|d0 rest]; [intros _ Hi; discriminate Hi|].
  unfold reconstructBlockFromReceipts. cbn [reconstructLoop].
  destruct (reconstructStep env true initialAcc d0) as [acc1|e] eqn:E; [|discriminate].
  cbn [mbind Result_bind].
  destruct (reconstructLoop env true acc1 rest) as [acc|e] eqn:L; [|discriminate].
  cbn [mret Result_ret]. intros H Hi. injection H as <-.
  cbn [hash number transactions].
  destruct (reconstructStep_fields env true initialAcc acc1 d0 E) as (H1 & H2 & _).
  cbn [initialAcc a_blockHash a_blockHex truthy] in H1, H2.
  destruct (reconstructStep_full initialAcc acc1 d0 E) as (t0 & Ht0 & Hb0).
  cbn [initialAcc a_trxs app] in Ht0.
  destruct (reconstructLoop_fields env true rest acc1 acc) as (G1 & G2 & _);
    [now rewrite H1 | now rewrite H2 | exact L |].
  destruct (reconstructLoop_full rest acc1 acc) as (l & Hl & Hf);
    [now rewrite H1 | now rewrite H2 | exact L |].
  rewrite G1, G2. rewrite Hl, Ht0. cbn [app].
  destruct i as [|j].
  - injection Hi as <-. exists t0. split; [reflexivity | exact Hb0].
  - cbn in Hi. destruct (Forall2_lookup_l _ _ _ _ _ Hf Hi) as (t & Ht & Hb).
    exists t. split; [exact Ht | exact Hb].
Qed.

Lemma toLowerCase_nonempty (h : string) :
  truthy (Some (toLowerCase h)) = truthy (Some h).
Proof. destruct h; reflexivity. Qed.

Lemma slice0x_lower_idem (h : string) :
  GetLogs.slice0x (toLowerCase (toLowerCase h)) = GetLogs.slice0x (toLowerCase h).
Proof. now rewrite toLowerCase_idem. Qed.

Lemma slice0x_prefixed (h : string) :
  startsWith "0x" (toLowerCase h) = false ->
  GetLogs.slice0x (toLowerCase ("0x" +:+ h)) = GetLogs.slice0x (toLowerCase h).
Proof.
  intros Hn. unfold GetLogs.slice0x. rewrite Hn.
  rewrite toLowerCase_app.
  change (toLowerCase "0x") with "0x".
  rewrite !append_cons, append_nil. reflexivity.
Qed.

End ByHashFacts.

Section ByHashExtras.
Import Js Utils Reconstruction Blocks MoreNotions.

(** X18: the two handlers that take a block hash.  The count handler
    makes one search, for the hash in lower case without its [0x], and
    the block handler reads the same receipts, so that the case of the
    hash and the prefix make no difference to what they return.
    Whenever [eth_getBlockByHash] returns a block, the count that
    [eth_getBlockTransactionCountByHash] returns is the number of its
    transactions.  When no receipt has the hash, the block is [null]
    unless the delta index holds the hash: a failure of that second
    search gives [null] too. *)
Theorem X18_block_by_hash
    (env : Env) (backend : Backend) (h : string) (full : bool) :
  calls (eth_getBlockTransactionCountByHash env h)
  = [CallSearch {| q_size := 2000;
                   q_must := [Term "@raw.block_hash"
                                (TvStr (GetLogs.slice0x (toLowerCase h)))];
                   q_sort := None |}]
  /\
  (outcome (eth_getBlockByHash env backend (toLowerCase h) full)
   = outcome (eth_getBlockByHash env backend h full)
   /\ eth_getBlockTransactionCountByHash env (toLowerCase h)
      = eth_getBlockTransactionCountByHash env h)
  /\
  (startsWith "0x" (toLowerCase h) = false ->
   outcome (eth_getBlockByHash env backend ("0x" +:+ h) full)
   = outcome (eth_getBlockByHash env backend h full)
   /\ eth_getBlockTransactionCountByHash env ("0x" +:+ h)
      = eth_getBlockTransactionCountByHash env h)
  /\
  (forall b,
     outcome (eth_getBlockByHash env backend h full) = Ok (Some b) ->
     outcome (eth_getBlockTransactionCountByHash env h)
     = Ok ("0x" +:+ toString16 (Z.of_nat (List.length (transactions b)))))
  /\
  (outcome (Aux.getReceiptsByTerm env "@raw.block_hash"
              (TvStr (GetLogs.slice0x (toLowerCase h)))) = Ok [] ->
   (outcome (eth_getBlockByHash env backend h full) = Ok None <->
    forall d, deltaByEvmBlockHash backend (GetLogs.slice0x (toLowerCase h))
              <> Ok (Some d))).
Proof.
  split; [|split; [|split; [|split]]].
  - unfold eth_getBlockTransactionCountByHash, Aux.getReceiptsByTerm, Aux.search.
    unfold mbind, Eff_bind, mret, Eff_ret. cbn [outcome calls].
    destruct (searchActions env _); reflexivity.
  - unfold eth_getBlockByHash, eth_getBlockTransactionCountByHash.
    now rewrite slice0x_lower_idem.
  - intros Hn. unfold eth_getBlockByHash, eth_getBlockTransactionCountByHash.
    now rewrite (slice0x_prefixed h Hn).
  - intros b.
    unfold eth_getBlockByHash, eth_getBlockTransactionCountByHash,
      Aux.getReceiptsByTerm, Aux.search.
    unfold mbind, Eff_bind, mret, Eff_ret. cbn [outcome calls].
    destruct (searchActions env _) as [receipts|e]; cbn [outcome calls];
      [|discriminate].
    unfold blockOrEmpty. destruct receipts as [|d rest]; cbn [List.length Nat.ltb Nat.leb].
    + unfold mret, Eff_ret. cbn [outcome]. intros H. injection H as H.
      unfold emptyBlockFromHash in H.
      destruct (deltaByEvmBlockHash backend _) as [[dl|]|e];
        [|discriminate H|discriminate H].
      injection H as <-; reflexivity.
    + unfold liftResult. cbn [outcome].
      destruct (reconstructBlockFromReceipts env (d :: rest) full) as [b0|e] eqn:E;
        [|discriminate].
      intros H. injection H as <-.
      destruct (reconstructBlock_fields env d rest full b0 E) as (_ & _ & _ & Hlen & _).
      now rewrite Hlen.
  - unfold eth_getBlockByHash, Aux.getReceiptsByTerm, Aux.search.
    unfold mbind, Eff_bind, mret, Eff_ret. cbn [outcome calls].
    destruct (searchActions env _) as [receipts|e]; cbn [outcome calls];
      [|discriminate].
    intros H. injection H as ->.
    unfold blockOrEmpty. cbn [List.length Nat.ltb Nat.leb].
    unfold mret, Eff_ret. cbn [outcome]. unfold emptyBlockFromHash.
    destruct (deltaByEvmBlockHash backend _) as [[dl|]|e]; split.
    + discriminate.
    + intros H. now destruct (H dl).
    + intros _ d. discriminate.
    + reflexivity.
    + intros _ d. discriminate.
    + reflexivity.
Qed.

Lemma X18_block_by_hash_witness :
  outcome (eth_getBlockByHash (Samples.env [Samples.docA; Samples.docB])
             MoreSamples.backend "0xAB" true)
  = outcome (eth_getBlockByHash (Samples.env [Samples.docA; Samples.docB])
               MoreSamples.backend "AB" true).
Proof.
  apply (proj1 (proj2 (proj2 (X18_block_by_hash
                                (Samples.env [Samples.docA; Samples.docB])
                                MoreSamples.backend "AB" true)))).
  reflexivity.
Defined.

(** X19: a transaction as [eth_getTransactionByHash] returns it and as
    a full block holds it.  When a block can be reconstructed in full
    mode from receipts, its transaction at a position is built from the
    receipt at that position; and for the receipt that the search by
    hash finds, [eth_getTransactionByHash] returns an object too, with
    the same sender, recipient, hash, input, gas price, nonce, position
    and signature.  The two differ in that the one of the block carries
    the hash and the number of the block, taken from its first receipt,
    has the gas used as [gas] and reads the value with [Number], while
    the one by hash carries the block hash and number of its own
    receipt, has the gas limit as [gas] and reads the value with
    [BN]. *)
Theorem X19_transaction_by_hash_and_in_block
    (env : Env) (backend : Backend) (ds : list ReceiptDoc) (b : Block)
    (i : nat) (d : ReceiptDoc) (trxHash : option string) :
  reconstructBlockFromReceipts env ds true = Ok b ->
  ds !! i = Some d ->
  searchActionByHash backend trxHash = Some d ->
  exists tx tx0,
    transactions b !! i = Some (TxFull tx) /\
    eth_getTransactionByHash env backend trxHash = Ok (Some tx0) /\
    TxOfReceipt env (hash b) (number b) d tx /\
    TxOfReceipt env (Some ("0x" +:+ r_block_hash (d_raw d)))
      (Some ("0x" +:+ toString16 (r_block (d_raw d)))) d tx0 /\
    tx_gas tx = "0x" +:+ toString16 (r_gasused (d_raw d)) /\
    tx_gas tx0 = "0x" +:+ toString16 (r_gas_limit (d_raw d)) /\
    tx_value tx = "0x" +:+ numToString16 (jsNumber env (r_value (d_raw d))) /\
    tx_value tx0 = "0x" +:+ bnToString16 env (Some (r_value (d_raw d))).
Proof.
  intros Hb Hi Hs.
  destruct (reconstructBlock_full env ds b i d Hb Hi) as (t & Ht & tx & -> & Hshared & Hg & Hv).
  unfold eth_getTransactionByHash. rewrite Hs.
  pose proof Hshared as (Hvrs & _). rewrite Hvrs.
  cbn [mbind Result_bind mret Result_ret].
  eexists tx, _. split; [exact Ht|]. split; [reflexivity|].
  split; [exact Hshared|]. split.
  - unfold TxOfReceipt.
    cbn [tx_vrs tx_blockHash tx_blockNumber tx_from tx_to tx_hash tx_input
         tx_gasPrice tx_nonce tx_transactionIndex numToHex].
    repeat split. exact Hvrs.
  - cbn [tx_gas tx_value numToHex]. repeat split; assumption.
Qed.

Lemma X19_transaction_by_hash_and_in_block_witness :
  exists tx0,
    eth_getTransactionByHash (Samples.env [Samples.docA; Samples.docB])
      MoreSamples.backend (Some "0xA1") = Ok (Some tx0)
    /\ tx_gas tx0 = "0x" +:+ toString16 (r_gas_limit (d_raw Samples.docA)).
Proof.
  destruct (reconstructBlockFromReceipts (Samples.env [Samples.docA; Samples.docB])
              [Samples.docA; Samples.docB] true) as [b|e] eqn:E;
    [|discriminate E].
  destruct (X19_transaction_by_hash_and_in_block
              (Samples.env [Samples.docA; Samples.docB]) MoreSamples.backend
              [Samples.docA; Samples.docB] b 0%nat Samples.docA (Some "0xA1")
              E eq_refl eq_refl)
    as (tx & tx0 & _ & H0 & _ & _ & _ & Hg & _).
  exists tx0. split; [exact H0 | exact Hg].
Defined.

End ByHashExtras.

Section TransactionTraceFacts.
Import Js Utils Traces Blocks TraceHandlers MoreNotions.
Variable env : Env.

Lemma makeTraces_linkage (receipt : Receipt) :
  tracesOf (makeTraces env receipt true)
  = map eraseLinkage (tracesOf (makeTraces env receipt false)) /\
  (forall t, In t (tracesOf (makeTraces env receipt false)) ->
     transactionHash t = Some (r_hash receipt)).
Proof.
  rewrite !makeTraces_shape. cbn [tracesOf ah_trace map].
  rewrite eraseLinkage_makeInitialTrace, map_map.
  split; [reflexivity|].
  intros t [<-|Hin].
  - unfold makeInitialTrace. destruct (r_errors receipt) as [[|e es]|]; reflexivity.
  - apply in_map_iff in Hin. destruct Hin as (itx & <- & _). reflexivity.
Qed.

End TransactionTraceFacts.

Section TransactionTraceExtras.
Import Js Utils Traces Blocks TraceHandlers MoreNotions.

(** X20: the two trace handlers that take a transaction hash.
    [trace_replayTransaction] throws when the trace types are not
    exactly the one type "trace".  Otherwise the two handlers return
    [null] on the same hashes, and on the others
    [trace_replayTransaction] returns the traces of
    [trace_transaction] with the four linkage fields left out; every
    trace of [trace_transaction] carries the hash that the receipt
    found stores.  The case of the hash asked for makes no
    difference. *)
Theorem X20_transaction_traces
    (env : Env) (backend : Backend) (trxHash : option string) (traceTypes : list string) :
  (traceTypes <> ["trace"] ->
   trace_replayTransaction env backend trxHash traceTypes
   = Throw (newError ("trace_replayTransaction" +:+ onlyTraceMessage)))
  /\
  (trace_transaction env backend trxHash = None <->
   trace_replayTransaction env backend trxHash ["trace"] = Ok None)
  /\
  (forall r,
     trace_transaction env backend trxHash = Some r ->
     exists d r',
       searchActionByHash backend trxHash = Some d /\
       trace_replayTransaction env backend trxHash ["trace"] = Ok (Some r') /\
       tracesOf r' = map eraseLinkage (tracesOf r) /\
       Forall (fun t => transactionHash t = Some (r_hash (d_raw d))) (tracesOf r))
  /\
  trace_transaction env backend (toLowerCase <$> trxHash)
  = trace_transaction env backend trxHash.
Proof.
  split; [|split; [|split]].
  - intros Hne. unfold trace_replayTransaction.
    assert (E : notOnlyTrace traceTypes = true).
    { unfold notOnlyTrace.
      destruct traceTypes as [|t [|t2 rest]]; try reflexivity.
      cbn. case_bool_decide as Ht; [|reflexivity]. congruence. }
    now rewrite E.
  - unfold trace_transaction, trace_replayTransaction.
    change (notOnlyTrace ["trace"]) with false. cbv iota.
    unfold getTracesForTrx, mret, Result_ret.
    destruct (truthy trxHash); [|split; reflexivity].
    destruct (searchActionByHash backend trxHash); split;
      solve [reflexivity | discriminate].
  - intros r. unfold trace_transaction, trace_replayTransaction.
    change (notOnlyTrace ["trace"]) with false. cbv iota.
    unfold getTracesForTrx, mret, Result_ret.
    destruct (truthy trxHash); [|discriminate].
    destruct (searchActionByHash backend trxHash) as [d|]; [|discriminate].
    intros H. injection H as <-.
    exists d. eexists. split; [reflexivity|]. split; [reflexivity|].
    destruct (makeTraces_linkage env (d_raw d)) as (H1 & H4).
    split; [exact H1|]. apply Forall_forall. intros t Ht.
    apply H4. now apply list_elem_of_In.
  - destruct trxHash as [h|]; [|reflexivity].
    cbn [fmap option_fmap option_map].
    unfold trace_transaction, getTracesForTrx, searchActionByHash.
    rewrite toLowerCase_nonempty, toLowerCase_idem. reflexivity.
Qed.

Lemma X20_transaction_traces_witness :
  trace_replayTransaction (Samples.env []) MoreSamples.backend (Some "0xa1") ["vmTrace"]
  = Throw (newError ("trace_replayTransaction" +:+ onlyTraceMessage)).
Proof.
  apply (proj1 (X20_transaction_traces (Samples.env []) MoreSamples.backend
                  (Some "0xa1") ["vmTrace"])).
  discriminate.
Defined.

End TransactionTraceExtras.
